(** * Pocket FM downloader: API handler and download manager

    A shallow embedding of [src/api_handler.py] (class [PocketFMAPIHandler])
    and [src/download_manager.py] (class [DownloadManager]), with the
    constants of [src/config.py], and the properties of the resilient
    API-access layer and of the download/delivery pipeline; then of the
    handlers of [src/handlers.py] that feed the queue, and of the queue
    itself.

    Conventions of the embedding.
    - Python exceptions are values of [exn]; a computation that may raise
      returns a [Res].  Only subclasses of Python's [Exception] are modelled
      (cancellation and interpreter exit are not errors of the program), so
      [except Exception] and a bare [except] both catch every [exn].
    - Everything outside the two classes (the HTTP session, the Telegram
      client, the file system calls that can fail, the event-loop clock) is an
      oracle [env]: the outcome of the [n]-th external call is a function of
      [n] and of the call, so every behaviour of the outside is covered.
    - [logger] calls are not modelled beyond the evaluation of their
      argument: writing the line has no effect on the program;
      [init_session] and the aiohttp session belong to the environment.
    - JSON numbers are integers; event-loop time and the progress percentage
      are exact rationals in place of floats.
    - Expressions inside log lines that can raise are kept ([len(results)],
      [episode.get('title')]). *)

From Stdlib Require Import ZArith QArith Lqa List Bool Lia.
From stdpp Require Import base option list strings gmap.

Set Warnings "-register-all".
Local Open Scope string_scope.
Local Open Scope Z_scope.

(** ** Python values and exceptions *)

Module Py.

(** The exception classes the two modules can meet. [OtherError] stands for
    any further subclass of [Exception] raised by a library call
    (aiohttp.ClientError, OSError, a Telegram RPC error, ...). *)
Inductive exn :=
| TimeoutError        (* asyncio.TimeoutError *)
| ZeroDivisionError
| IndexError
| AttributeError
| ValueError
| OtherError (tag : string).

Inductive Res (A : Type) :=
| Ok (a : A)
| Raise (e : exn).
Arguments Ok {A} a.
Arguments Raise {A} e.

(** What [response.json()] can return. A dict is kept as the list of its
    (key, value) pairs; [dict_lookup] reads the first pair of a key. *)
Inductive json :=
| JNull
| JBool (b : bool)
| JNum (n : Z)
| JStr (s : string)
| JList (l : list json)
| JDict (kv : list (string * json)).

(** Python truth value: [None], [False], [0], the empty string, [[]] and
    [{}] are false. *)
Definition truthy (v : json) : bool :=
  match v with
  | JNull => false
  | JBool b => b
  | JNum n => negb (Z.eqb n 0)
  | JStr s => negb (String.eqb s "")
  | JList l => match l with [] => false | _ => true end
  | JDict kv => match kv with [] => false | _ => true end
  end.

Fixpoint dict_lookup (kv : list (string * json)) (k : string) : option json :=
  match kv with
  | [] => None
  | (k', v) :: rest => if String.eqb k' k then Some v else dict_lookup rest k
  end.

(** [len(v)], as far as whether it raises: strings, lists and dicts have a
    length; on [None], a boolean or a number [len] raises TypeError. *)
Definition py_len_check (v : json) : Res unit :=
  match v with
  | JStr _ | JList _ | JDict _ => Ok tt
  | _ => Raise (OtherError "TypeError")
  end.

(** [v.get(k, default)]: defined on dicts only; on any other JSON value the
    attribute lookup raises AttributeError. *)
Definition py_get (v : json) (k : string) (default : json) : Res json :=
  match v with
  | JDict kv => Ok (from_option id default (dict_lookup kv k))
  | _ => Raise AttributeError
  end.

End Py.

(** ** The world the two classes run in *)

Module World.
Import Py.

(** State of [PocketFMAPIHandler] ([__init__]); the aiohttp session is part
    of the environment. *)
Record PocketFMAPIHandler := mkHandler {
  base_urls : list string;
  current_url_index : nat;
  retry_attempts : nat;
  retry_delay : Z
}.

(** The status texts [_process_item] formats, by their template.
    - [TxtGettingUrl t]: "Downloading: {t} ... Getting stream URL..."
    - [TxtNoStreamUrl t]: "Failed: Could not get stream URL / Episode: {t}"
    - [TxtProgress t p total]: "Downloading: {t} / Progress: {p:.1f}% / Size: {total/2^20:.2f} MB"
    - [TxtDownloadFailed t]: "Download Failed / Episode: {t} / Please try again later"
    - [TxtUploading t]: "Uploading to Telegram / {t}..."
    - [TxtComplete t]: "Download Complete! ... {t} has been downloaded and uploaded."
    - [TxtUploadFailed path]: "Download complete but upload failed / File saved locally: {path}"
    - [TxtError e]: "Error / {str(e)[:200]}" *)
Inductive text :=
| TxtGettingUrl (title : json)
| TxtNoStreamUrl (title : json)
| TxtProgress (title : json) (percent : Q) (total : Z)
| TxtDownloadFailed (title : json)
| TxtUploading (title : json)
| TxtComplete (title : json)
| TxtUploadFailed (filepath : string)
| TxtError (e : exn).

(** Calls that leave the two classes. [Progress] is the invocation of the
    [progress_callback] handed to [download_file]. *)
Inductive call :=
| HttpRequest (method url : string) (params : list (string * json))
| HttpGet (url : json)
| Sleep (secs : Z)
| FileOpen (path : string)
| FileWrite (path : string) (chunk : list Byte.byte)
| Progress (percent : Q) (downloaded total : Z)
| SendMessage (chat_id : Z) (msg : text)
| EditText (msg : text)
| DeleteMessage
| SendAudio (chat_id : Z) (audio : string) (title duration : json)
| Mkdir (path : string)
| Remove (path : string).

(** [fs] holds the regular files under the path strings the program uses
    for them. Two strings that name one file ("a/b" and "a/./b") are two
    keys, so what is said about files is said at the path the code passes,
    together with the calls it makes; nothing is concluded about a file
    from the state of other keys. *)
Record world := mkWorld {
  api : PocketFMAPIHandler;           (* the global [api_handler] *)
  fs : gmap string (list Byte.byte);  (* regular files, by path *)
  loop_time : Q;                      (* asyncio.get_event_loop().time() *)
  last_update : Q;                    (* the cell [last_update[0]] *)
  trace : list call                   (* calls made so far, oldest first *)
}.

Definition set_api (h : PocketFMAPIHandler) (w : world) : world :=
  mkWorld h (fs w) (loop_time w) (last_update w) (trace w).
Definition set_index (i : nat) (w : world) : world :=
  set_api (mkHandler (base_urls (api w)) i (retry_attempts (api w))
                     (retry_delay (api w))) w.
Definition set_fs (f : gmap string (list Byte.byte)) (w : world) : world :=
  mkWorld (api w) f (loop_time w) (last_update w) (trace w).
Definition set_loop_time (t : Q) (w : world) : world :=
  mkWorld (api w) (fs w) t (last_update w) (trace w).
Definition set_last_update (t : Q) (w : world) : world :=
  mkWorld (api w) (fs w) (loop_time w) t (trace w).
Definition log (c : call) (w : world) : world :=
  mkWorld (api w) (fs w) (loop_time w) (last_update w) (trace w ++ [c])%list.

(** What [session.request(...)] gives: a response with its status and what
    [response.json()] does on it, or an exception of the transport. *)
Inductive http_outcome :=
| HttpResponse (status : Z) (body : Res json)
| HttpRaise (e : exn).

(** The content-length header as [int(...)] sees it. *)
Inductive header_int :=
| Absent
| Malformed
| Int (n : Z).

(** What [session.get(url)] gives in [download_file]. Each chunk of
    [iter_chunked] comes with the event-loop time at which it is handled;
    [dl_stream_error] is raised once the chunks are consumed. *)
Record get_response := mkGet {
  dl_status : Z;
  dl_content_length : header_int;
  dl_chunks : list (Q * list Byte.byte);
  dl_stream_error : option exn
}.

Inductive get_outcome :=
| GetResponse (r : get_response)
| GetRaise (e : exn).

(** The environment. The first argument of each oracle is the number of
    calls made before this one. [py_str] is Python's [str()] as used by the
    f-string of the file name; [download_path] is [config.DOWNLOAD_PATH],
    read from the process environment. *)
Record env := mkEnv {
  on_request : nat -> string -> string -> list (string * json) -> http_outcome;
  on_get : nat -> json -> get_outcome;
  on_call : nat -> call -> option exn;
  py_str : json -> string;
  download_path : string
}.

(** Computations: state passing over [world], with exceptions. *)
Definition M (A : Type) : Type := world -> Res A * world.

Definition ret {A} (a : A) : M A := fun w => (Ok a, w).
Definition raise {A} (e : exn) : M A := fun w => (Raise e, w).
Definition bind {A B} (m : M A) (k : A -> M B) : M B :=
  fun w => match m w with
           | (Ok a, w') => k a w'
           | (Raise e, w') => (Raise e, w')
           end.
Definition lift {A} (r : Res A) : M A := fun w => (r, w).

(** [try: m except Exception as e: h e] *)
Definition try_except {A} (m : M A) (h : exn -> M A) : M A :=
  fun w => match m w with
           | (Ok a, w') => (Ok a, w')
           | (Raise e, w') => h e w'
           end.

(** [try: m finally: f]; an exception of [f] replaces the outcome of [m]. *)
Definition try_finally {A} (m : M A) (f : M unit) : M A :=
  fun w => match m w with
           | (r, w') => match f w' with
                        | (Ok _, w'') => (r, w'')
                        | (Raise e, w'') => (Raise e, w'')
                        end
           end.

Definition get_world : M world := fun w => (Ok w, w).
Definition modify (f : world -> world) : M unit := fun w => (Ok tt, f w).

End World.

Declare Scope py_scope.
Delimit Scope py_scope with py.
Notation "'let*' x ':=' m 'in' k" := (World.bind m (fun x => k))
  (at level 10, x pattern, m at level 100, k at level 200) : py_scope.
Notation "m ';;' k" := (World.bind m (fun _ => k))
  (at level 100, k at level 200, right associativity) : py_scope.

(** ** src/config.py *)

Module Config.

Definition CHUNK_SIZE : Z := 1024 * 1024.
Definition REQUEST_TIMEOUT : Z := 15.
Definition RETRY_ATTEMPTS : nat := 3.
Definition RETRY_DELAY : Z := 2.
Definition POCKETFM_BASE_URLS : list string :=
  [ "https://api.pocketfm.in";
    "https://api.pocketfm.com";
    "https://api-cdn.pocketfm.com";
    "https://gateway.pocketfm.com" ].
(** The default of [os.getenv("DOWNLOAD_PATH", "downloads")]. *)
Definition DOWNLOAD_PATH : string := "downloads".

End Config.

(** ** src/api_handler.py *)

Module ApiHandler.
Import Py World.
Local Open Scope py_scope.

(** [PocketFMAPIHandler.__init__] (lines 17-22). *)
Definition init_handler : PocketFMAPIHandler :=
  mkHandler Config.POCKETFM_BASE_URLS 0 Config.RETRY_ATTEMPTS Config.RETRY_DELAY.

Section WithEnv.
Variable E : env.

(** An external call that returns nothing: it is recorded, and raises when
    the environment says so. *)
Definition external (c : call) : M unit :=
  fun w => match on_call E (length (trace w)) c with
           | None => (Ok tt, log c w)
           | Some e => (Raise e, log c w)
           end.

(** [asyncio.sleep(secs)] *)
Definition sleep (secs : Z) : M unit := modify (log (Sleep secs)).

(** [_get_base_url] (lines 40-44): an index past the end is reset to 0;
    indexing the empty list raises IndexError. *)
Definition _get_base_url : M string :=
  fun w =>
    let h := api w in
    let i := if (length (base_urls h) <=? current_url_index h)%nat
             then 0%nat else current_url_index h in
    let w' := set_index i w in
    match base_urls h !! i with
    | Some u => (Ok u, w')
    | None => (Raise IndexError, w')
    end.

(** [_rotate_url] (lines 46-49): the modulo raises ZeroDivisionError on an
    empty list; the log line then evaluates [_get_base_url()]. *)
Definition _rotate_url : M unit :=
  fun w =>
    let h := api w in
    match length (base_urls h) with
    | O => (Raise ZeroDivisionError, w)
    | S _ =>
        let i := ((current_url_index h + 1) mod length (base_urls h))%nat in
        (let* _ := _get_base_url in ret tt) (set_index i w)
    end.

(** [session.request(method, url, ssl=False, **kwargs)] *)
Definition session_request (method url : string) (params : list (string * json))
  : M (Z * Res json) :=
  fun w =>
    let w' := log (HttpRequest method url params) w in
    match on_request E (length (trace w)) method url params with
    | HttpResponse status body => (Ok (status, body), w')
    | HttpRaise e => (Raise e, w')
    end.

(** The body of the retry loop of [_make_request] (lines 66-86), for one
    [attempt]. [Some j] is [return j]; [None] goes on to the next attempt. *)
Definition attempt_body (method endpoint : string) (params : list (string * json))
    (attempt : nat) : M (option json) :=
  try_except
    (let* base_url := _get_base_url in
     let url := base_url ++ endpoint in
     let* (status, body) := session_request method url params in
     if status =? 200 then
       let* j := lift body in ret (Some j)
     else if status =? 404 then
       _rotate_url ;; ret None
     else if (status =? 429) || (status =? 503) then
       let* w := get_world in
       sleep (retry_delay (api w) * (Z.of_nat attempt + 1)) ;; ret None
     else ret None)
    (fun e =>
       match e with
       | TimeoutError =>
           let* w := get_world in
           sleep (retry_delay (api w)) ;; ret None
       | _ => _rotate_url ;; ret None
       end).

(** [for c in cs: body] where the body may [return]. *)
Fixpoint for_each {C A} (body : C -> M (option A)) (cs : list C) : M (option A) :=
  match cs with
  | [] => ret None
  | c :: cs' =>
      let* r := body c in
      match r with
      | Some a => ret (Some a)
      | None => for_each body cs'
      end
  end.

(** [_make_request] (lines 51-88). The result is the parsed JSON, or
    [JNull] for Python's [None]. *)
Definition _make_request (method endpoint : string) (params : list (string * json))
  : M json :=
  let* w := get_world in
  let* r := for_each (attempt_body method endpoint params)
                     (seq 0 (retry_attempts (api w))) in
  ret (from_option id JNull r).

(** Python's [a or b]: [b] is evaluated only when [a] is false. *)
Definition py_or (a : json) (b : M json) : M json :=
  if truthy a then ret a else b.

(** [for c in cs: try: body except Exception as e: logger.error(...)]:
    a candidate whose body raises is abandoned for the next one. *)
Definition try_candidates {C} (body : C -> M (option json)) (cs : list C)
  : M (option json) :=
  for_each (fun c => try_except (body c) (fun _ => ret None)) cs.

(** [search_series] (lines 90-126). *)
Definition search_endpoints (query : string) (limit : Z)
  : list (string * list (string * json)) :=
  [ ("/api/v1/search", [("q", JStr query); ("type", JStr "series"); ("limit", JNum limit)]);
    ("/api/v2/search", [("q", JStr query); ("type", JStr "series"); ("limit", JNum limit)]);
    ("/search", [("q", JStr query); ("type", JStr "series"); ("limit", JNum limit)]);
    ("/series/search", [("q", JStr query); ("limit", JNum limit)]) ].

Definition search_extract (response : json) : M json :=
  let* r1 := lift (py_get response "results" (JList [])) in
  py_or r1
    (let* d := lift (py_get response "data" (JDict [])) in
     let* r2 := lift (py_get d "series" (JList [])) in
     py_or r2
       (let* r3 := lift (py_get response "data" (JList [])) in
        py_or r3 (lift (py_get response "series" (JList []))))).

Definition search_candidate (c : string * list (string * json)) : M (option json) :=
  let* response := _make_request "GET" (fst c) (snd c) in
  if truthy response then
    let* results := search_extract response in
    if truthy results then
      (* the log line of line 119 evaluates [len(results)] *)
      lift (py_len_check results) ;; ret (Some results)
    else ret None
  else ret None.

Definition search_series (query : string) (limit : Z) : M json :=
  let* r := try_candidates search_candidate (search_endpoints query limit) in
  ret (from_option id (JList []) r).

(** [get_series_details] (lines 128-146). *)
Definition details_endpoints (series_id : string) : list string :=
  [ "/api/v1/series/" ++ series_id;
    "/api/v2/series/" ++ series_id;
    "/series/" ++ series_id ].

Definition details_candidate (endpoint : string) : M (option json) :=
  let* response := _make_request "GET" endpoint [] in
  if truthy response then ret (Some response) else ret None.

Definition get_series_details (series_id : string) : M json :=
  let* r := try_candidates details_candidate (details_endpoints series_id) in
  ret (from_option id JNull r).

(** [get_episodes] (lines 148-179). *)
Definition episodes_endpoints (series_id : string) : list string :=
  [ "/api/v1/series/" ++ series_id ++ "/episodes";
    "/api/v2/series/" ++ series_id ++ "/episodes";
    "/series/" ++ series_id ++ "/episodes" ].

Definition episodes_extract (response : json) : M json :=
  let* r1 := lift (py_get response "episodes" (JList [])) in
  py_or r1
    (let* r2 := lift (py_get response "data" (JList [])) in
     py_or r2 (lift (py_get response "items" (JList [])))).

Definition episodes_candidate (limit : Z) (endpoint : string) : M (option json) :=
  let* response := _make_request "GET" endpoint [("limit", JNum limit)] in
  if truthy response then
    let* episodes := episodes_extract response in
    if truthy episodes then
      (* the log line of line 173 evaluates [len(episodes)] *)
      lift (py_len_check episodes) ;; ret (Some episodes)
    else ret None
  else ret None.

Definition get_episodes (series_id : string) (limit : Z) : M json :=
  let* r := try_candidates (episodes_candidate limit) (episodes_endpoints series_id) in
  ret (from_option id (JList []) r).

(** [get_stream_url] (lines 181-212). The episode id is whatever the
    episode dict holds; the f-strings format it with [str()]. *)
Definition stream_endpoints (episode_id : json) : list string :=
  [ "/api/v1/episodes/" ++ py_str E episode_id ++ "/stream";
    "/api/v2/episodes/" ++ py_str E episode_id ++ "/stream";
    "/episodes/" ++ py_str E episode_id ++ "/stream";
    "/stream/" ++ py_str E episode_id ].

Definition stream_extract (response : json) : M json :=
  let* r1 := lift (py_get response "url" JNull) in
  py_or r1 (lift (py_get response "stream_url" JNull)).

Definition stream_candidate (quality : string) (endpoint : string) : M (option json) :=
  let* response := _make_request "GET" endpoint [("quality", JStr quality)] in
  if truthy response then
    let* url := stream_extract response in
    if truthy url then ret (Some url) else ret None
  else ret None.

Definition get_stream_url (episode_id : json) (quality : string) : M json :=
  let* r := try_candidates (stream_candidate quality) (stream_endpoints episode_id) in
  ret (from_option id JNull r).

(** [download_file] (lines 214-250). *)
Definition session_get (url : json) : M get_response :=
  fun w =>
    let w' := log (HttpGet url) w in
    match on_get E (length (trace w)) url with
    | GetResponse r => (Ok r, w')
    | GetRaise e => (Raise e, w')
    end.

(** [int(response.headers.get('content-length', 0))] *)
Definition content_length (h : header_int) : Res Z :=
  match h with
  | Absent => Ok 0
  | Malformed => Raise ValueError
  | Int n => Ok n
  end.

(** [aiofiles.open(filepath, 'wb')]: creates or truncates the file. *)
Definition file_open (filepath : string) : M unit :=
  external (FileOpen filepath) ;;
  modify (fun w => set_fs (<[filepath := []]> (fs w)) w).

(** [f.write(chunk)] *)
Definition file_write (filepath : string) (chunk : list Byte.byte) : M unit :=
  external (FileWrite filepath chunk) ;;
  modify (fun w => set_fs (<[filepath := (from_option id [] (fs w !! filepath) ++ chunk)%list]> (fs w)) w).

(** [(downloaded / total_size) * 100] *)
Definition percent_of (downloaded total_size : Z) : Q :=
  ((inject_Z downloaded / inject_Z total_size) * 100)%Q.

Definition callback : Type := Q -> Z -> Z -> M unit.

(** The loop over [iter_chunked] (lines 234-240), from [downloaded] bytes
    on. A chunk arrives at its time stamp. *)
Fixpoint write_chunks (filepath : string) (progress_callback : option callback)
    (total_size : Z) (chunks : list (Q * list Byte.byte)) (downloaded : Z) : M unit :=
  match chunks with
  | [] => ret tt
  | (t, chunk) :: rest =>
      modify (set_loop_time t) ;;
      file_write filepath chunk ;;
      let downloaded := downloaded + Z.of_nat (length chunk) in
      (match progress_callback with
       | Some cb =>
           if total_size >? 0 then
             let progress := percent_of downloaded total_size in
             modify (log (Progress progress downloaded total_size)) ;;
             cb progress downloaded total_size
           else ret tt
       | None => ret tt
       end) ;;
      write_chunks filepath progress_callback total_size rest downloaded
  end.

Definition download_file (url : json) (filepath : string)
    (progress_callback : option callback) : M bool :=
  try_except
    (let* response := session_get url in
     if (dl_status response =? 200) || (dl_status response =? 206) then
       let* total_size := lift (content_length (dl_content_length response)) in
       file_open filepath ;;
       write_chunks filepath progress_callback total_size (dl_chunks response) 0 ;;
       match dl_stream_error response with
       | Some e => raise e
       | None => ret true
       end
     else ret false)
    (fun _ => ret false).

End WithEnv.
End ApiHandler.

(** ** src/download_manager.py *)

Module DownloadManager.
Import Py World ApiHandler.
Local Open Scope py_scope.

(** The dict [add_to_queue] puts on the queue (lines 26-30). *)
Record work_item := mkItem {
  user_id : Z;
  episode : json;
  status : string
}.

Definition add_to_queue (user : Z) (ep : json) : work_item :=
  mkItem user ep "queued".

Fixpoint ends_with_sep (s : string) : bool :=
  match s with
  | EmptyString => false
  | String c EmptyString => Ascii.eqb c (Ascii.ascii_of_nat 47)
  | String _ rest => ends_with_sep rest
  end.

(** [os.path.join(a, b)] of posixpath. *)
Definition os_path_join (a b : string) : string :=
  if String.prefix "/" b then b
  else if String.eqb a "" || ends_with_sep a then a ++ b
  else a ++ "/" ++ b.

(** [x > y] on event-loop times. *)
Definition Qgtb (x y : Q) : bool := negb (Qle_bool x y).

Section WithEnv.
Variable E : env.

(** [os.remove(path)] *)
Definition os_remove (path : string) : M unit :=
  external E (Remove path) ;;
  modify (fun w => set_fs (delete path (fs w)) w).

(** [os.path.exists(path)] *)
Definition os_path_exists (path : string) : M bool :=
  let* w := get_world in
  ret (match fs w !! path with Some _ => true | None => false end).

(** The closure [download_progress] (lines 84-96). *)
Definition download_progress (episode_title : json) : callback :=
  fun percent downloaded total =>
    let* w := get_world in
    let current_time := loop_time w in
    if Qgtb (current_time - last_update w) 2 then
      try_except
        (external E (EditText (TxtProgress episode_title percent total)))
        (fun _ => ret tt) ;;
      modify (set_last_update current_time)
    else ret tt.

(** The [finally] block (lines 146-153). *)
Definition cleanup (filepath : string) : M unit :=
  let* present := os_path_exists filepath in
  if present then try_except (os_remove filepath) (fun _ => ret tt)
  else ret tt.

(** Lines 113-153: the upload step with its own try/except/finally. *)
Definition upload_step (user : Z) (ep episode_title : json) (filepath : string)
  : M unit :=
  external E (EditText (TxtUploading episode_title)) ;;
  try_finally
    (try_except
       (let* duration := lift (py_get ep "duration" (JNum 0)) in
        external E (SendAudio user filepath episode_title duration) ;;
        external E DeleteMessage ;;
        external E (SendMessage user (TxtComplete episode_title)))
       (fun _ => external E (EditText (TxtUploadFailed filepath))))
    (cleanup filepath).

(** Lines 66-153: what runs inside the outer [try] once [status_msg] holds
    the first message. *)
Definition process_steps (user : Z) (ep episode_id episode_title : json) : M unit :=
  let* stream_url := get_stream_url E episode_id "high" in
  if negb (truthy stream_url) then
    external E (EditText (TxtNoStreamUrl episode_title))
  else
    external E (Mkdir (download_path E)) ;;
    let filepath := os_path_join (download_path E) (py_str E episode_id ++ ".mp3") in
    modify (set_last_update 0) ;;
    let* success := download_file E stream_url filepath
                      (Some (download_progress episode_title)) in
    if negb success then
      external E (EditText (TxtDownloadFailed episode_title))
    else upload_step user ep episode_title filepath.

(** [_process_item] (lines 49-163). [status_msg] is still [None] in the
    outer handler exactly when the first [send_message] raised; otherwise
    the handler tries to edit the status message and ignores a failure. *)
Definition _process_item (item : work_item) : M unit :=
  let user := user_id item in
  let ep := episode item in
  let* episode_id := lift (py_get ep "id" (JStr "unknown")) in
  let* episode_title := lift (py_get ep "title" (JStr "Unknown Episode")) in
  let* sent := try_except
                 (external E (SendMessage user (TxtGettingUrl episode_title)) ;; ret true)
                 (fun _ => ret false) in
  if sent then
    try_except
      (process_steps user ep episode_id episode_title)
      (fun e => try_except (external E (EditText (TxtError e))) (fun _ => ret tt))
  else ret tt.

(** What [asyncio.wait_for(self.queue.get(), timeout=30)] does in one turn
    of the loop. *)
Inductive queue_event :=
| QItem (item : work_item)
| QTimeout
| QError (e : exn).

Definition queue_get (q : queue_event) : M work_item :=
  match q with
  | QItem item => ret item
  | QTimeout => raise TimeoutError
  | QError e => raise e
  end.

(** One turn of [while True] in [process_queue] (lines 38-47). An
    exception that leaves the turn ends the loop. [queue.task_done()] only
    counts the item as done and is left out. *)
Definition process_queue_turn (q : queue_event) : M unit :=
  try_except
    (let* item := queue_get q in _process_item item)
    (fun e =>
       match e with
       | TimeoutError => ret tt
       | _ => sleep 5
       end).

(** The loop, run over the outcomes the queue gives in its first turns. *)
Fixpoint process_queue (qs : list queue_event) : M unit :=
  match qs with
  | [] => ret tt
  | q :: rest => process_queue_turn q ;; process_queue rest
  end.

End WithEnv.
End DownloadManager.

(** ** src/handlers.py, with the queue of src/download_manager.py

    The handlers run on the state of the bot process: the dict [user_data],
    the queue of the download manager, and the world of the API handler.
    A handler is modelled as running from start to end on that state; what
    other coroutines do while it awaits is not modelled. Button labels and
    message texts are kept by their template. *)

Module Bot.
Import Py World ApiHandler.

(** The texts the handlers send, by template; [UiError] is
    "Error: {str(e)[:50]}" (callbacks) or "Error: {str(e)[:200]}"
    ([cmd_search]). *)
Inductive ui_text :=
| UiSearchUsage
| UiSearching (query : string)
| UiNoResults (query : string)
| UiSearchResults (query : string) (count : nat)
| UiLoadingSeries
| UiSeriesFailed
| UiSeriesCard (title episodes desc : json)
| UiLoadingEpisodes
| UiNoEpisodes
| UiEpisodeList (count : nat)
| UiEpisodeNotFound
| UiAddedToQueue
| UiLoadingAll
| UiQueuedAll (count : nat)
| UiError.

(** Button labels, by template, with the values they are formatted from. *)
Inductive label :=
| LblSeries (title : json)
| LblEpisode (number title : json)
| LblViewEpisodes
| LblDownloadAll
| LblBack.

Record button := mkButton {
  btn_label : label;
  callback_data : string
}.

(** Calls on the incoming message or callback query: [reply_text],
    [edit_text] (with the rows of its keyboard, one button each) and
    [callback.answer]. *)
Inductive ui_call :=
| ReplyText (t : ui_text)
| EditMessage (t : ui_text) (keyboard : list button)
| Answer (t : ui_text) (show_alert : bool).

Record bot := mkBot {
  user_data : gmap Z (gmap string json);        (* handlers.user_data *)
  queue : list DownloadManager.work_item;       (* download_manager.queue, oldest first *)
  ui : list ui_call;                            (* calls made so far, oldest first *)
  core : world
}.

Definition set_user_data (d : gmap Z (gmap string json)) (b : bot) : bot :=
  mkBot d (queue b) (ui b) (core b).
Definition set_queue (q : list DownloadManager.work_item) (b : bot) : bot :=
  mkBot (user_data b) q (ui b) (core b).
Definition log_ui (c : ui_call) (b : bot) : bot :=
  mkBot (user_data b) (queue b) (ui b ++ [c])%list (core b).
Definition set_core (w : world) (b : bot) : bot :=
  mkBot (user_data b) (queue b) (ui b) w.

(** The environment of the handlers: that of the API handler, the outcome
    of each call on the message or callback, and Python's view of a string
    as the sequence of its characters. *)
Record bot_env := mkBotEnv {
  core_env : env;
  on_ui : nat -> ui_call -> option exn;
  py_chars : string -> list string
}.

(** Computations over [bot], with exceptions. *)
Definition Handler (A : Type) : Type := bot -> Res A * bot.

Definition hret {A} (a : A) : Handler A := fun b => (Ok a, b).
Definition hbind {A B} (m : Handler A) (k : A -> Handler B) : Handler B :=
  fun b => match m b with
           | (Ok a, b') => k a b'
           | (Raise e, b') => (Raise e, b')
           end.
Definition hlift {A} (r : Res A) : Handler A := fun b => (r, b).
Definition htry_except {A} (m : Handler A) (h : exn -> Handler A) : Handler A :=
  fun b => match m b with
           | (Ok a, b') => (Ok a, b')
           | (Raise e, b') => h e b'
           end.
Definition hget : Handler bot := fun b => (Ok b, b).
Definition hmodify (f : bot -> bot) : Handler unit := fun b => (Ok tt, f b).

(** A computation of the API handler, run on the world of the bot. *)
Definition in_core {A} (m : M A) : Handler A :=
  fun b => match m (core b) with
           | (r, w') => (r, set_core w' b)
           end.

End Bot.

Declare Scope bot_scope.
Delimit Scope bot_scope with bot.
Notation "'let*' x ':=' m 'in' k" := (Bot.hbind m (fun x => k))
  (at level 10, x pattern, m at level 100, k at level 200) : bot_scope.
Notation "m ';;' k" := (Bot.hbind m (fun _ => k))
  (at level 100, k at level 200, right associativity) : bot_scope.

Module Handlers.
Import Py World ApiHandler Bot.
Local Open Scope bot_scope.

(** Exceptions of classes [exn] does not name. *)
Definition TypeError : exn := OtherError "TypeError".
Definition KeyError : exn := OtherError "KeyError".

(** The first occurrence of [sep] in [s]: what is before and after it. *)
Fixpoint cut (sep : Ascii.ascii) (s : string) : option (string * string) :=
  match s with
  | EmptyString => None
  | String c rest =>
      if Ascii.eqb c sep then Some (EmptyString, rest)
      else match cut sep rest with
           | Some (before, after) => Some (String c before, after)
           | None => None
           end
  end.

(** [s.split(sep, maxsplit)] for a separator of one character. *)
Fixpoint py_split (sep : Ascii.ascii) (maxsplit : nat) (s : string) : list string :=
  match maxsplit with
  | O => [s]
  | S m =>
      match cut sep s with
      | Some (before, after) => before :: py_split sep m after
      | None => [s]
      end
  end.

Definition underscore : Ascii.ascii := Ascii.ascii_of_nat 95.

(** [l[i]] on a list *)
Definition py_index {A} (l : list A) (i : nat) : Res A :=
  match l !! i with
  | Some x => Ok x
  | None => Raise IndexError
  end.

(** [d[k]] where [d] came out of [.get] calls that passed: a missing key
    raises KeyError, a value that is no dict TypeError. *)
Definition py_item (v : json) (k : string) : Res json :=
  match v with
  | JDict kv => match dict_lookup kv k with
                | Some x => Ok x
                | None => Raise KeyError
                end
  | _ => Raise TypeError
  end.

(** [v == s] for a string [s]: only an equal string is equal to it. *)
Definition py_eq_str (v : json) (s : string) : bool :=
  match v with
  | JStr s' => String.eqb s' s
  | _ => false
  end.

(** Whether [v[:n]] is defined: strings and lists can be sliced. *)
Definition py_slice_check (v : json) : Res unit :=
  match v with
  | JStr _ | JList _ => Ok tt
  | _ => Raise TypeError
  end.

Section WithEnv.
Variable BE : bot_env.

(** A call on the message or callback: recorded, and raising when the
    environment says so. *)
Definition ui_do (c : ui_call) : Handler unit :=
  fun b => match on_ui BE (length (ui b)) c with
           | None => (Ok tt, log_ui c b)
           | Some e => (Raise e, log_ui c b)
           end.

(** [v[:n]] *)
Definition py_slice (n : nat) (v : json) : Res json :=
  match v with
  | JList l => Ok (JList (take n l))
  | JStr s => Ok (JStr (String.concat "" (take n (py_chars BE s))))
  | _ => Raise TypeError
  end.

(** The elements [for x in v] runs over. *)
Definition py_iter (v : json) : Res (list json) :=
  match v with
  | JList l => Ok l
  | JDict kv => Ok (map (fun p => JStr (fst p)) kv)
  | JStr s => Ok (map JStr (py_chars BE s))
  | _ => Raise TypeError
  end.

(** [len(v)] *)
Definition py_len (v : json) : Res nat :=
  match v with
  | JList l => Ok (length l)
  | JDict kv => Ok (length kv)
  | JStr s => Ok (length (py_chars BE s))
  | _ => Raise TypeError
  end.

(** [for x in xs: body x] *)
Fixpoint hfor {A} (xs : list A) (body : A -> Handler unit) : Handler unit :=
  match xs with
  | [] => hret tt
  | x :: rest => body x ;; hfor rest body
  end.

(** [DownloadManager.add_to_queue] (download_manager.py lines 24-31): the
    item is put on the queue first; the log line that follows calls
    [episode.get('title')] and raises on an episode that is no dict. *)
Definition add_to_queue (user : Z) (ep : json) : Handler unit :=
  hmodify (fun b => set_queue (queue b ++ [DownloadManager.add_to_queue user ep])%list b) ;;
  let* _ := hlift (py_get ep "title" JNull) in
  hret tt.

(** [user_data.get(user_id, {}).get(key, default)] *)
Definition user_value (b : bot) (user : Z) (key : string) (default : json) : json :=
  from_option id default (from_option id ∅ (user_data b !! user) !! key).

(** The loop of lines 218-221: the first episode whose "id" equals
    [episode_id]. *)
Fixpoint find_episode (episode_id : string) (episodes : list json)
  : Res (option json) :=
  match episodes with
  | [] => Ok None
  | ep :: rest =>
      match py_get ep "id" JNull with
      | Raise e => Raise e
      | Ok v => if py_eq_str v episode_id then Ok (Some ep)
                else find_episode episode_id rest
      end
  end.

(** [callback_episode_download] (lines 207-238) on the callback data
    [data] of user [user]. *)
Definition callback_episode_download (data : string) (user : Z) : Handler unit :=
  htry_except
    (let* episode_id := hlift (py_index (py_split underscore 1 data) 1) in
     let* b := hget in
     let* episodes := hlift (py_iter (user_value b user "episodes" (JList []))) in
     let* found := hlift (find_episode episode_id episodes) in
     let episode := from_option id JNull found in
     if negb (truthy episode) then
       ui_do (Answer UiEpisodeNotFound true)
     else
       add_to_queue user episode ;;
       ui_do (Answer UiAddedToQueue false))
    (fun _ => ui_do (Answer UiError true)).

(** [callback_download_all] (lines 240-274). *)
Definition callback_download_all (data : string) (user : Z) : Handler unit :=
  htry_except
    (let* series_id := hlift (py_index (py_split underscore 2 data) 2) in
     ui_do (EditMessage UiLoadingAll []) ;;
     let* episodes := in_core (get_episodes (core_env BE) series_id 500) in
     if negb (truthy episodes) then
       ui_do (EditMessage UiNoEpisodes [])
     else
       let* episodes := hlift (py_slice 50 episodes) in
       let* eps := hlift (py_iter episodes) in
       hfor eps (fun ep => add_to_queue user ep) ;;
       let* n := hlift (py_len episodes) in
       ui_do (EditMessage (UiQueuedAll n) []))
    (fun _ => ui_do (Answer UiError true)).

(** One row of the keyboard of [callback_episodes] (lines 186-189). *)
Definition episode_button (ep : json) : Res button :=
  match py_get ep "episode_number" (JStr "?") with
  | Raise e => Raise e
  | Ok number =>
      match py_get ep "title" (JStr "Unknown") with
      | Raise e => Raise e
      | Ok title =>
          match py_slice_check title with
          | Raise e => Raise e
          | Ok _ =>
              match py_item ep "id" with
              | Raise e => Raise e
              | Ok i => Ok (mkButton (LblEpisode number title) ("ep_" ++ py_str (core_env BE) i))
              end
          end
      end
  end.

(** [[f x for x in xs]] where [f] may raise. *)
Fixpoint comprehension {A B} (f : A -> Res B) (xs : list A) : Res (list B) :=
  match xs with
  | [] => Ok []
  | x :: rest =>
      match f x with
      | Raise e => Raise e
      | Ok y => match comprehension f rest with
                | Raise e => Raise e
                | Ok ys => Ok (y :: ys)
                end
      end
  end.

(** [user_data[user][key] = v]: KeyError when [user] has no entry. *)
Definition store (user : Z) (key : string) (v : json) : Handler unit :=
  fun b => match user_data b !! user with
           | Some d => (Ok tt, set_user_data (<[user := <[key := v]> d]> (user_data b)) b)
           | None => (Raise KeyError, b)
           end.

(** [callback_episodes] (lines 166-205). *)
Definition callback_episodes (data : string) (user : Z) : Handler unit :=
  htry_except
    (let* series_id := hlift (py_index (py_split underscore 1 data) 1) in
     ui_do (EditMessage UiLoadingEpisodes []) ;;
     let* episodes := in_core (get_episodes (core_env BE) series_id 100) in
     if negb (truthy episodes) then
       ui_do (EditMessage UiNoEpisodes [])
     else
       store user "episodes" episodes ;;
       let* first := hlift (py_slice 10 episodes) in
       let* eps := hlift (py_iter first) in
       let* rows := hlift (comprehension episode_button eps) in
       let keyboard := (rows ++ [mkButton LblBack ("series_" ++ series_id)])%list in
       let* n := hlift (py_len episodes) in
       ui_do (EditMessage (UiEpisodeList n) keyboard))
    (fun _ => ui_do (Answer UiError true)).

(** [callback_series] (lines 124-164). *)
Definition callback_series (data : string) (user : Z) : Handler unit :=
  htry_except
    (let* series_id := hlift (py_index (py_split underscore 1 data) 1) in
     ui_do (EditMessage UiLoadingSeries []) ;;
     let* details := in_core (get_series_details (core_env BE) series_id) in
     if negb (truthy details) then
       ui_do (EditMessage UiSeriesFailed [])
     else
       hmodify (fun b => match user_data b !! user with
                         | Some _ => b
                         | None => set_user_data (<[user := ∅]> (user_data b)) b
                         end) ;;
       store user "current_series" details ;;
       store user "series_id" (JStr series_id) ;;
       let* title := hlift (py_get details "title" (JStr "Unknown")) in
       let* desc := hlift (py_get details "description" (JStr "No description")) in
       let* episodes := hlift (py_get details "total_episodes" (JStr "?")) in
       let keyboard :=
         [ mkButton LblViewEpisodes ("episodes_" ++ series_id);
           mkButton LblDownloadAll ("download_all_" ++ series_id);
           mkButton LblBack "back_search" ] in
       let* _ := hlift (py_slice_check desc) in
       ui_do (EditMessage (UiSeriesCard title episodes desc) keyboard))
    (fun _ => ui_do (Answer UiError true)).

(** One row of the keyboard of [cmd_search] (lines 105-108). *)
Definition series_button (r : json) : Res button :=
  match py_get r "title" (JStr "Unknown") with
  | Raise e => Raise e
  | Ok title =>
      match py_slice_check title with
      | Raise e => Raise e
      | Ok _ =>
          match py_item r "id" with
          | Raise e => Raise e
          | Ok i => Ok (mkButton (LblSeries title) ("series_" ++ py_str (core_env BE) i))
          end
      end
  end.

(** [cmd_search] (lines 71-120), on [parts], the result of
    [message.text.split(maxsplit=1)], for the sender [user]. The handler of
    the outer [except] replies with the error; that reply may raise. *)
Definition cmd_search (parts : list string) (user : Z) : Handler unit :=
  htry_except
    (match parts with
     | _ :: query :: _ =>
         ui_do (ReplyText (UiSearching query)) ;;
         let* results := in_core (search_series (core_env BE) query 10) in
         if negb (truthy results) then
           ui_do (EditMessage (UiNoResults query) [])
         else
           hmodify (fun b => set_user_data
                               (<[user := {[ "search_results" := results ]}]>
                                  (user_data b)) b) ;;
           let* first := hlift (py_slice 10 results) in
           let* rs := hlift (py_iter first) in
           let* keyboard := hlift (comprehension series_button rs) in
           let* n := hlift (py_len results) in
           ui_do (EditMessage (UiSearchResults query n) keyboard)
     | _ => ui_do (ReplyText UiSearchUsage)
     end)
    (fun _ => ui_do (ReplyText UiError)).

(** The callback handlers, in the order [register_handlers] registers
    them (lines 288-291), and the one that gets a callback query: the first
    whose filter [^prefix] matches the data. *)
Inductive callback_handler :=
| CbSeries
| CbEpisodes
| CbEpisodeDownload
| CbDownloadAll.

Definition route (data : string) : option callback_handler :=
  if String.prefix "series_" data then Some CbSeries
  else if String.prefix "episodes_" data then Some CbEpisodes
  else if String.prefix "ep_" data then Some CbEpisodeDownload
  else if String.prefix "download_all_" data then Some CbDownloadAll
  else None.

Definition dispatch_callback (data : string) (user : Z) : Handler unit :=
  match route data with
  | Some CbSeries => callback_series data user
  | Some CbEpisodes => callback_episodes data user
  | Some CbEpisodeDownload => callback_episode_download data user
  | Some CbDownloadAll => callback_download_all data user
  | None => hret tt
  end.

(** One turn of [process_queue] on the queue of the bot: [queue.get()]
    gives the oldest item; on an empty queue, with nobody putting, the wait
    times out. *)
Definition queue_turn : Handler unit :=
  fun b =>
    match queue b with
    | [] =>
        match DownloadManager.process_queue_turn (core_env BE) DownloadManager.QTimeout (core b) with
        | (r, w') => (r, set_core w' b)
        end
    | item :: rest =>
        match DownloadManager.process_queue_turn (core_env BE) (DownloadManager.QItem item) (core b) with
        | (r, w') => (r, set_core w' (set_queue rest b))
        end
    end.

(** [n] turns of the loop. *)
Fixpoint queue_turns (n : nat) : Handler unit :=
  match n with
  | O => hret tt
  | S k => queue_turn ;; queue_turns k
  end.

End WithEnv.
End Handlers.

(** * Vocabulary of the properties *)

Import Py World ApiHandler DownloadManager.
Local Open Scope py_scope.

(** ** Runs and the calls they make *)

(** A computation respects a relation [R] on worlds when every run leads
    from a world to an [R]-related one, whatever it returns or raises. *)
Definition respects (R : world -> world -> Prop) {A} (m : M A) : Prop :=
  forall w r w', m w = (r, w') -> R w w'.

(** The calls added to the trace all satisfy [P] and, when [keep] is set,
    the file system is left alone. *)
Definition only_calls (keep : bool) (P : call -> Prop) (w w' : world) : Prop :=
  (keep = true -> fs w' = fs w) /\
  exists l, trace w' = (trace w ++ l)%list /\ Forall P l.

Definition emits (keep : bool) (P : call -> Prop) {A} (m : M A) : Prop :=
  respects (only_calls keep P) m.

(** The calls a run from [w] to [w'] added to the trace. *)
Definition new_calls (w w' : world) : list call :=
  drop (length (trace w)) (trace w').

(** The calls of [l] that satisfy [p], in order. *)
Fixpoint select (p : call -> bool) (l : list call) : list call :=
  match l with
  | [] => []
  | c :: rest => if p c then c :: select p rest else select p rest
  end.

(** The calls of the API client proper: requests and sleeps. *)
Definition client_call (c : call) : Prop :=
  match c with
  | HttpRequest _ _ _ | Sleep _ => True
  | _ => False
  end.

(** The calls of the transfer engine. *)
Definition download_call (c : call) : Prop :=
  match c with
  | HttpGet _ | FileOpen _ | FileWrite _ _ | Progress _ _ _ => True
  | _ => False
  end.

(** Calls other than invocations of the progress callback. *)
Definition not_progress (c : call) : Prop :=
  match c with
  | Progress _ _ _ => False
  | _ => True
  end.

(** Invocations of the progress callback. *)
Definition is_progress (c : call) : bool :=
  match c with
  | Progress _ _ _ => true
  | _ => false
  end.

(** Edits of the status message that show download progress. *)
Definition is_progress_edit (c : call) : bool :=
  match c with
  | EditText (TxtProgress _ _ _) => true
  | _ => false
  end.

(** ** Endpoint registry and retry loop *)

(** [n] consecutive calls of [_rotate_url]. *)
Fixpoint rotate_n (n : nat) : M unit :=
  match n with
  | O => ret tt
  | S k => _rotate_url ;; rotate_n k
  end.

(** The world after one rotation of the cursor. *)
Definition rotated (w : world) : world :=
  set_index ((current_url_index (api w) + 1) mod length (base_urls (api w))) w.

(** ** Catalog resolver *)

(** A run over the candidates in which no candidate gives usable data:
    each body either falls through or raises. *)
Fixpoint exhausted {C} (body : C -> M (option json)) (cs : list C) (w : world)
  : bool :=
  match cs with
  | [] => true
  | c :: cs' =>
      match body c w with
      | (Ok (Some _), _) => false
      | (_, w1) => exhausted body cs' w1
      end
  end.

(** What a resolver operation owes its caller: a value, never an exception;
    and the unresolved value when the candidates are exhausted. *)
Definition soft_failure (op : M json) (all_exhausted : bool) (unresolved : json)
    (w : world) : Prop :=
  (exists v w', op w = (Ok v, w')) /\
  (all_exhausted = true -> fst (op w) = Ok unresolved).

(** No request is ever answered by a 200 whose body parses. *)
Definition never_200 (E : env) : Prop :=
  forall n method url params j,
    on_request E n method url params <> HttpResponse 200 (Ok j).

(** The body of a loop did not [return]. *)
Definition no_result {A} (r : Res (option A)) : Prop :=
  forall a, r <> Ok (Some a).

(** ** Transfer engine and throttle *)

(** The progress calls [download_file] owes for [chunks], from [downloaded]
    bytes on: one per chunk, with the running byte count. *)
Fixpoint progress_calls (total_size : Z) (chunks : list (Q * list Byte.byte))
    (downloaded : Z) : list call :=
  match chunks with
  | [] => []
  | (_, chunk) :: rest =>
      let downloaded := downloaded + Z.of_nat (length chunk) in
      Progress (percent_of downloaded total_size) downloaded total_size
        :: progress_calls total_size rest downloaded
  end.

(** The bytes of a chunk stream. *)
Definition stream_size (chunks : list (Q * list Byte.byte)) : Z :=
  fold_right (fun tc n => Z.of_nat (length (snd tc)) + n) 0 chunks.

(** The span of time, [2 * (k + 1)] seconds, in which [k + 1] edits fit and
    no more. *)
Fixpoint budget (k : nat) : Q :=
  match k with
  | O => 2
  | S k' => budget k' + 2
  end.

(** All chunks are handled by time [T]. *)
Definition within (T : Q) (chunks : list (Q * list Byte.byte)) : Prop :=
  Forall (fun tc => (fst tc <= T)%Q) chunks.

(** ** Concrete worlds, environments and inputs *)

(** The world at start-up: the handler of [__init__], no file, no call. *)
Definition world0 : world := mkWorld init_handler ∅ 0%Q 0%Q [].

(** [str()] on the ids used below, which are strings. *)
Definition str_of (j : json) : string :=
  match j with
  | JStr s => s
  | _ => "?"
  end.

(** Every request is answered by [o], every download by [g]; no other call
    fails. *)
Definition fixed_env (o : http_outcome) (g : get_outcome) : env :=
  mkEnv (fun _ _ _ _ => o) (fun _ _ => g) (fun _ _ => None) str_of
        Config.DOWNLOAD_PATH.

(** For runs that never reach a download. *)
Definition no_download : get_outcome := GetRaise (OtherError "unreachable").

(** A download refused with status 403. *)
Definition forbidden : get_response := mkGet 403 (Int 5) [(0%Q, [Byte.x00])] None.

(** A server that sends two chunks and no content-length. *)
Definition unsized : get_response :=
  mkGet 200 Absent
        [(10%Q, [Byte.x01; Byte.x02]); (11%Q, [Byte.x03])] None.

(** A payload that only the third search rule matches. *)
Definition data_only : json := JDict [("data", JList [JDict [("id", JStr "s1")]])].

(** The item of the end-to-end scenarios: [{id: "ep_1", title: "Test"}],
    queued by requester 7. *)
Definition ep_1 : json := JDict [("id", JStr "ep_1"); ("title", JStr "Test")].
Definition item_1 : work_item := add_to_queue 7 ep_1.

(** A download of three bytes with a matching content-length. *)
Definition served : get_response :=
  mkGet 200 (Int 3) [(1000%Q, [Byte.x01; Byte.x02; Byte.x03])] None.

(** The stream URL is resolved at the first request, the download of
    [served] succeeds, and [send_audio] raises. *)
Definition upload_fails_env : env :=
  mkEnv (fun _ _ _ _ => HttpResponse 200 (Ok (JDict [("url", JStr "http://cdn/ep_1.mp3")])))
        (fun _ _ => GetResponse served)
        (fun _ c => match c with
                    | SendAudio _ _ _ _ => Some (OtherError "DeliveryError")
                    | _ => None
                    end)
        str_of Config.DOWNLOAD_PATH.

(** The simulated transfer: a progress event every 100 ms for 5 seconds,
    50 chunks of one byte, advertised size 50, the event loop clock at
    1000 s when it starts. *)
Definition simulated : get_response :=
  mkGet 200 (Int 50)
        (map (fun i => ((1000 + inject_Z (Z.of_nat i) / 10)%Q, [Byte.x00])) (seq 1 50))
        None.

(** ** Counting calls *)

Definition is_request (c : call) : bool :=
  match c with
  | HttpRequest _ _ _ => true
  | _ => false
  end.

Definition is_sleep (c : call) : bool :=
  match c with
  | Sleep _ => true
  | _ => false
  end.

(** How many calls of [l] satisfy [p]. *)
Definition count (p : call -> bool) (l : list call) : nat :=
  length (select p l).

(** From a world whose handler allows [N] attempts, every run of [m] adds
    at most [n] calls that satisfy [p], and leaves [N] as it is. *)
Definition adds_at_most (p : call -> bool) (N n : nat) {A} (m : M A) : Prop :=
  forall w r w',
    retry_attempts (api w) = N -> m w = (r, w') ->
    retry_attempts (api w') = N /\
    exists l, trace w' = (trace w ++ l)%list /\ (count p l <= n)%nat.

(** The host the cursor designates after [k] rotations from cursor [i] in a
    registry of [n] hosts. *)
Definition host_after (urls : list string) (i k : nat) : option string :=
  urls !! ((i + k) mod length urls)%nat.

(** What [n] attempts against a throttling host add to the trace: the same
    request each time, followed by a sleep that grows linearly. *)
Definition backoff_trace (request : call) (delay : Z) (n : nat) : list call :=
  flat_map (fun k => [request; Sleep (delay * (Z.of_nat k + 1))]) (seq 0 n).

(** The run [run], started in [w], added at most [n] requests. *)
Definition requests_within {A} (n : nat) (w : world) (run : Res A * world) : Prop :=
  exists l, trace (snd run) = (trace w ++ l)%list /\ (count is_request l <= n)%nat.

(** The value [v] tells the caller that nothing was found exactly when it
    is false in Python's sense. *)
Definition falsy_iff_unresolved (unresolved : json) (run : Res json * world) : Prop :=
  exists v, fst run = Ok v /\ (truthy v = false <-> v = unresolved).

(** The value returned has a length: [len] of it does not raise. *)
Definition has_length (run : Res json * world) : Prop :=
  exists v, fst run = Ok v /\ py_len_check v = Ok tt.

(** The request of an attempt that finds the cursor [k] rotations after
    cursor [i]. *)
Definition request_after (urls : list string) (i : nat) (method endpoint : string)
    (params : list (string * json)) (k : nat) : call :=
  HttpRequest method (from_option id "" (host_after urls i k) ++ endpoint) params.

(** The value [stream_extract] picks from a dict: "url" when it is true,
    else "stream_url". *)
Definition stream_pick (kv : list (string * json)) : json :=
  let url := from_option id JNull (dict_lookup kv "url") in
  if truthy url then url else from_option id JNull (dict_lookup kv "stream_url").

(** The first two hosts of the default registry answer 404 to everything,
    the others answer 200 with a stream URL. *)
Definition two_dead_hosts_env : env :=
  mkEnv (fun _ _ url _ =>
           if String.prefix "https://api.pocketfm." url
           then HttpResponse 404 (Raise ValueError)
           else HttpResponse 200 (Ok (JDict [("url", JStr "http://cdn/ep_1.mp3")])))
        (fun _ _ => no_download) (fun _ _ => None) str_of Config.DOWNLOAD_PATH.

(** ** Files *)

(** A computation that leaves the file system as it finds it. *)
Definition keeps_files {A} (m : M A) : Prop :=
  respects (fun w w' => fs w' = fs w) m.

(** The progress callback handed to [download_file], if any, does not touch
    files. *)
Definition callback_keeps_files (cb : option callback) : Prop :=
  forall f, cb = Some f -> forall p d t, keeps_files (f p d t).

(** The bytes of the first [k] chunks of a stream. *)
Definition body_of (k : nat) (chunks : list (Q * list Byte.byte)) : list Byte.byte :=
  concat (map snd (take k chunks)).

(** A call that opens, writes, uploads or removes a file names [path];
    calls of any other kind pass. *)
Definition file_call_on (path : string) (c : call) : Prop :=
  match c with
  | FileOpen p | FileWrite p _ | Remove p | SendAudio _ p _ _ => p = path
  | _ => True
  end.

(** The progress callback handed to [download_file], if any, makes no file
    call on another path than [path]. *)
Definition callback_calls_on (path : string) (cb : option callback) : Prop :=
  forall f, cb = Some f ->
            forall p d t, emits false (file_call_on path) (f p d t).

(** The destination [_process_item] computes for an episode id (line 79). *)
Definition item_path (E : env) (episode_id : json) : string :=
  os_path_join (download_path E) (py_str E episode_id ++ ".mp3").

(** A response [download_file] accepts: status 200 or 206, a size header
    that [int()] reads, and a stream that ends normally. *)
Definition good_response (r : get_response) : Prop :=
  (dl_status r = 200 \/ dl_status r = 206) /\
  dl_content_length r <> Malformed /\
  dl_stream_error r = None.

(** Writing to [path] never fails. *)
Definition writable (E : env) (path : string) : Prop :=
  (forall n, on_call E n (FileOpen path) = None) /\
  (forall n chunk, on_call E n (FileWrite path chunk) = None).

(** The progress callback, if any, returns normally whenever it is called. *)
Definition callback_never_raises (cb : option callback) : Prop :=
  forall f, cb = Some f -> forall p d t w, exists w', f p d t w = (Ok tt, w').

(** Every Telegram call fails, file calls succeed. *)
Definition telegram_down_env : env :=
  mkEnv (fun _ _ _ _ => HttpResponse 200 (Ok (JDict [("url", JStr "http://cdn/ep_1.mp3")])))
        (fun _ _ => GetResponse served)
        (fun _ c => match c with
                    | FileOpen _ | FileWrite _ _ | Mkdir _ | Remove _ => None
                    | _ => Some (OtherError "FloodWait")
                    end)
        str_of Config.DOWNLOAD_PATH.

(** A download whose stream breaks after the first of two chunks. *)
Definition broken_stream : get_response :=
  mkGet 200 (Int 4) [(1000%Q, [Byte.x01; Byte.x02])]
        (Some (OtherError "ClientPayloadError")).

(** A download whose size header does not parse. *)
Definition bad_header : get_response :=
  mkGet 200 Malformed [(1000%Q, [Byte.x01])] None.

(** Nothing fails: the stream URL resolves at the first request, the
    download of [g] is served, every other call goes through. *)
Definition serving_env (g : get_response) : env :=
  mkEnv (fun _ _ _ _ => HttpResponse 200 (Ok (JDict [("url", JStr "http://cdn/ep_1.mp3")])))
        (fun _ _ => GetResponse g) (fun _ _ => None) str_of Config.DOWNLOAD_PATH.

(** ** The handlers and the queue *)

Import Bot.

(** JSON objects. *)
Definition is_dict (v : json) : bool :=
  match v with
  | JDict _ => true
  | _ => false
  end.

(** The items [add_to_queue] builds for [user], one for each episode. *)
Definition queued (user : Z) (eps : list json) : list work_item :=
  map (add_to_queue user) eps.

(** The episodes stored for [user], as the download callback reads them. *)
Definition stored_episodes (b : bot) (user : Z) : json :=
  Handlers.user_value b user "episodes" (JList []).

(** The id a callback handler reads from its data: the text after the
    first underscore, or after the second one for "download all". *)
Definition parsed_id (h : Handlers.callback_handler) (data : string) : Res string :=
  match h with
  | Handlers.CbDownloadAll =>
      Handlers.py_index (Handlers.py_split Handlers.underscore 2 data) 2
  | _ => Handlers.py_index (Handlers.py_split Handlers.underscore 1 data) 1
  end.

(** The data goes to handler [h], which reads [id] from it. *)
Definition delivers (data : string) (h : Handlers.callback_handler) (eid : string) : Prop :=
  Handlers.route data = Some h /\ parsed_id h data = Ok eid.

(** The episode has an "id", and it is not the string [id]. *)
Definition other_id (eid : string) (ep : json) : Prop :=
  exists v, py_get ep "id" JNull = Ok v /\ v <> JStr eid.

(** The episode has an "id" that is no string at all. *)
Definition non_string_id (ep : json) : Prop :=
  exists v, py_get ep "id" JNull = Ok v /\ forall s, v <> JStr s.

(** The characters of a string of ASCII characters. *)
Fixpoint ascii_chars (s : string) : list string :=
  match s with
  | EmptyString => []
  | String c rest => String c EmptyString :: ascii_chars rest
  end.

(** An environment of the handlers where every call on the message or
    callback succeeds, over the API environment [E]. *)
Definition quiet_ui (E : env) : bot_env :=
  mkBotEnv E (fun _ _ => None) ascii_chars.

(** A bot that has served nobody yet. *)
Definition bot0 : bot := mkBot ∅ [] [] world0.

Definition ep_2 : json := JDict [("id", JStr "ep_2"); ("title", JStr "Second")].
Definition ep_num : json := JDict [("id", JNum 5); ("title", JStr "Numbered")].

(** A bot where user 7 has been shown [eps]. *)
Definition shown (eps : list json) : bot :=
  mkBot {[ 7 := {[ "episodes" := JList eps ]} ]} [] [] world0.

(** The episodes a loop of [add_to_queue] puts on the queue: all of them up
    to and including the first that is no dict, on which the call raises. *)
Fixpoint accepted (eps : list json) : list json :=
  match eps with
  | [] => []
  | e :: rest => if is_dict e then e :: accepted rest else [e]
  end.

(** An API environment where every request is answered 200 with [body]. *)
Definition answering (body : json) : env :=
  fixed_env (HttpResponse 200 (Ok body)) no_download.

(** A listing whose second entry is not an object. *)
Definition listing_with_gap : json :=
  JDict [("episodes", JList [ep_1; JStr "soon"; ep_2])].

(** The call shows a list of episodes. *)
Definition shows_episode_list (c : ui_call) : Prop :=
  match c with
  | EditMessage (UiEpisodeList _) _ => True
  | _ => False
  end.

(** The episode gets a button in the list of [callback_episodes]. *)
Definition listable (BE : bot_env) (ep : json) : Prop :=
  exists btn, Handlers.episode_button BE ep = Ok btn.

(** Python's [str] on strings. *)
Definition str_is_identity (BE : bot_env) : Prop :=
  forall s, py_str (core_env BE) (JStr s) = s.

(** No call on the message or callback fails. *)
Definition ui_never_fails (BE : bot_env) : Prop :=
  forall n c, on_ui BE n c = None.

(** The first status message of an item: "Downloading: <title> ... Getting
    stream URL...". *)
Definition is_announcement (c : call) : bool :=
  match c with
  | SendMessage _ (TxtGettingUrl _) => true
  | _ => false
  end.

Definition unannounced (c : call) : Prop := is_announcement c = false.

(** The first status message [_process_item] sends for an item; an item
    whose episode is no dict gets none. *)
Definition announcement (item : work_item) : list call :=
  match py_get (episode item) "title" (JStr "Unknown Episode") with
  | Ok title => [SendMessage (user_id item) (TxtGettingUrl title)]
  | Raise _ => []
  end.

(** The first status message a turn of the loop sends: that of the item,
    when the queue gave one. *)
Definition announced (q : queue_event) : list call :=
  match q with
  | QItem item => announcement item
  | _ => []
  end.

(** A bot with [eps] queued for user 7 and nothing else. *)
Definition loaded (eps : list json) : bot :=
  mkBot ∅ (queued 7 eps) [] world0.

(** What a call must satisfy if it shows the card of a series read from
    the callback data [data]: three buttons, the first two leading to the
    episode list and to "download all" of that series. *)
Definition card_for (data : string) (c : ui_call) : Prop :=
  forall title n desc kb,
    c = EditMessage (UiSeriesCard title n desc) kb ->
    exists sid x1 x2 x3,
      parsed_id Handlers.CbSeries data = Ok sid /\
      kb = [x1; x2; x3] /\
      delivers (callback_data x1) Handlers.CbEpisodes sid /\
      delivers (callback_data x2) Handlers.CbDownloadAll sid /\
      Handlers.route (callback_data x3) = None.

(** Details of a series as the server may give them. *)
Definition series_1 : json :=
  JDict [("title", JStr "Saving Nora"); ("total_episodes", JNum 2)].

(** A search response whose first rule succeeds. *)
Definition found_one : json :=
  JDict [("results", JList [JDict [("id", JStr "s1"); ("title", JStr "Saving Nora")]])].

(** * Properties *)

Arguments _rotate_url : simpl never.
Arguments _get_base_url : simpl never.

Lemma bind_ok {A B} (m : M A) (k : A -> M B) (w w' : world) (a : A) :
  m w = (Ok a, w') -> bind m k w = k a w'.
Proof. intros H. unfold bind. rewrite H. reflexivity. Qed.

Lemma bind_raise {A B} (m : M A) (k : A -> M B) (w w' : world) (e : exn) :
  m w = (Raise e, w') -> bind m k w = (Raise e, w').
Proof. intros H. unfold bind. rewrite H. reflexivity. Qed.

(** ** Endpoint registry *)

Lemma set_index_same (w : world) :
  set_index (current_url_index (api w)) w = w.
Proof. destruct w as [[urls i ra rd] f t l tr]; reflexivity. Qed.

Lemma set_index_twice (i j : nat) (w : world) :
  set_index j (set_index i w) = set_index j w.
Proof. reflexivity. Qed.

Lemma get_base_url_in_range (w : world) :
  (current_url_index (api w) < length (base_urls (api w)))%nat ->
  exists u, base_urls (api w) !! current_url_index (api w) = Some u
            /\ _get_base_url w = (Ok u, w).
Proof.
  intros Hlt. unfold _get_base_url.
  destruct (Nat.leb_spec (length (base_urls (api w))) (current_url_index (api w)))
    as [Hle|_]; [lia|].
  destruct (lookup_lt_is_Some_2 _ _ Hlt) as [u Hu].
  exists u. rewrite Hu, set_index_same. auto.
Qed.

Lemma rotate_url_nonempty (w : world) :
  base_urls (api w) <> [] ->
  _rotate_url w =
    (Ok tt, set_index ((current_url_index (api w) + 1)
                         mod length (base_urls (api w))) w).
Proof.
  intros Hne. unfold _rotate_url.
  destruct (length (base_urls (api w))) as [|n] eqn:Hlen.
  { destruct (base_urls (api w)); [congruence | discriminate]. }
  set (i := ((current_url_index (api w) + 1) mod S n)%nat).
  assert (Hi : (i < S n)%nat) by (apply Nat.mod_upper_bound; lia).
  unfold bind.
  destruct (get_base_url_in_range (set_index i w)) as [u [_ Hu]].
  { simpl. lia. }
  rewrite Hu. reflexivity.
Qed.

Lemma rotate_n_index (k : nat) (w : world) :
  base_urls (api w) <> [] ->
  rotate_n (S k) w =
    (Ok tt, set_index ((current_url_index (api w) + S k)
                         mod length (base_urls (api w))) w).
Proof.
  revert w. induction k as [|k IH]; intros w Hne.
  - simpl. unfold bind. rewrite rotate_url_nonempty by assumption. reflexivity.
  - change (rotate_n (S (S k)) w) with ((_rotate_url ;; rotate_n (S k)) w).
    unfold bind at 1. rewrite rotate_url_nonempty by assumption.
    rewrite IH by (simpl; assumption).
    simpl api. simpl base_urls. simpl current_url_index.
    rewrite set_index_twice. do 2 f_equal.
    rewrite Nat.Div0.add_mod_idemp_l. f_equal. lia.
Qed.

(** C8. On a non-empty registry [_rotate_url] never raises, however often it
    is called and wherever the cursor stands; from a cursor inside the
    registry, as many rotations as there are hosts lead back to the same
    cursor, hence the same host; and with a single host one rotation
    changes nothing. *)
Theorem rotate_url_circular (w : world) :
  base_urls (api w) <> [] ->
  (forall k, exists w', rotate_n k w = (Ok tt, w')) /\
  ((current_url_index (api w) < length (base_urls (api w)))%nat ->
   rotate_n (length (base_urls (api w))) w = (Ok tt, w) /\
   (forall w', rotate_n (length (base_urls (api w))) w = (Ok tt, w') ->
               fst (_get_base_url w') = fst (_get_base_url w)) /\
   (length (base_urls (api w)) = 1%nat -> _rotate_url w = (Ok tt, w))).
Proof.
  intros Hne. split.
  - intros [|k]; [exists w; reflexivity|].
    eexists. apply rotate_n_index. assumption.
  - intros Hlt.
    assert (Hback : rotate_n (length (base_urls (api w))) w = (Ok tt, w)).
    { destruct (length (base_urls (api w))) as [|n] eqn:Hlen; [lia|].
      rewrite rotate_n_index by assumption. rewrite Hlen.
      replace ((current_url_index (api w) + S n) mod S n)%nat
        with (current_url_index (api w)).
      - rewrite set_index_same. reflexivity.
      - rewrite <- Nat.Div0.add_mod_idemp_r, Nat.Div0.mod_same, Nat.add_0_r.
        symmetry. apply Nat.mod_small. assumption. }
    split; [exact Hback|]. split.
    + intros w' Hw'. rewrite Hback in Hw'. congruence.
    + intros H1. rewrite rotate_url_nonempty, H1 by assumption.
      rewrite Nat.mod_1_r.
      replace 0%nat with (current_url_index (api w)) by lia.
      rewrite set_index_same. reflexivity.
Qed.

Lemma rotate_url_circular_witness :
  rotate_n 4 world0 = (Ok tt, world0).
Proof.
  assert (Hne : base_urls (api world0) <> []) by discriminate.
  assert (Hlt : (current_url_index (api world0)
                 < length (base_urls (api world0)))%nat) by (simpl; lia).
  exact (proj1 (proj2 (rotate_url_circular world0 Hne) Hlt)).
Defined.

(** Without any host the modulo of [_rotate_url] fails: the registry is
    meant to be non-empty. *)
Example rotate_url_empty_registry :
  fst (_rotate_url (set_api (mkHandler [] 0 3 2) world0)) = Raise ZeroDivisionError.
Proof. reflexivity. Qed.

(** ** The retry loop of [_make_request] *)

Lemma get_base_url_inv (w w1 : world) (u : string) :
  _get_base_url w = (Ok u, w1) ->
  base_urls (api w) <> [] /\
  base_urls (api w1) = base_urls (api w) /\
  retry_delay (api w1) = retry_delay (api w) /\
  trace w1 = trace w /\
  base_urls (api w1) !! current_url_index (api w1) = Some u.
Proof.
  unfold _get_base_url. intros H.
  destruct (base_urls (api w) !! _) as [u'|] eqn:Hu; [|discriminate].
  injection H as -> <-. simpl. repeat split; try assumption.
  intros Hnil. rewrite Hnil in Hu. discriminate.
Qed.

(** A status outside 200, 404, 429 and 503 matches no branch: the attempt
    ends with neither a rotation nor a sleep. *)
Lemma attempt_other_status (E : env) (method endpoint : string)
    (params : list (string * json)) (attempt : nat) (w w1 : world) (u : string)
    (status : Z) (body : Res json) :
  _get_base_url w = (Ok u, w1) ->
  on_request E (length (trace w)) method (u ++ endpoint) params
    = HttpResponse status body ->
  status <> 200 -> status <> 404 -> status <> 429 -> status <> 503 ->
  attempt_body E method endpoint params attempt w
    = (Ok None, log (HttpRequest method (u ++ endpoint) params) w1).
Proof.
  intros Hurl Ho H200 H404 H429 H503.
  destruct (get_base_url_inv _ _ _ Hurl) as (_ & _ & _ & Htrace & _).
  unfold attempt_body, try_except. rewrite (bind_ok _ _ _ _ _ Hurl).
  unfold bind, session_request. rewrite Htrace, Ho.
  destruct (Z.eqb_spec status 200); [contradiction|].
  destruct (Z.eqb_spec status 404); [contradiction|].
  destruct (Z.eqb_spec status 429); [contradiction|].
  destruct (Z.eqb_spec status 503); [contradiction|].
  reflexivity.
Qed.

(** C4, amended. One attempt of [_make_request], once [_get_base_url] gave
    the host [u]: the request to [u ++ endpoint] is made and, by its outcome,
    - status 200 with a body that parses: the body is returned;
    - status 404: the endpoint is rotated, nothing sleeps, next attempt;
    - status 429 or 503: sleep [retry_delay * (attempt + 1)], same endpoint,
      next attempt;
    - a timeout: sleep [retry_delay], same endpoint, next attempt;
    - any other exception: the endpoint is rotated, next attempt;
    - any other status: next attempt, with neither a rotation nor a sleep. *)
Theorem make_request_dispatch (E : env) (method endpoint : string)
    (params : list (string * json)) (attempt : nat) (w w1 : world) (u : string) :
  _get_base_url w = (Ok u, w1) ->
  let outcome := on_request E (length (trace w)) method (u ++ endpoint) params in
  let w2 := log (HttpRequest method (u ++ endpoint) params) w1 in
  let run := attempt_body E method endpoint params attempt w in
  (forall j, outcome = HttpResponse 200 (Ok j) -> run = (Ok (Some j), w2)) /\
  (forall body, outcome = HttpResponse 404 body -> run = (Ok None, rotated w2)) /\
  (forall status body, outcome = HttpResponse status body ->
     status = 429 \/ status = 503 ->
     run = (Ok None, log (Sleep (retry_delay (api w) * (Z.of_nat attempt + 1))) w2)) /\
  (outcome = HttpRaise TimeoutError ->
     run = (Ok None, log (Sleep (retry_delay (api w))) w2)) /\
  (forall e, outcome = HttpRaise e -> e <> TimeoutError ->
     run = (Ok None, rotated w2)) /\
  (forall status body, outcome = HttpResponse status body ->
     status <> 200 -> status <> 404 -> status <> 429 -> status <> 503 ->
     run = (Ok None, w2)).
Proof.
  intros Hurl outcome w2 run.
  destruct (get_base_url_inv _ _ _ Hurl) as (Hne & Hurls & Hdelay & Htrace & _).
  assert (Hne2 : base_urls (api w2) <> []) by (simpl; congruence).
  assert (Hrot : _rotate_url w2 = (Ok tt, rotated w2))
    by (apply rotate_url_nonempty; exact Hne2).
  assert (Hreq : session_request E method (u ++ endpoint) params w1 =
                 match outcome with
                 | HttpResponse status body => (Ok (status, body), w2)
                 | HttpRaise e => (Raise e, w2)
                 end).
  { unfold session_request. rewrite Htrace. reflexivity. }
  assert (Hother : forall status body, outcome = HttpResponse status body ->
            status <> 200 -> status <> 404 -> status <> 429 -> status <> 503 ->
            run = (Ok None, w2)).
  { intros status body Ho. apply (attempt_other_status E _ _ _ _ _ _ _ _ _ Hurl Ho). }
  split; [|split; [|split; [|split; [|split; [|exact Hother]]]]];
    unfold run, attempt_body, try_except; rewrite (bind_ok _ _ _ _ _ Hurl).
  - intros j Ho. rewrite Ho in Hreq. rewrite (bind_ok _ _ _ _ _ Hreq). reflexivity.
  - intros body Ho. rewrite Ho in Hreq. rewrite (bind_ok _ _ _ _ _ Hreq).
    simpl. rewrite (bind_ok _ _ _ _ _ Hrot). reflexivity.
  - intros status body Ho Hs. rewrite Ho in Hreq.
    rewrite (bind_ok _ _ _ _ _ Hreq).
    destruct Hs as [-> | ->]; simpl; unfold bind, get_world, sleep, modify, ret;
      simpl; rewrite Hdelay; reflexivity.
  - intros Ho. rewrite Ho in Hreq. rewrite (bind_raise _ _ _ _ _ Hreq).
    unfold bind, get_world, sleep, modify, ret. simpl.
    rewrite Hdelay. reflexivity.
  - intros e Ho He. rewrite Ho in Hreq. rewrite (bind_raise _ _ _ _ _ Hreq).
    destruct e; try congruence; rewrite (bind_ok _ _ _ _ _ Hrot); reflexivity.
Qed.

Lemma make_request_dispatch_witness :
  _get_base_url world0 = (Ok "https://api.pocketfm.in", world0) /\
  attempt_body (fixed_env (HttpResponse 404 (Raise ValueError)) no_download)
               "GET" "/api/v1/search" [] 0 world0
  = (Ok None,
     rotated (log (HttpRequest "GET" "https://api.pocketfm.in/api/v1/search" [])
                  world0)).
Proof.
  assert (H : _get_base_url world0 = (Ok "https://api.pocketfm.in", world0))
    by reflexivity.
  split; [exact H|].
  exact (proj1 (proj2 (make_request_dispatch
                         (fixed_env (HttpResponse 404 (Raise ValueError)) no_download)
                         "GET" "/api/v1/search" [] 0 world0 world0 _ H))
               (Raise ValueError) eq_refl).
Defined.

(** C4 as stated fails on a status that is an error of another class than
    404, 429 and 503: on a 500 the attempt ends without rotating the
    endpoint (and without sleeping). Over the three attempts of
    [_make_request] the same host is asked three times in a row. *)
Lemma server_error_does_not_rotate :
  let E := fixed_env (HttpResponse 500 (Raise ValueError)) no_download in
  let request := HttpRequest "GET" "https://api.pocketfm.in/api/v1/search" [] in
  attempt_body E "GET" "/api/v1/search" [] 0 world0 = (Ok None, log request world0) /\
  log request world0 <> rotated (log request world0) /\
  trace (snd (_make_request E "GET" "/api/v1/search" [] world0))
    = [request; request; request] /\
  current_url_index (api (snd (_make_request E "GET" "/api/v1/search" [] world0)))
    = 0%nat.
Proof.
  repeat split. intros H. apply (f_equal (fun w => current_url_index (api w))) in H.
  vm_compute in H. discriminate.
Qed.

(** Three attempts against hosts that all answer 404: three requests to
    three different hosts, no sleep, and [None]. *)
Example make_request_all_404 :
  let r := _make_request (fixed_env (HttpResponse 404 (Raise ValueError)) no_download)
                         "GET" "/x" [] world0 in
  fst r = Ok JNull /\
  trace (snd r) = [ HttpRequest "GET" "https://api.pocketfm.in/x" [];
                    HttpRequest "GET" "https://api.pocketfm.com/x" [];
                    HttpRequest "GET" "https://api-cdn.pocketfm.com/x" [] ] /\
  current_url_index (api (snd r)) = 3%nat.
Proof. repeat split. Qed.

(** Three attempts against a host that answers 503: linear backoff 2, 4, 6
    on the same host. *)
Example make_request_all_503 :
  let r := _make_request (fixed_env (HttpResponse 503 (Raise ValueError)) no_download)
                         "GET" "/x" [] world0 in
  fst r = Ok JNull /\
  trace (snd r) = [ HttpRequest "GET" "https://api.pocketfm.in/x" []; Sleep 2;
                    HttpRequest "GET" "https://api.pocketfm.in/x" []; Sleep 4;
                    HttpRequest "GET" "https://api.pocketfm.in/x" []; Sleep 6 ] /\
  current_url_index (api (snd r)) = 0%nat.
Proof. repeat split. Qed.

(** ** The transfer engine: [download_file] *)

(** C10. When the response to [session.get] has a status other than 200 and
    206, [download_file] returns [False] and its only effect is the request
    itself: the destination is neither opened nor written, the file system
    is as before. *)
Theorem download_bad_status_no_artifact (E : env) (url : json) (filepath : string)
    (cb : option callback) (w : world) (r : get_response) :
  on_get E (length (trace w)) url = GetResponse r ->
  dl_status r <> 200 -> dl_status r <> 206 ->
  download_file E url filepath cb w = (Ok false, log (HttpGet url) w) /\
  fs (snd (download_file E url filepath cb w)) = fs w /\
  trace (snd (download_file E url filepath cb w)) = (trace w ++ [HttpGet url])%list.
Proof.
  intros Hget H200 H206.
  assert (Hrun : download_file E url filepath cb w = (Ok false, log (HttpGet url) w)).
  { unfold download_file, try_except, bind, session_get. rewrite Hget.
    destruct (Z.eqb_spec (dl_status r) 200); [contradiction|].
    destruct (Z.eqb_spec (dl_status r) 206); [contradiction|].
    reflexivity. }
  rewrite Hrun. repeat split.
Qed.

Lemma download_bad_status_no_artifact_witness :
  download_file (fixed_env (HttpRaise TimeoutError) (GetResponse forbidden))
                (JStr "http://cdn/a.mp3") "downloads/a.mp3" None world0
  = (Ok false, log (HttpGet (JStr "http://cdn/a.mp3")) world0).
Proof.
  refine (proj1 (download_bad_status_no_artifact
                   (fixed_env (HttpRaise TimeoutError) (GetResponse forbidden))
                   (JStr "http://cdn/a.mp3") "downloads/a.mp3" None world0
                   forbidden eq_refl _ _)); simpl; lia.
Defined.

(** ** Frame reasoning

    For a preorder [R] on worlds, [respects R] follows the structure of a
    computation: sequencing, handlers, [finally] blocks and loops. *)

Section Frame.
Variable R : world -> world -> Prop.
Hypothesis R_refl : forall w, R w w.
Hypothesis R_trans : forall w1 w2 w3, R w1 w2 -> R w2 w3 -> R w1 w3.

Lemma respects_ret {A} (a : A) : respects R (ret a).
Proof. intros w r w' H. injection H as _ <-. apply R_refl. Qed.

Lemma respects_raise {A} (e : exn) : respects R (@raise A e).
Proof. intros w r w' H. injection H as _ <-. apply R_refl. Qed.

Lemma respects_lift {A} (x : Res A) : respects R (lift x).
Proof. intros w r w' H. injection H as _ <-. apply R_refl. Qed.

Lemma respects_get_world : respects R get_world.
Proof. intros w r w' H. injection H as _ <-. apply R_refl. Qed.

Lemma respects_modify (f : world -> world) :
  (forall w, R w (f w)) -> respects R (modify f).
Proof. intros Hf w r w' H. injection H as _ <-. apply Hf. Qed.

Lemma respects_bind {A B} (m : M A) (k : A -> M B) :
  respects R m -> (forall a, respects R (k a)) -> respects R (bind m k).
Proof.
  intros Hm Hk w r w' H. unfold bind in H.
  destruct (m w) as [[a|e] w1] eqn:Hmw.
  - eapply R_trans; [eapply Hm; eassumption | eapply Hk; eassumption].
  - injection H as _ <-. eapply Hm; eassumption.
Qed.

Lemma respects_try_except {A} (m : M A) (h : exn -> M A) :
  respects R m -> (forall e, respects R (h e)) -> respects R (try_except m h).
Proof.
  intros Hm Hh w r w' H. unfold try_except in H.
  destruct (m w) as [[a|e] w1] eqn:Hmw.
  - injection H as _ <-. eapply Hm; eassumption.
  - eapply R_trans; [eapply Hm; eassumption | eapply Hh; eassumption].
Qed.

Lemma respects_try_finally {A} (m : M A) (f : M unit) :
  respects R m -> respects R f -> respects R (try_finally m f).
Proof.
  intros Hm Hf w r w' H. unfold try_finally in H.
  destruct (m w) as [r1 w1] eqn:Hmw.
  destruct (f w1) as [[u|e] w2] eqn:Hfw; injection H as _ <-;
    (eapply R_trans; [eapply Hm; eassumption | eapply Hf; eassumption]).
Qed.

Lemma respects_for_each {C A} (body : C -> M (option A)) (cs : list C) :
  (forall c, respects R (body c)) -> respects R (for_each body cs).
Proof.
  intros Hb. induction cs as [|c cs IH]; simpl.
  - apply respects_ret.
  - apply respects_bind; [apply Hb|].
    intros [a|]; [apply respects_ret | exact IH].
Qed.

Lemma respects_if {A} (b : bool) (m1 m2 : M A) :
  respects R m1 -> respects R m2 -> respects R (if b then m1 else m2).
Proof. destruct b; auto. Qed.

End Frame.

Lemma only_calls_refl (keep : bool) (P : call -> Prop) (w : world) :
  only_calls keep P w w.
Proof. split; [reflexivity|]. exists []. rewrite app_nil_r. auto. Qed.

Lemma only_calls_trans (keep : bool) (P : call -> Prop) (w1 w2 w3 : world) :
  only_calls keep P w1 w2 -> only_calls keep P w2 w3 -> only_calls keep P w1 w3.
Proof.
  intros [Hf1 (l1 & Ht1 & HP1)] [Hf2 (l2 & Ht2 & HP2)]. split.
  - intros Hk. rewrite Hf2, Hf1 by assumption. reflexivity.
  - exists (l1 ++ l2)%list. rewrite Ht2, Ht1, app_assoc. split; [reflexivity|].
    apply Forall_app; auto.
Qed.

Lemma only_calls_log (keep : bool) (P : call -> Prop) (c : call) (w : world) :
  P c -> only_calls keep P w (log c w).
Proof. intros Hc. split; [reflexivity|]. exists [c]. auto. Qed.

Lemma only_calls_set_index (keep : bool) (P : call -> Prop) (i : nat) (w : world) :
  only_calls keep P w (set_index i w).
Proof. split; [reflexivity|]. exists []. simpl. rewrite app_nil_r. auto. Qed.

(** The frame rules at [only_calls keep P]. *)
Section OnlyCalls.
Variable keep : bool.
Variable P : call -> Prop.

Lemma emits_ret {A} (a : A) : emits keep P (ret a).
Proof. apply respects_ret, only_calls_refl. Qed.

Lemma emits_raise {A} (e : exn) : emits keep P (@raise A e).
Proof. apply respects_raise, only_calls_refl. Qed.

Lemma emits_lift {A} (x : Res A) : emits keep P (lift x).
Proof. apply respects_lift, only_calls_refl. Qed.

Lemma emits_get_world : emits keep P get_world.
Proof. apply respects_get_world, only_calls_refl. Qed.

Lemma emits_bind {A B} (m : M A) (k : A -> M B) :
  emits keep P m -> (forall a, emits keep P (k a)) -> emits keep P (bind m k).
Proof. apply respects_bind, only_calls_trans. Qed.

Lemma emits_try_except {A} (m : M A) (h : exn -> M A) :
  emits keep P m -> (forall e, emits keep P (h e)) -> emits keep P (try_except m h).
Proof. apply respects_try_except, only_calls_trans. Qed.

Lemma emits_try_finally {A} (m : M A) (f : M unit) :
  emits keep P m -> emits keep P f -> emits keep P (try_finally m f).
Proof. apply respects_try_finally, only_calls_trans. Qed.

Lemma emits_for_each {C A} (body : C -> M (option A)) (cs : list C) :
  (forall c, emits keep P (body c)) -> emits keep P (for_each body cs).
Proof.
  apply respects_for_each; [apply only_calls_refl | apply only_calls_trans].
Qed.

Lemma emits_if {A} (b : bool) (m1 m2 : M A) :
  emits keep P m1 -> emits keep P m2 -> emits keep P (if b then m1 else m2).
Proof. apply respects_if. Qed.

Lemma emits_log (c : call) : P c -> emits keep P (modify (log c)).
Proof. intros Hc. apply respects_modify. intros w. apply only_calls_log, Hc. Qed.

Lemma emits_external (E : env) (c : call) : P c -> emits keep P (external E c).
Proof.
  intros Hc w r w' H. unfold external in H.
  destruct (on_call E _ c); injection H as _ <-; apply only_calls_log, Hc.
Qed.

Lemma emits_modify_quiet (f : world -> world) :
  (forall w, keep = true -> fs (f w) = fs w) ->
  (forall w, trace (f w) = trace w) ->
  emits keep P (modify f).
Proof.
  intros Hfs Htr. apply respects_modify. intros w. split; [apply Hfs|].
  exists []. rewrite Htr, app_nil_r. auto.
Qed.

End OnlyCalls.

Create HintDb frame.
#[local] Hint Resolve emits_ret emits_raise emits_lift emits_get_world
  emits_log emits_external : frame.

(** One step through the structure of a computation. *)
Ltac frame_step :=
  first
    [ apply emits_bind; [| intros ? ]
    | apply emits_try_except; [| intros ? ]
    | apply emits_try_finally
    | apply emits_if
    | solve [ auto with frame ] ].

Lemma client_get_base_url : emits true client_call _get_base_url.
Proof.
  intros w r w' H. unfold _get_base_url in H.
  destruct (base_urls (api w) !! _); injection H as _ <-;
    apply only_calls_set_index.
Qed.

Lemma client_rotate_url : emits true client_call _rotate_url.
Proof.
  intros w r w' H. unfold _rotate_url in H.
  destruct (length (base_urls (api w))).
  - injection H as _ <-. apply only_calls_refl.
  - eapply only_calls_trans; [apply only_calls_set_index|].
    assert (Hr : emits true client_call (let* _ := _get_base_url in ret tt)).
    { apply emits_bind; [apply client_get_base_url | intros; apply emits_ret]. }
    eapply Hr. exact H.
Qed.

Lemma client_sleep (secs : Z) : emits true client_call (sleep secs).
Proof. apply emits_log. exact I. Qed.

Lemma client_session_request (E : env) (method url : string)
    (params : list (string * json)) :
  emits true client_call (session_request E method url params).
Proof.
  intros w r w' H. unfold session_request in H.
  destruct (on_request E _ _ _ _); injection H as _ <-;
    apply only_calls_log; exact I.
Qed.

#[local] Hint Resolve client_get_base_url client_rotate_url client_sleep
  client_session_request : frame.

Lemma client_attempt_body (E : env) (method endpoint : string)
    (params : list (string * json)) (attempt : nat) :
  emits true client_call (attempt_body E method endpoint params attempt).
Proof.
  unfold attempt_body. apply emits_try_except.
  - apply emits_bind; [auto with frame | intros base_url].
    apply emits_bind; [auto with frame | intros [status body]].
    repeat frame_step.
  - intros e. destruct e; repeat frame_step.
Qed.

Lemma client_make_request (E : env) (method endpoint : string)
    (params : list (string * json)) :
  emits true client_call (_make_request E method endpoint params).
Proof.
  unfold _make_request. apply emits_bind; [auto with frame | intros w].
  apply emits_bind; [| intros r; auto with frame].
  apply emits_for_each. intros c. apply client_attempt_body.
Qed.

(** ** The catalog resolver *)

Lemma try_candidates_total {C} (body : C -> M (option json)) (cs : list C)
    (w : world) :
  exists r w', try_candidates body cs w = (Ok r, w').
Proof.
  revert w. unfold try_candidates.
  induction cs as [|c cs IH]; intros w; simpl.
  - eauto.
  - unfold bind, try_except.
    destruct (body c w) as [[[v|]|e] w1]; simpl; eauto.
Qed.

Lemma try_candidates_exhausted {C} (body : C -> M (option json)) (cs : list C)
    (w : world) :
  exhausted body cs w = true ->
  exists w', try_candidates body cs w = (Ok None, w').
Proof.
  revert w. unfold try_candidates.
  induction cs as [|c cs IH]; intros w; simpl.
  - eauto.
  - unfold bind, try_except.
    destruct (body c w) as [[[v|]|e] w1]; simpl; [discriminate | auto | auto].
Qed.

Lemma resolve_soft_failure {C} (body : C -> M (option json)) (cs : list C)
    (unresolved : json) (w : world) :
  soft_failure (let* r := try_candidates body cs in
                ret (from_option id unresolved r))
               (exhausted body cs w) unresolved w.
Proof.
  split.
  - destruct (try_candidates_total body cs w) as (r & w' & H).
    rewrite (bind_ok _ _ _ _ _ H). unfold ret. eauto.
  - intros Hex. destruct (try_candidates_exhausted body cs w Hex) as (w' & H).
    rewrite (bind_ok _ _ _ _ _ H). reflexivity.
Qed.

(** C2. From any state of the handler and against any behaviour of the
    network, each operation of the resolver returns a value and raises
    nothing; when every candidate path is exhausted without usable data the
    value is the unresolved one: the empty list for [search_series] and
    [get_episodes], [None] for [get_series_details] and [get_stream_url]. *)
Theorem resolver_soft_failure (E : env) (w : world) :
  (forall query limit,
     soft_failure (search_series E query limit)
       (exhausted (search_candidate E) (search_endpoints query limit) w)
       (JList []) w) /\
  (forall series_id,
     soft_failure (get_series_details E series_id)
       (exhausted (details_candidate E) (details_endpoints series_id) w)
       JNull w) /\
  (forall series_id limit,
     soft_failure (get_episodes E series_id limit)
       (exhausted (episodes_candidate E limit) (episodes_endpoints series_id) w)
       (JList []) w) /\
  (forall episode_id quality,
     soft_failure (get_stream_url E episode_id quality)
       (exhausted (stream_candidate E quality) (stream_endpoints E episode_id) w)
       JNull w).
Proof.
  split; [|split; [|split]]; intros.
  - exact (resolve_soft_failure (search_candidate E) _ _ w).
  - exact (resolve_soft_failure (details_candidate E) _ _ w).
  - exact (resolve_soft_failure (episodes_candidate E limit) _ _ w).
  - exact (resolve_soft_failure (stream_candidate E quality) _ _ w).
Qed.

(** Two ways of exhausting every candidate: hosts that only answer 404,
    for [get_stream_url], and a handler without any host, where every
    request raises inside [_make_request], for [search_series]. *)
Lemma resolver_soft_failure_witness :
  fst (get_stream_url (fixed_env (HttpResponse 404 (Raise ValueError)) no_download)
                      (JStr "ep_1") "high" world0) = Ok JNull /\
  fst (search_series (fixed_env (HttpResponse 404 (Raise ValueError)) no_download)
                     "q" 10 (set_api (mkHandler [] 0 3 2) world0)) = Ok (JList []).
Proof.
  split.
  - exact (proj2 (proj2 (proj2 (proj2 (resolver_soft_failure
             (fixed_env (HttpResponse 404 (Raise ValueError)) no_download) world0)))
             (JStr "ep_1") "high") eq_refl).
  - exact (proj2 (proj1 (resolver_soft_failure
             (fixed_env (HttpResponse 404 (Raise ValueError)) no_download)
             (set_api (mkHandler [] 0 3 2) world0)) "q" 10) eq_refl).
Defined.

(** Without hosts [_make_request] itself raises; the resolver absorbs it. *)
Example make_request_raises_without_hosts :
  fst (_make_request (fixed_env (HttpResponse 404 (Raise ValueError)) no_download)
                     "GET" "/x" [] (set_api (mkHandler [] 0 3 2) world0))
  = Raise ZeroDivisionError.
Proof. reflexivity. Qed.

(** ** Response-shape extraction *)

(** [get_episodes] tries "episodes", "data", "items" in this order; a body
    that only has a non-empty "items" gives the items. *)
Lemma episodes_extract_third_rule (kv : list (string * json)) (v : json) (w : world) :
  truthy (from_option id (JList []) (dict_lookup kv "episodes")) = false ->
  truthy (from_option id (JList []) (dict_lookup kv "data")) = false ->
  dict_lookup kv "items" = Some v ->
  episodes_extract (JDict kv) w = (Ok v, w).
Proof.
  intros H1 H2 H3. unfold episodes_extract, bind, lift, py_or, py_get.
  rewrite H1. rewrite H2. rewrite H3. reflexivity.
Qed.

(** [search_series] tries "results", "data"."series", "data", "series". When
    "data" holds a list, the second rule calls [.get] on the list and raises
    before the third rule is reached. *)
Lemma search_extract_data_list (kv : list (string * json)) (x : json)
    (l : list json) (w : world) :
  truthy (from_option id (JList []) (dict_lookup kv "results")) = false ->
  dict_lookup kv "data" = Some (JList (x :: l)) ->
  search_extract (JDict kv) w = (Raise AttributeError, w).
Proof.
  intros H1 H2. unfold search_extract, bind, lift, py_or, py_get.
  rewrite H1. rewrite H2. reflexivity.
Qed.

(** The third rule of [search_series] is reached only when "data" holds a
    dict; it then gives the dict. *)
Lemma search_extract_data_dict (kv d : list (string * json)) (w : world) :
  truthy (from_option id (JList []) (dict_lookup kv "results")) = false ->
  dict_lookup kv "data" = Some (JDict d) ->
  truthy (from_option id (JList []) (dict_lookup d "series")) = false ->
  d <> [] ->
  search_extract (JDict kv) w = (Ok (JDict d), w).
Proof.
  intros H1 H2 H3 Hd. unfold search_extract, bind, lift, py_or, py_get.
  rewrite H1. rewrite H2. simpl. rewrite H3.
  destruct d; [congruence | reflexivity].
Qed.

(** C9, on [search_series]: every host answers 200 with the payload
    [{"data": [{"id": "s1"}]}], which only the third rule ("data") matches.
    Each candidate raises in the second rule, and the search returns the
    empty list instead of the list under "data". The same payload served
    to [get_episodes], whose rules do not chain [.get], is extracted. *)
Theorem search_series_loses_third_rule :
  let E := fixed_env (HttpResponse 200 (Ok data_only)) no_download in
  fst (search_series E "q" 10 world0) = Ok (JList []) /\
  fst (search_extract data_only world0) = Raise AttributeError /\
  fst (get_episodes E "s1" 100 world0) = Ok (JList [JDict [("id", JStr "s1")]]).
Proof. repeat split. Qed.

(** ** The transfer engine and its progress callback *)

Lemma write_chunks_no_total (E : env) (filepath : string) (cb : callback)
    (total_size : Z) (chunks : list (Q * list Byte.byte)) (downloaded : Z) (w : world) :
  total_size <= 0 ->
  write_chunks E filepath (Some cb) total_size chunks downloaded w
  = write_chunks E filepath None total_size chunks downloaded w.
Proof.
  intros Hle. revert downloaded w.
  induction chunks as [|[t chunk] rest IH]; intros downloaded w; [reflexivity|].
  simpl. destruct (Z.gtb_spec total_size 0); [lia|].
  unfold bind.
  destruct (modify (set_loop_time t) w) as [[[]|e] w1]; [|reflexivity].
  destruct (file_write E filepath chunk w1) as [[[]|e] w2]; [|reflexivity].
  simpl. apply IH.
Qed.

Lemma emits_session_get (keep : bool) (E : env) (url : json) :
  emits keep not_progress (session_get E url).
Proof.
  intros w r w' H. unfold session_get in H.
  destruct (on_get E _ _); injection H as _ <-; apply only_calls_log; exact I.
Qed.

Lemma emits_file_open (E : env) (filepath : string) :
  emits false not_progress (file_open E filepath).
Proof.
  unfold file_open. apply emits_bind; [apply emits_external; exact I | intros _].
  apply emits_modify_quiet; [discriminate | reflexivity].
Qed.

Lemma emits_file_write (E : env) (filepath : string) (chunk : list Byte.byte) :
  emits false not_progress (file_write E filepath chunk).
Proof.
  unfold file_write. apply emits_bind; [apply emits_external; exact I | intros _].
  apply emits_modify_quiet; [discriminate | reflexivity].
Qed.

Lemma emits_write_chunks_no_callback (E : env) (filepath : string) (total_size : Z)
    (chunks : list (Q * list Byte.byte)) (downloaded : Z) :
  emits false not_progress
        (write_chunks E filepath None total_size chunks downloaded).
Proof.
  revert downloaded. induction chunks as [|[t chunk] rest IH]; intros downloaded; simpl.
  - apply emits_ret.
  - apply emits_bind; [apply emits_modify_quiet; [discriminate | reflexivity] | intros _].
    apply emits_bind; [apply emits_file_write | intros _].
    apply emits_bind; [apply emits_ret | intros _]. apply IH.
Qed.

Lemma emits_download_no_callback (E : env) (url : json) (filepath : string) :
  emits false not_progress (download_file E url filepath None).
Proof.
  unfold download_file. apply emits_try_except; [| intros e; apply emits_ret].
  apply emits_bind; [apply emits_session_get | intros response].
  apply emits_if; [| apply emits_ret].
  apply emits_bind; [apply emits_lift | intros total_size].
  apply emits_bind; [apply emits_file_open | intros _].
  apply emits_bind; [apply emits_write_chunks_no_callback | intros _].
  destruct (dl_stream_error response); [apply emits_raise | apply emits_ret].
Qed.

(** C5 as stated fails: the download below succeeds, two chunks are
    written, and the progress callback is never invoked. *)
Lemma progress_not_invoked_without_total :
  let E := fixed_env (HttpRaise TimeoutError) (GetResponse unsized) in
  let r := download_file E (JStr "http://cdn/a.mp3") "downloads/a.mp3"
                         (Some (download_progress E (JStr "Test"))) world0 in
  fst r = Ok true /\
  trace (snd r) = [ HttpGet (JStr "http://cdn/a.mp3");
                    FileOpen "downloads/a.mp3";
                    FileWrite "downloads/a.mp3" [Byte.x01; Byte.x02];
                    FileWrite "downloads/a.mp3" [Byte.x03] ] /\
  ~ (exists p d, In (Progress p d 0) (trace (snd r))).
Proof.
  repeat split.
  intros (p & d & Hin). simpl in Hin.
  repeat (destruct Hin as [Hin|Hin]; [discriminate|]). exact Hin.
Qed.

(** C5, amended. Whenever the total size is not positive (no content-length
    header, or one that reads as 0 or less), [download_file] behaves exactly
    as if no callback had been given: the callback is never invoked, and no
    call added to the trace is a progress call. *)
Theorem no_progress_without_total (E : env) (url : json) (filepath : string)
    (cb : callback) (w : world) (r : get_response) (total_size : Z) :
  on_get E (length (trace w)) url = GetResponse r ->
  content_length (dl_content_length r) = Ok total_size ->
  total_size <= 0 ->
  download_file E url filepath (Some cb) w = download_file E url filepath None w /\
  forall res w', download_file E url filepath (Some cb) w = (res, w') ->
                 exists l, trace w' = (trace w ++ l)%list /\ Forall not_progress l.
Proof.
  intros Hget Hlen Hle.
  assert (Heq : download_file E url filepath (Some cb) w
                = download_file E url filepath None w).
  { unfold download_file, try_except, bind, session_get. rewrite Hget.
    destruct ((dl_status r =? 200) || (dl_status r =? 206)); [|reflexivity].
    unfold lift. rewrite Hlen.
    destruct (file_open E filepath _) as [[[]|e] w1]; [|reflexivity].
    rewrite write_chunks_no_total by assumption. reflexivity. }
  split; [exact Heq|].
  intros res w' Hrun. rewrite Heq in Hrun.
  exact (proj2 (emits_download_no_callback E url filepath w res w' Hrun)).
Qed.

Lemma no_progress_without_total_witness :
  let E := fixed_env (HttpRaise TimeoutError) (GetResponse unsized) in
  download_file E (JStr "http://cdn/a.mp3") "downloads/a.mp3"
                (Some (download_progress E (JStr "Test"))) world0
  = download_file E (JStr "http://cdn/a.mp3") "downloads/a.mp3" None world0.
Proof.
  intros E.
  refine (proj1 (no_progress_without_total E (JStr "http://cdn/a.mp3")
                   "downloads/a.mp3" (download_progress E (JStr "Test")) world0
                   unsized 0 eq_refl eq_refl _)).
  lia.
Defined.

(** ** The dispatcher: [_process_item] *)

Lemma external_inv (E : env) (c : call) (w w' : world) (r : Res unit) :
  external E c w = (r, w') -> w' = log c w.
Proof.
  unfold external. destruct (on_call E _ c); intros H; injection H as _ <-; reflexivity.
Qed.

Lemma client_py_or (a : json) (b : M json) :
  emits true client_call b -> emits true client_call (py_or a b).
Proof. intros Hb. unfold py_or. apply emits_if; [apply emits_ret | exact Hb]. Qed.

Lemma client_try_candidates {C} (body : C -> M (option json)) (cs : list C) :
  (forall c, emits true client_call (body c)) ->
  emits true client_call (try_candidates body cs).
Proof.
  intros Hb. apply emits_for_each. intros c.
  apply emits_try_except; [apply Hb | intros e; apply emits_ret].
Qed.

Lemma client_get_stream_url (E : env) (episode_id : json) (quality : string) :
  emits true client_call (get_stream_url E episode_id quality).
Proof.
  unfold get_stream_url.
  apply emits_bind; [| intros r; apply emits_ret].
  apply client_try_candidates. intros endpoint. unfold stream_candidate.
  apply emits_bind; [apply client_make_request | intros response].
  apply emits_if; [| apply emits_ret].
  apply emits_bind; [| intros url; apply emits_if; apply emits_ret].
  unfold stream_extract.
  apply emits_bind; [apply emits_lift | intros r1].
  apply client_py_or, emits_lift.
Qed.

(** C3. An item whose episode is a dict and whose first status message was
    sent: when [get_stream_url] comes back empty, [_process_item] edits the
    status message to "Failed: Could not get stream URL" and returns. If
    that edit raises, the outer handler tries one more edit with the error.
    Nothing else happens: no call of the transfer engine is made for the
    item and the file system is as before. *)
Theorem unresolved_stream_url_no_download (E : env) (item : work_item)
    (w w1 w2 : world) (episode_id episode_title url : json) :
  py_get (episode item) "id" (JStr "unknown") = Ok episode_id ->
  py_get (episode item) "title" (JStr "Unknown Episode") = Ok episode_title ->
  external E (SendMessage (user_id item) (TxtGettingUrl episode_title)) w = (Ok tt, w1) ->
  get_stream_url E episode_id "high" w1 = (Ok url, w2) ->
  truthy url = false ->
  exists w' rest,
    _process_item E item w = (Ok tt, w') /\
    trace w' = (trace w2 ++ EditText (TxtNoStreamUrl episode_title) :: rest)%list /\
    (rest = [] \/ exists e, rest = [EditText (TxtError e)]) /\
    fs w' = fs w /\
    exists l, trace w' = (trace w ++ l)%list /\ Forall (fun c => ~ download_call c) l.
Proof.
  intros Hid Htitle Hsend Hurl Hfalsy.
  pose proof (external_inv _ _ _ _ _ Hsend) as Hw1.
  destruct (client_get_stream_url E episode_id "high" w1 _ _ Hurl)
    as [Hfs2 (l2 & Ht2 & Hl2)].
  set (c := EditText (TxtNoStreamUrl episode_title)).
  assert (Hsteps : process_steps E (user_id item) (episode item) episode_id
                     episode_title w1 = external E c w2).
  { unfold process_steps. rewrite (bind_ok _ _ _ _ _ Hurl), Hfalsy. reflexivity. }
  assert (Hclient : forall x, client_call x -> ~ download_call x)
    by (intros []; simpl; tauto).
  assert (Hpre : forall rest, Forall (fun x => ~ download_call x) rest ->
            Forall (fun x => ~ download_call x)
                   (SendMessage (user_id item) (TxtGettingUrl episode_title)
                      :: l2 ++ c :: rest)%list).
  { intros rest Hrest. constructor; [simpl; tauto|].
    apply Forall_app. split.
    - eapply Forall_impl; [exact Hl2 | exact Hclient].
    - constructor; [simpl; tauto | exact Hrest]. }
  assert (Hrun : _process_item E item w =
                 try_except (process_steps E (user_id item) (episode item)
                                           episode_id episode_title)
                   (fun e => try_except (external E (EditText (TxtError e)))
                                        (fun _ => ret tt)) w1).
  { unfold _process_item. unfold bind at 1, lift. rewrite Hid.
    unfold bind at 1. rewrite Htitle.
    unfold bind at 1, try_except at 1. rewrite (bind_ok _ _ _ _ _ Hsend).
    reflexivity. }
  rewrite Hrun. unfold try_except at 1. rewrite Hsteps.
  destruct (external E c w2) as [[[]|e] w3] eqn:Hedit;
    pose proof (external_inv _ _ _ _ _ Hedit) as Hw3.
  - exists w3, []. split; [reflexivity|]. subst w3. simpl.
    split; [reflexivity|]. split; [left; reflexivity|].
    split; [rewrite Hfs2, Hw1; reflexivity|].
    eexists. split; [|apply (Hpre []); constructor].
    rewrite Ht2, Hw1. simpl. rewrite <- !app_assoc. reflexivity.
  - unfold try_except.
    destruct (external E (EditText (TxtError e)) w3) as [[[]|e'] w4] eqn:Herr;
      pose proof (external_inv _ _ _ _ _ Herr) as Hw4;
      (exists w4, [EditText (TxtError e)]; split; [reflexivity|];
       subst w4 w3; simpl;
       split; [rewrite <- app_assoc; reflexivity|];
       split; [right; eexists; reflexivity|];
       split; [rewrite Hfs2, Hw1; reflexivity|];
       eexists; split;
       [| apply (Hpre [EditText (TxtError e)]); constructor; [simpl; tauto | constructor]];
       rewrite Ht2, Hw1; simpl; rewrite <- !app_assoc; reflexivity).
Qed.

Lemma unresolved_stream_url_no_download_witness :
  let E := fixed_env (HttpResponse 404 (Raise ValueError)) no_download in
  let w1 := log (SendMessage 7 (TxtGettingUrl (JStr "Test"))) world0 in
  let w2 := snd (get_stream_url E (JStr "ep_1") "high" w1) in
  exists w' rest,
    _process_item E item_1 world0 = (Ok tt, w') /\
    trace w' = (trace w2 ++ EditText (TxtNoStreamUrl (JStr "Test")) :: rest)%list /\
    (rest = [] \/ exists e, rest = [EditText (TxtError e)]) /\
    fs w' = fs world0 /\
    exists l, trace w' = (trace world0 ++ l)%list /\
              Forall (fun c => ~ download_call c) l.
Proof.
  intros E w1 w2.
  apply (unresolved_stream_url_no_download E item_1 world0 w1 w2
           (JStr "ep_1") (JStr "Test") JNull); vm_compute; reflexivity.
Defined.

(** The same run, evaluated: one message, twelve requests (four paths, three
    attempts each, rotating on every 404), one edit. *)
Example unresolved_item_trace :
  let E := fixed_env (HttpResponse 404 (Raise ValueError)) no_download in
  let r := _process_item E item_1 world0 in
  fst r = Ok tt /\
  length (trace (snd r)) = 14%nat /\
  last (trace (snd r)) = Some (EditText (TxtNoStreamUrl (JStr "Test"))) /\
  fs (snd r) = ∅.
Proof. vm_compute. repeat split. Qed.

(** ** Upload failure and cleanup *)

Lemma cleanup_removes (E : env) (filepath : string) (w w' : world) (r : Res unit) :
  (forall n, on_call E n (Remove filepath) = None) ->
  cleanup E filepath w = (r, w') ->
  r = Ok tt /\ fs w' !! filepath = None.
Proof.
  intros Hrm. unfold cleanup, os_path_exists, bind, get_world, ret.
  destruct (fs w !! filepath) as [data|] eqn:Hfile.
  - unfold try_except, os_remove, bind, external, modify. rewrite Hrm.
    intros H. injection H as <- <-. split; [reflexivity|].
    simpl. apply lookup_delete_eq.
  - intros H. injection H as <- <-. auto.
Qed.

(** Once the "Uploading" edit went through, the [finally] block runs
    whatever [send_audio] did: unless [os.remove] itself fails, no file is
    left at [filepath], also when the upload failed and the requester was
    told "File saved locally". *)
Lemma upload_step_removes_artifact (E : env) (user : Z) (ep episode_title : json)
    (filepath : string) (w w1 w' : world) (r : Res unit) :
  (forall n, on_call E n (Remove filepath) = None) ->
  external E (EditText (TxtUploading episode_title)) w = (Ok tt, w1) ->
  upload_step E user ep episode_title filepath w = (r, w') ->
  fs w' !! filepath = None.
Proof.
  intros Hrm Hedit. unfold upload_step. rewrite (bind_ok _ _ _ _ _ Hedit).
  unfold try_finally.
  destruct (try_except _ _ w1) as [r1 w2].
  destruct (cleanup E filepath w2) as [r2 w3] eqn:Hclean.
  destruct (cleanup_removes E filepath w2 w3 r2 Hrm Hclean) as [-> Hnone].
  intros H. injection H as _ <-. exact Hnone.
Qed.

(** C1, evaluated: the download succeeds and writes the three bytes to
    downloads/ep_1.mp3, the upload raises, the requester is told that the
    upload failed and that the file is saved locally at that path, and the
    [finally] block then removes that very file. *)
Theorem upload_failure_deletes_artifact :
  let E := upload_fails_env in
  let r := _process_item E item_1 world0 in
  fst r = Ok tt /\
  trace (snd r) =
    [ SendMessage 7 (TxtGettingUrl (JStr "Test"));
      HttpRequest "GET" "https://api.pocketfm.in/api/v1/episodes/ep_1/stream"
                  [("quality", JStr "high")];
      Mkdir "downloads";
      HttpGet (JStr "http://cdn/ep_1.mp3");
      FileOpen "downloads/ep_1.mp3";
      FileWrite "downloads/ep_1.mp3" [Byte.x01; Byte.x02; Byte.x03];
      Progress (percent_of 3 3) 3 3;
      EditText (TxtProgress (JStr "Test") (percent_of 3 3) 3);
      EditText (TxtUploading (JStr "Test"));
      SendAudio 7 "downloads/ep_1.mp3" (JStr "Test") (JNum 0);
      EditText (TxtUploadFailed "downloads/ep_1.mp3");
      Remove "downloads/ep_1.mp3" ] /\
  fs (snd r) !! "downloads/ep_1.mp3" = None.
Proof. vm_compute. repeat split. Qed.

(** ** The dispatcher loop *)

Lemma process_item_dict (E : env) (item : work_item) (kv : list (string * json))
    (w : world) :
  episode item = JDict kv ->
  exists w', _process_item E item w = (Ok tt, w').
Proof.
  intros Hep. unfold _process_item. rewrite Hep. unfold py_get, lift, bind at 1.
  unfold bind at 1. unfold bind at 1, try_except at 1.
  destruct (bind (external E _) _ w) as [[[|]|e] w1]; unfold ret.
  - unfold try_except.
    destruct (process_steps E _ _ _ _ w1) as [[[]|e] w2]; [eauto|].
    destruct (external E _ w2) as [[[]|e'] w3]; eauto.
  - eauto.
  - eauto.
Qed.

Lemma select_app (p : call -> bool) (l1 l2 : list call) :
  select p (l1 ++ l2) = (select p l1 ++ select p l2)%list.
Proof.
  induction l1 as [|c l1 IH]; simpl; [reflexivity|].
  destruct (p c); simpl; rewrite IH; reflexivity.
Qed.

Lemma select_unannounced (l : list call) :
  Forall unannounced l -> select is_announcement l = [].
Proof.
  intros Hall. induction Hall as [|c l Hc _ IH]; simpl; [reflexivity|].
  rewrite Hc. exact IH.
Qed.

Lemma emits_weaken {A} (keep : bool) (P Q : call -> Prop) (m : M A) :
  (forall c, P c -> Q c) -> emits keep P m -> emits false Q m.
Proof.
  intros HPQ Hm w r w' Hrun. destruct (Hm _ _ _ Hrun) as [_ [l [Hl Hall]]].
  split; [discriminate|]. exists l. split; [exact Hl|].
  eapply Forall_impl; [exact Hall | exact HPQ].
Qed.

(** The calls of the steps of an item, once its first status message is
    sent: none of them is a first status message, and those on a file name
    the destination. [P] is any property such calls have. *)
Section ItemCalls.
Variable E : env.
Variable path : string.
Variable P : call -> Prop.
Hypothesis P_holds : forall c, unannounced c -> file_call_on path c -> P c.

Let calls {A} (m : M A) : Prop := emits false P m.

Lemma calls_external (c : call) :
  unannounced c -> file_call_on path c -> calls (external E c).
Proof. intros Hu Hf. apply emits_external, P_holds; assumption. Qed.

Lemma calls_set_fs (f : world -> gmap string (list Byte.byte)) :
  calls (modify (fun w => set_fs (f w) w)).
Proof. apply emits_modify_quiet; [discriminate | reflexivity]. Qed.

Lemma calls_file_open : calls (file_open E path).
Proof.
  unfold file_open.
  apply emits_bind; [apply calls_external; reflexivity | intros _].
  apply (calls_set_fs (fun w => <[path := []]> (fs w))).
Qed.

Lemma calls_file_write (chunk : list Byte.byte) : calls (file_write E path chunk).
Proof.
  unfold file_write.
  apply emits_bind; [apply calls_external; reflexivity | intros _].
  apply (calls_set_fs (fun w => <[path := _]> (fs w))).
Qed.

Lemma calls_download_progress (title : json) (p : Q) (d total : Z) :
  calls (download_progress E title p d total).
Proof.
  unfold download_progress. apply emits_bind; [apply emits_get_world | intros w].
  destruct (Qgtb _ _); [| apply emits_ret].
  apply emits_bind; [| intros _].
  - apply emits_try_except; [apply calls_external; reflexivity | intros _; apply emits_ret].
  - apply emits_modify_quiet; [discriminate | reflexivity].
Qed.

Lemma calls_write_chunks (cb : option callback) (total_size : Z)
    (chunks : list (Q * list Byte.byte)) (downloaded : Z) :
  (forall f, cb = Some f -> forall p d t, calls (f p d t)) ->
  calls (write_chunks E path cb total_size chunks downloaded).
Proof.
  intros Hcb. revert downloaded.
  induction chunks as [|[t chunk] rest IH]; intros downloaded; cbn [write_chunks].
  - apply emits_ret.
  - apply emits_bind; [apply emits_modify_quiet; [discriminate | reflexivity] | intros _].
    apply emits_bind; [apply calls_file_write | intros _].
    apply emits_bind; [| intros _; apply IH].
    destruct cb as [f|]; [| apply emits_ret].
    destruct (total_size >? 0); [| apply emits_ret].
    apply emits_bind; [apply emits_log, P_holds; reflexivity | intros _].
    apply (Hcb f eq_refl).
Qed.

Lemma calls_download_file (url : json) (cb : option callback) :
  (forall f, cb = Some f -> forall p d t, calls (f p d t)) ->
  calls (download_file E url path cb).
Proof.
  intros Hcb. unfold download_file.
  apply emits_try_except; [| intros e; apply emits_ret].
  apply emits_bind; [| intros response].
  { intros w r w' H. unfold session_get in H.
    destruct (on_get E _ _); injection H as _ <-;
      apply only_calls_log, P_holds; reflexivity. }
  destruct ((dl_status response =? 200) || (dl_status response =? 206));
    [| apply emits_ret].
  apply emits_bind; [apply emits_lift | intros total_size].
  apply emits_bind; [apply calls_file_open | intros _].
  apply emits_bind; [apply calls_write_chunks, Hcb | intros _].
  destruct (dl_stream_error response); [apply emits_raise | apply emits_ret].
Qed.

Lemma calls_upload_step (user : Z) (ep title : json) :
  calls (upload_step E user ep title path).
Proof.
  unfold upload_step. apply emits_bind; [apply calls_external; reflexivity | intros _].
  apply emits_try_finally.
  - apply emits_try_except; [| intros e; apply calls_external; reflexivity].
    apply emits_bind; [apply emits_lift | intros duration].
    apply emits_bind; [apply calls_external; reflexivity | intros _].
    apply emits_bind; [apply calls_external; reflexivity | intros _].
    apply calls_external; reflexivity.
  - unfold cleanup. apply emits_bind; [| intros present].
    { unfold os_path_exists. apply emits_bind; [apply emits_get_world | intros w].
      apply emits_ret. }
    destruct present; [| apply emits_ret].
    apply emits_try_except; [| intros e; apply emits_ret].
    unfold os_remove. apply emits_bind; [apply calls_external; reflexivity | intros _].
    apply (calls_set_fs (fun w => delete path (fs w))).
Qed.

Lemma calls_process_steps (user : Z) (ep episode_id title : json) :
  path = item_path E episode_id ->
  calls (process_steps E user ep episode_id title).
Proof.
  intros Hpath. unfold process_steps. fold (item_path E episode_id). rewrite <- Hpath.
  apply emits_bind; [| intros stream_url].
  { apply (emits_weaken true client_call); [| apply client_get_stream_url].
    intros [] Hc; try (apply P_holds; reflexivity); destruct Hc. }
  destruct (negb (truthy stream_url)); [apply calls_external; reflexivity|].
  apply emits_bind; [apply calls_external; reflexivity | intros _].
  apply emits_bind; [apply emits_modify_quiet; [discriminate | reflexivity] | intros _].
  apply emits_bind; [| intros success].
  { apply calls_download_file. intros f Hf. injection Hf as <-.
    apply calls_download_progress. }
  destruct (negb success); [apply calls_external; reflexivity | apply calls_upload_step].
Qed.

(** What follows the first status message in [_process_item]. *)
Lemma calls_after_announcement (user : Z) (ep episode_id title : json) :
  path = item_path E episode_id ->
  calls (try_except (process_steps E user ep episode_id title)
                    (fun e => try_except (external E (EditText (TxtError e)))
                                         (fun _ => ret tt))).
Proof.
  intros Hpath.
  apply emits_try_except; [apply calls_process_steps, Hpath | intros e].
  apply emits_try_except; [apply calls_external; reflexivity | intros _; apply emits_ret].
Qed.

End ItemCalls.

(** A run of [_process_item], split at the first status message: an item
    whose episode is no dict makes no call; otherwise the message is the
    first call, and the others are those of [calls_after_announcement]. *)
Lemma process_item_calls (E : env) (P : call -> Prop) (item : work_item)
    (w w' : world) (r : Res unit) :
  (forall episode_id,
     py_get (episode item) "id" (JStr "unknown") = Ok episode_id ->
     forall c, unannounced c -> file_call_on (item_path E episode_id) c -> P c) ->
  _process_item E item w = (r, w') ->
  exists l, trace w' = (trace w ++ announcement item ++ l)%list /\ Forall P l.
Proof.
  intros HP. unfold _process_item, announcement.
  destruct (episode item) as [| | | | |kv] eqn:Hep;
    try (unfold bind, lift; simpl; intros H; injection H as _ <-;
         exists []; rewrite app_nil_r; split; [reflexivity | constructor]).
  unfold bind at 1, lift. cbn [py_get]. unfold bind at 1.
  set (episode_id := from_option id (JStr "unknown") (dict_lookup kv "id")) in *.
  set (title := from_option id (JStr "Unknown Episode") (dict_lookup kv "title")).
  unfold bind at 1, try_except at 1, bind at 1.
  destruct (external E (SendMessage (user_id item) (TxtGettingUrl title)) w)
    as [[[]|e] w1] eqn:Hsend; apply external_inv in Hsend; subst w1; unfold ret.
  - intros Hrun.
    destruct (calls_after_announcement E (item_path E episode_id) P
                (HP episode_id eq_refl) (user_id item) (JDict kv) episode_id title
                eq_refl _ _ _ Hrun) as [_ [l [Hl Hall]]].
    exists l. split; [rewrite Hl; simpl; rewrite <- app_assoc; reflexivity | exact Hall].
  - intros H. injection H as _ <-. exists []. split; [reflexivity | constructor].
Qed.

Lemma announcement_selected (item : work_item) :
  select is_announcement (announcement item) = announcement item.
Proof.
  unfold announcement. destruct (py_get _ _ _); reflexivity.
Qed.

Lemma process_item_announces (E : env) (item : work_item) (w w' : world) (r : Res unit) :
  _process_item E item w = (r, w') ->
  exists l, trace w' = (trace w ++ l)%list /\
            select is_announcement l = announcement item.
Proof.
  intros Hrun.
  destruct (process_item_calls E unannounced item w w' r
              (fun _ _ c Hc _ => Hc) Hrun) as [l [Hl Hall]].
  exists (announcement item ++ l)%list. split; [exact Hl|].
  rewrite select_app, announcement_selected, (select_unannounced _ Hall).
  apply app_nil_r.
Qed.

Lemma turn_announces (E : env) (item : work_item) (w : world) :
  exists w' l, process_queue_turn E (QItem item) w = (Ok tt, w') /\
               trace w' = (trace w ++ l)%list /\
               select is_announcement l = announcement item.
Proof.
  unfold process_queue_turn, try_except.
  assert (Heq : bind (queue_get (QItem item)) (fun i => _process_item E i) w
                = _process_item E item w) by reflexivity.
  rewrite Heq. clear Heq.
  destruct (_process_item E item w) as [r w1] eqn:Hrun.
  destruct (process_item_announces _ _ _ _ _ Hrun) as [l [Hl Hsel]].
  destruct r as [[]|e]; [exists w1, l; simpl; auto|].
  destruct e; unfold sleep, modify, ret;
    try (eexists; exists (l ++ [Sleep 5])%list;
         split; [reflexivity|]; simpl; rewrite Hl, <- app_assoc;
         split; [reflexivity|]; rewrite select_app, Hsel; simpl; apply app_nil_r).
  exists w1, l; simpl; auto.
Qed.

(** A turn on any outcome of the queue. *)
Lemma turn_announced (E : env) (q : queue_event) (w : world) :
  exists w' l, process_queue_turn E q w = (Ok tt, w') /\
               trace w' = (trace w ++ l)%list /\
               select is_announcement l = announced q.
Proof.
  destruct q as [item| |e].
  - apply turn_announces.
  - exists w, []. rewrite app_nil_r. repeat split.
  - destruct e;
      [exists w, []; rewrite app_nil_r; repeat split
      |exists (log (Sleep 5) w), [Sleep 5]; repeat split ..].
Qed.

Lemma process_queue_announces (E : env) (qs : list queue_event) (w : world) :
  exists w' l, process_queue E qs w = (Ok tt, w') /\
               trace w' = (trace w ++ l)%list /\
               select is_announcement l = flat_map announced qs.
Proof.
  revert w. induction qs as [|q qs IH]; intros w.
  - exists w, []. rewrite app_nil_r. repeat split.
  - destruct (turn_announced E q w) as [w1 [l1 [H1 [Htr1 Hsel1]]]].
    destruct (IH w1) as [w2 [l2 [H2 [Htr2 Hsel2]]]].
    exists w2, (l1 ++ l2)%list. cbn [process_queue].
    rewrite (bind_ok _ _ _ _ _ H1). split; [exact H2|]. split.
    + rewrite Htr2, Htr1, <- app_assoc. reflexivity.
    + simpl. rewrite select_app, Hsel1, Hsel2. reflexivity.
Qed.

(** C7. The dispatcher loop never ends by an exception and goes on with
    the next item: run over the outcomes the queue gives in its first
    turns, whatever they are, [process_queue] completes every turn, and the
    first status messages it sends are exactly those of the items that are
    dicts, one each, in the order of the queue, whatever failed before
    them. A failure while processing an
    item whose episode is a dict never leaves [_process_item]; an exception
    raised by a step after the first status message is reported by an edit
    of that message. An exception of the queue other than the wait timeout
    makes the turn sleep 5 seconds before the loop goes on, and so does an
    item whose episode is not a dict. *)
Theorem dispatcher_loop_survives (E : env) :
  (forall qs w, exists w',
     process_queue E qs w = (Ok tt, w') /\
     select is_announcement (new_calls w w') = flat_map announced qs) /\
  (forall item kv w, episode item = JDict kv ->
     exists w', _process_item E item w = (Ok tt, w') /\
                process_queue_turn E (QItem item) w = (Ok tt, w')) /\
  (forall item w w1 w2 episode_id episode_title e,
     py_get (episode item) "id" (JStr "unknown") = Ok episode_id ->
     py_get (episode item) "title" (JStr "Unknown Episode") = Ok episode_title ->
     external E (SendMessage (user_id item) (TxtGettingUrl episode_title)) w
       = (Ok tt, w1) ->
     process_steps E (user_id item) (episode item) episode_id episode_title w1
       = (Raise e, w2) ->
     _process_item E item w = (Ok tt, log (EditText (TxtError e)) w2)) /\
  (forall e w, e <> TimeoutError ->
     process_queue_turn E (QError e) w = (Ok tt, log (Sleep 5) w)) /\
  (forall item w, (forall kv, episode item <> JDict kv) ->
     process_queue_turn E (QItem item) w = (Ok tt, log (Sleep 5) w)).
Proof.
  split.
  { intros qs w.
    destruct (process_queue_announces E qs w) as [w' [l [Hrun [Htr Hsel]]]].
    exists w'. split; [exact Hrun|].
    unfold new_calls. rewrite Htr, drop_app_length. exact Hsel. }
  split.
  { intros item kv w Hep.
    destruct (process_item_dict E item kv w Hep) as [w' Hrun].
    exists w'. split; [exact Hrun|].
    unfold process_queue_turn, try_except. simpl.
    unfold bind at 1, ret at 1. rewrite Hrun. reflexivity. }
  split.
  { intros item w w1 w2 episode_id episode_title e Hid Htitle Hsend Hsteps.
    unfold _process_item. unfold bind at 1, lift. rewrite Hid.
    unfold bind at 1. rewrite Htitle.
    unfold bind at 1, try_except at 1. rewrite (bind_ok _ _ _ _ _ Hsend).
    unfold ret at 1. unfold try_except at 1. rewrite Hsteps.
    unfold try_except.
    destruct (external E (EditText (TxtError e)) w2) as [[[]|e'] w3] eqn:Herr;
      rewrite (external_inv _ _ _ _ _ Herr); reflexivity. }
  split.
  { intros e w He. unfold process_queue_turn, try_except. simpl.
    destruct e; try congruence; reflexivity. }
  intros item w Hnd. unfold process_queue_turn, try_except. simpl.
  unfold bind at 1, ret at 1. unfold _process_item.
  destruct (episode item) as [| | | | |kv] eqn:Hep; try reflexivity.
  exfalso. exact (Hnd kv eq_refl).
Qed.

Lemma dispatcher_loop_survives_witness :
  let E := fixed_env (HttpResponse 404 (Raise ValueError)) no_download in
  process_queue_turn E (QError (OtherError "queue broken")) world0
    = (Ok tt, log (Sleep 5) world0) /\
  exists w', process_queue E [QError (OtherError "queue broken"); QTimeout;
                              QItem (add_to_queue 7 JNull); QItem item_1] world0
             = (Ok tt, w') /\
             select is_announcement (new_calls world0 w')
             = [SendMessage 7 (TxtGettingUrl (JStr "Test"))].
Proof.
  intros E. split.
  - apply (proj1 (proj2 (proj2 (proj2 (dispatcher_loop_survives E))))).
    discriminate.
  - exact (proj1 (dispatcher_loop_survives E)
                 [QError (OtherError "queue broken"); QTimeout;
                  QItem (add_to_queue 7 JNull); QItem item_1] world0).
Defined.

(** ** Throttling of the progress display *)

Lemma Qgtb_spec (x y : Q) : Qgtb x y = true <-> (y < x)%Q.
Proof.
  unfold Qgtb. rewrite negb_true_iff. split.
  - intros H. apply Qnot_le_lt. intros Hle. apply Qle_bool_iff in Hle. congruence.
  - intros H. destruct (Qle_bool x y) eqn:Hb; [|reflexivity].
    apply Qle_bool_iff in Hb. exfalso. eapply Qlt_not_le; eassumption.
Qed.

(** The callback never raises; it edits the status message and records the
    time exactly when more than 2 seconds passed since the recorded time. *)
Lemma download_progress_run (E : env) (title : json) (p : Q) (d total : Z) (w : world) :
  download_progress E title p d total w =
  (Ok tt,
   if Qgtb (loop_time w - last_update w) 2
   then set_last_update (loop_time w) (log (EditText (TxtProgress title p total)) w)
   else w).
Proof.
  unfold download_progress, bind at 1, get_world.
  destruct (Qgtb (loop_time w - last_update w) 2); [|reflexivity].
  unfold bind, try_except, external, modify, ret.
  destruct (on_call E _ _); reflexivity.
Qed.

Lemma file_write_inv (E : env) (filepath : string) (chunk : list Byte.byte)
    (w w' : world) (r : Res unit) :
  file_write E filepath chunk w = (r, w') ->
  trace w' = (trace w ++ [FileWrite filepath chunk])%list /\
  last_update w' = last_update w /\ loop_time w' = loop_time w.
Proof.
  unfold file_write, bind, external, modify.
  destruct (on_call E _ _); intros H; injection H as _ <-; auto.
Qed.

(** One turn of the chunk loop with the dispatcher's callback, when the
    total size is known. *)
Lemma write_chunks_step (E : env) (filepath : string) (title : json) (total_size : Z)
    (t : Q) (chunk : list Byte.byte) (rest : list (Q * list Byte.byte))
    (downloaded : Z) (w : world) :
  total_size > 0 ->
  let cb := Some (download_progress E title) in
  let d := downloaded + Z.of_nat (length chunk) in
  let p := percent_of d total_size in
  write_chunks E filepath cb total_size ((t, chunk) :: rest) downloaded w =
  match file_write E filepath chunk (set_loop_time t w) with
  | (Raise e, w2) => (Raise e, w2)
  | (Ok _, w2) =>
      let w3 := log (Progress p d total_size) w2 in
      write_chunks E filepath cb total_size rest d
        (if Qgtb (loop_time w3 - last_update w3) 2
         then set_last_update (loop_time w3)
                (log (EditText (TxtProgress title p total_size)) w3)
         else w3)
  end.
Proof.
  intros Hpos cb d p. simpl.
  destruct (Z.gtb_spec total_size 0) as [_|]; [|lia].
  unfold bind at 1, modify at 1. unfold bind at 1.
  destruct (file_write E filepath chunk (set_loop_time t w)) as [[[]|e] w2];
    [|reflexivity].
  unfold bind at 1. unfold bind at 1, modify at 1.
  rewrite download_progress_run. reflexivity.
Qed.

(** The chunk loop of a download of known size, with the dispatcher's
    callback. *)
Section Throttle.
Variable E : env.
Variable filepath : string.
Variable title : json.
Variable total_size : Z.
Hypothesis total_known : total_size > 0.

Let cb := Some (download_progress E title).

(** Once the recorded time is within [budget k] of the end [T], at most
    [k] more edits are made. *)
Lemma edits_after_update (T : Q) (chunks : list (Q * list Byte.byte)) :
  forall (k : nat) (downloaded : Z) (w w' : world) (r : Res unit),
    within T chunks ->
    (T - last_update w <= budget k)%Q ->
    write_chunks E filepath cb total_size chunks downloaded w = (r, w') ->
    exists l, trace w' = (trace w ++ l)%list /\
              (length (select is_progress_edit l) <= k)%nat.
Proof.
  induction chunks as [|[t chunk] rest IH]; intros k downloaded w w' r Hin Hlast Hrun.
  - injection Hrun as _ <-. exists []. rewrite app_nil_r. simpl. split; [reflexivity|lia].
  - unfold cb in Hrun. rewrite write_chunks_step in Hrun by assumption.
    inversion Hin as [|? ? Ht Hrest]; subst. simpl in Ht.
    destruct (file_write E filepath chunk (set_loop_time t w)) as [[[]|e] w2] eqn:Hw;
      destruct (file_write_inv _ _ _ _ _ _ Hw) as (Htr & Hlu & Hlt); simpl in Htr, Hlu, Hlt.
    + cbn zeta in Hrun. simpl loop_time in Hrun. simpl last_update in Hrun.
      rewrite Hlt, Hlu in Hrun.
      destruct (Qgtb (t - last_update w) 2) eqn:Hgt.
      * apply Qgtb_spec in Hgt.
        destruct k as [|k]; cbn [budget] in Hlast; [exfalso; lra|].
        apply (IH k) in Hrun; [| exact Hrest | cbn [last_update set_last_update]; lra].
        destruct Hrun as (l & Hl & Hcount). simpl in Hl. rewrite Htr in Hl.
        eexists. split; [rewrite Hl, <- !app_assoc; reflexivity|].
        simpl. lia.
      * apply (IH k) in Hrun; [| exact Hrest | cbn [last_update log]; rewrite Hlu; exact Hlast].
        destruct Hrun as (l & Hl & Hcount). simpl in Hl. rewrite Htr in Hl.
        eexists. split; [rewrite Hl, <- !app_assoc; reflexivity|].
        simpl. lia.
    + injection Hrun as _ <-. eexists. split; [exact Htr|]. simpl. lia.
Qed.

(** Whatever the recorded time, chunks handled between [t0] and [T] with
    [T - t0] within [budget k] lead to at most [k + 1] edits. *)
Lemma edits_in_window (t0 T : Q) (chunks : list (Q * list Byte.byte)) :
  forall (k : nat) (downloaded : Z) (w w' : world) (r : Res unit),
    within T chunks ->
    Forall (fun tc => (t0 <= fst tc)%Q) chunks ->
    (T - t0 <= budget k)%Q ->
    write_chunks E filepath cb total_size chunks downloaded w = (r, w') ->
    exists l, trace w' = (trace w ++ l)%list /\
              (length (select is_progress_edit l) <= S k)%nat.
Proof.
  induction chunks as [|[t chunk] rest IH];
    intros k downloaded w w' r Hin Hfrom Hwin Hrun.
  - injection Hrun as _ <-. exists []. rewrite app_nil_r. simpl. split; [reflexivity|lia].
  - unfold cb in Hrun. rewrite write_chunks_step in Hrun by assumption.
    inversion Hin as [|? ? Ht Hrest]; subst. simpl in Ht.
    inversion Hfrom as [|? ? Ht0 Hfrom']; subst. simpl in Ht0.
    destruct (file_write E filepath chunk (set_loop_time t w)) as [[[]|e] w2] eqn:Hw;
      destruct (file_write_inv _ _ _ _ _ _ Hw) as (Htr & Hlu & Hlt); simpl in Htr, Hlu, Hlt.
    + cbn zeta in Hrun. simpl loop_time in Hrun. simpl last_update in Hrun.
      rewrite Hlt, Hlu in Hrun.
      destruct (Qgtb (t - last_update w) 2) eqn:Hgt.
      * apply (edits_after_update T rest k) in Hrun;
          [| exact Hrest | cbn [last_update set_last_update]; lra].
        destruct Hrun as (l & Hl & Hcount). simpl in Hl. rewrite Htr in Hl.
        eexists. split; [rewrite Hl, <- !app_assoc; reflexivity|].
        simpl. lia.
      * apply (IH k) in Hrun; [| exact Hrest | exact Hfrom' | exact Hwin].
        destruct Hrun as (l & Hl & Hcount). simpl in Hl. rewrite Htr in Hl.
        eexists. split; [rewrite Hl, <- !app_assoc; reflexivity|].
        simpl. lia.
    + injection Hrun as _ <-. eexists. split; [exact Htr|]. simpl. lia.
Qed.

(** A loop that completes has invoked the callback once per chunk. *)
Lemma write_chunks_progress_calls (chunks : list (Q * list Byte.byte)) :
  forall (downloaded : Z) (w w' : world),
    write_chunks E filepath cb total_size chunks downloaded w = (Ok tt, w') ->
    exists l, trace w' = (trace w ++ l)%list /\
              select is_progress l = progress_calls total_size chunks downloaded.
Proof.
  induction chunks as [|[t chunk] rest IH]; intros downloaded w w' Hrun.
  - injection Hrun as <-. exists []. rewrite app_nil_r. auto.
  - unfold cb in Hrun. rewrite write_chunks_step in Hrun by assumption.
    destruct (file_write E filepath chunk (set_loop_time t w)) as [[[]|e] w2] eqn:Hw;
      [|discriminate].
    destruct (file_write_inv _ _ _ _ _ _ Hw) as (Htr & _ & _). simpl in Htr.
    cbn zeta in Hrun. apply IH in Hrun. destruct Hrun as (l & Hl & Hsel).
    destruct (Qgtb _ 2); simpl in Hl; rewrite Htr in Hl;
      (eexists; split; [rewrite Hl, <- !app_assoc; reflexivity|]);
      simpl; rewrite Hsel; reflexivity.
Qed.

End Throttle.

Lemma progress_calls_last (total_size : Z) (chunks : list (Q * list Byte.byte)) :
  forall downloaded,
    chunks <> [] ->
    last (progress_calls total_size chunks downloaded) =
    Some (Progress (percent_of (downloaded + stream_size chunks) total_size)
                   (downloaded + stream_size chunks) total_size).
Proof.
  induction chunks as [|[t chunk] rest IH]; intros downloaded Hne; [congruence|].
  destruct rest as [|tc rest'].
  - simpl. rewrite Z.add_0_r. reflexivity.
  - change (progress_calls total_size ((t, chunk) :: tc :: rest') downloaded)
      with (Progress (percent_of (downloaded + Z.of_nat (length chunk)) total_size)
                     (downloaded + Z.of_nat (length chunk)) total_size
              :: progress_calls total_size (tc :: rest')
                   (downloaded + Z.of_nat (length chunk))).
    destruct (progress_calls total_size (tc :: rest')
                (downloaded + Z.of_nat (length chunk))) as [|c cs] eqn:Hcalls.
    + destruct tc; discriminate.
    + rewrite last_cons_cons. rewrite <- Hcalls. rewrite IH by discriminate.
      change (stream_size ((t, chunk) :: tc :: rest'))
        with (Z.of_nat (length chunk) + stream_size (tc :: rest')).
      rewrite Z.add_assoc. reflexivity.
Qed.

Lemma percent_of_all (total_size : Z) :
  total_size > 0 -> (percent_of total_size total_size == 100)%Q.
Proof.
  intros Hpos. unfold percent_of.
  assert (H : ~ (inject_Z total_size == 0)%Q).
  { unfold Qeq. simpl. lia. }
  field. exact H.
Qed.


Lemma file_open_inv (E : env) (filepath : string) (w w' : world) (r : Res unit) :
  file_open E filepath w = (r, w') ->
  trace w' = (trace w ++ [FileOpen filepath])%list.
Proof.
  unfold file_open, bind, external, modify.
  destruct (on_call E _ _); intros H; injection H as _ <-; reflexivity.
Qed.

Lemma new_calls_app (w w' : world) (l : list call) :
  trace w' = (trace w ++ l)%list -> new_calls w w' = l.
Proof. intros H. unfold new_calls. rewrite H. apply drop_app_length. Qed.

(** [download_file] on a response whose size header reads [total_size]. *)
Lemma download_file_unfold (E : env) (url : json) (filepath : string)
    (cb : option callback) (w : world) (r : get_response) (total_size : Z) :
  on_get E (length (trace w)) url = GetResponse r ->
  content_length (dl_content_length r) = Ok total_size ->
  download_file E url filepath cb w =
  if (dl_status r =? 200) || (dl_status r =? 206) then
    match file_open E filepath (log (HttpGet url) w) with
    | (Raise _, w2) => (Ok false, w2)
    | (Ok _, w2) =>
        match write_chunks E filepath cb total_size (dl_chunks r) 0 w2 with
        | (Raise _, w3) => (Ok false, w3)
        | (Ok _, w3) =>
            (Ok (match dl_stream_error r with Some _ => false | None => true end), w3)
        end
    end
  else (Ok false, log (HttpGet url) w).
Proof.
  intros Hget Hlen.
  unfold download_file, try_except, bind, session_get, lift. rewrite Hget.
  destruct ((dl_status r =? 200) || (dl_status r =? 206)); [|reflexivity].
  rewrite Hlen.
  destruct (file_open E filepath (log (HttpGet url) w)) as [[[]|e] w2]; [|reflexivity].
  destruct (write_chunks E filepath cb total_size (dl_chunks r) 0 w2)
    as [[[]|e] w3]; [|reflexivity].
  destruct (dl_stream_error r); reflexivity.
Qed.

(** How a download of known size runs: it fails before the first chunk, or
    it reaches the chunk loop, whose world it ends in. *)
Lemma download_file_known_size (E : env) (url : json) (filepath : string)
    (cb : option callback) (w : world) (r : get_response) (total_size : Z) :
  on_get E (length (trace w)) url = GetResponse r ->
  content_length (dl_content_length r) = Ok total_size ->
  let run := download_file E url filepath cb w in
  (fst run = Ok false /\
   (new_calls w (snd run) = [HttpGet url] \/
    new_calls w (snd run) = [HttpGet url; FileOpen filepath])) \/
  (exists w2 r3,
     trace w2 = (trace w ++ [HttpGet url; FileOpen filepath])%list /\
     write_chunks E filepath cb total_size (dl_chunks r) 0 w2 = (r3, snd run) /\
     (fst run = Ok true -> r3 = Ok tt)).
Proof.
  intros Hget Hlen run. unfold run.
  rewrite (download_file_unfold E url filepath cb w r total_size Hget Hlen).
  destruct ((dl_status r =? 200) || (dl_status r =? 206)).
  2: { left. split; [reflexivity|]. left. apply new_calls_app. reflexivity. }
  destruct (file_open E filepath (log (HttpGet url) w)) as [[[]|e] w2] eqn:Hopen;
    pose proof (file_open_inv _ _ _ _ _ Hopen) as Htr2; simpl in Htr2;
    rewrite <- app_assoc in Htr2; simpl in Htr2.
  2: { left. split; [reflexivity|]. right. apply new_calls_app. exact Htr2. }
  right.
  destruct (write_chunks E filepath cb total_size (dl_chunks r) 0 w2)
    as [[[]|e] w3] eqn:Hwc.
  - exists w2, (Ok tt). auto.
  - exists w2, (Raise e). repeat split; [exact Htr2 | exact Hwc | discriminate].
Qed.

(** C6, amended. For a download of known size driven by the dispatcher's
    callback:
    - the transfer engine does not throttle: a successful download invokes
      the callback once per chunk, with the running byte count;
    - the last of these invocations reports 100 percent when the bytes
      received add up to the advertised size;
    - the throttle is in the callback: when all chunks are handled within
      a window of [2 * (k + 1)] seconds, the status message is edited at
      most [k + 1] times, however many chunks arrive;
    - in particular, within a window of 5 seconds it is edited at most 3
      times. *)
Theorem throttle_in_dispatcher (E : env) (url : json) (filepath : string)
    (title : json) (w : world) (r : get_response) (total_size : Z) (t0 : Q) :
  on_get E (length (trace w)) url = GetResponse r ->
  content_length (dl_content_length r) = Ok total_size ->
  total_size > 0 ->
  let run := download_file E url filepath (Some (download_progress E title)) w in
  let calls := new_calls w (snd run) in
  (fst run = Ok true ->
   select is_progress calls = progress_calls total_size (dl_chunks r) 0) /\
  (fst run = Ok true -> dl_chunks r <> [] ->
   stream_size (dl_chunks r) = total_size ->
   exists p, last (select is_progress calls) = Some (Progress p total_size total_size)
             /\ (p == 100)%Q) /\
  (forall k,
     Forall (fun tc => (t0 <= fst tc <= t0 + budget k)%Q) (dl_chunks r) ->
     (length (select is_progress_edit calls) <= S k)%nat) /\
  (Forall (fun tc => (t0 <= fst tc <= t0 + 5)%Q) (dl_chunks r) ->
   (length (select is_progress_edit calls) <= 3)%nat).
Proof.
  intros Hget Hlen Hpos run calls.
  assert (Hcalls : fst run = Ok true ->
            select is_progress calls = progress_calls total_size (dl_chunks r) 0).
  { intros Hok.
    destruct (download_file_known_size E url filepath
                (Some (download_progress E title)) w r total_size Hget Hlen)
      as [[Hfalse _] | (w2 & r3 & Htr2 & Hwc & Hr3)].
    - fold run in Hfalse. congruence.
    - fold run in Hwc, Hr3. rewrite (Hr3 Hok) in Hwc.
      destruct (write_chunks_progress_calls E filepath title total_size Hpos
                  _ _ _ _ Hwc) as (l & Hl & Hsel).
      unfold calls. rewrite (new_calls_app w (snd run) ([HttpGet url; FileOpen filepath] ++ l)).
      + simpl. exact Hsel.
      + rewrite Hl, Htr2, <- app_assoc. reflexivity. }
  assert (Hwindow : forall (k : nat) (span : Q),
            (span <= budget k)%Q ->
            Forall (fun tc => (t0 <= fst tc <= t0 + span)%Q) (dl_chunks r) ->
            (length (select is_progress_edit calls) <= S k)%nat).
  { intros k span Hspan Hwin.
    destruct (download_file_known_size E url filepath
                (Some (download_progress E title)) w r total_size Hget Hlen)
      as [[_ [Hc | Hc]] | (w2 & r3 & Htr2 & Hwc & _)].
    - fold run in Hc. fold calls in Hc. rewrite Hc. simpl. lia.
    - fold run in Hc. fold calls in Hc. rewrite Hc. simpl. lia.
    - fold run in Hwc.
      destruct (edits_in_window E filepath title total_size Hpos t0 (t0 + span)
                  (dl_chunks r) k 0 w2 (snd run) r3) as (l & Hl & Hc).
      + eapply Forall_impl; [exact Hwin|]. intros tc [_ H]. exact H.
      + eapply Forall_impl; [exact Hwin|]. intros tc [H _]. exact H.
      + lra.
      + exact Hwc.
      + unfold calls.
        rewrite (new_calls_app w (snd run) ([HttpGet url; FileOpen filepath] ++ l)).
        * simpl. exact Hc.
        * rewrite Hl, Htr2, <- app_assoc. reflexivity. }
  split; [exact Hcalls|]. split; [|split].
  - intros Hok Hne Hsize. rewrite (Hcalls Hok), progress_calls_last by assumption.
    rewrite Z.add_0_l, Hsize. eexists. split; [reflexivity|].
    apply percent_of_all. assumption.
  - intros k. apply Hwindow. lra.
  - apply (Hwindow 2%nat 5%Q). cbn [budget]. lra.
Qed.

(** C6 as stated fails on the simulated transfer. The callback of the
    transfer engine fires 50 times, once per chunk. The status edits made by
    that callback are throttled to 3, and the last of them shows 86 percent:
    the call that carries 100 percent falls inside the 2-second gap. *)
Lemma progress_callback_not_throttled :
  let E := fixed_env (HttpRaise TimeoutError) (GetResponse simulated) in
  let run := download_file E (JStr "http://cdn/ep_1.mp3") "downloads/ep_1.mp3"
               (Some (download_progress E (JStr "Test"))) world0 in
  let calls := new_calls world0 (snd run) in
  fst run = Ok true /\
  length (select is_progress calls) = 50%nat /\
  select is_progress_edit calls =
    [ EditText (TxtProgress (JStr "Test") (percent_of 1 50) 50);
      EditText (TxtProgress (JStr "Test") (percent_of 22 50) 50);
      EditText (TxtProgress (JStr "Test") (percent_of 43 50) 50) ] /\
  ~ (percent_of 43 50 == 100)%Q.
Proof.
  vm_compute. repeat split. discriminate.
Qed.

Lemma throttle_in_dispatcher_witness :
  let E := fixed_env (HttpRaise TimeoutError) (GetResponse simulated) in
  let run := download_file E (JStr "http://cdn/ep_1.mp3") "downloads/ep_1.mp3"
               (Some (download_progress E (JStr "Test"))) world0 in
  (length (select is_progress_edit (new_calls world0 (snd run))) <= 3)%nat.
Proof.
  intros E run.
  refine (proj2 (proj2 (proj2 (throttle_in_dispatcher E (JStr "http://cdn/ep_1.mp3")
            "downloads/ep_1.mp3" (JStr "Test") world0 simulated 50 1000%Q
            eq_refl eq_refl _))) _).
  - lia.
  - vm_compute. repeat constructor; discriminate.
Defined.

(** ** Exhaustion, seen from the network

    When no request is ever answered by a 200 whose body parses, no attempt
    returns, [_make_request] gives [None] or raises, and every candidate of
    every operation is exhausted. *)

Lemma attempt_body_never_200 (E : env) (method endpoint : string)
    (params : list (string * json)) (attempt : nat) (w w' : world)
    (r : Res (option json)) :
  never_200 E ->
  attempt_body E method endpoint params attempt w = (r, w') ->
  no_result r.
Proof.
  intros Hnever Hrun a Hr. subst r. revert Hrun.
  unfold attempt_body, try_except.
  assert (Hhandler : forall e w1,
            (match e with
             | TimeoutError =>
                 let* w := get_world in
                 sleep (retry_delay (api w)) ;; ret None
             | _ => _rotate_url ;; ret None
             end) w1 <> (Ok (Some a), w')).
  { intros e w1. destruct e; unfold bind, get_world, sleep, modify, ret;
      try discriminate; destruct (_rotate_url w1) as [[[]|e'] w2]; discriminate. }
  unfold bind at 1.
  destruct (_get_base_url w) as [[u|e] w1]; [|apply Hhandler].
  unfold bind at 1, session_request.
  destruct (on_request E (length (trace w1)) method (u ++ endpoint) params)
    as [status body|e] eqn:Ho; [|apply Hhandler].
  destruct (Z.eqb_spec status 200) as [->|_].
  - destruct body as [j|e].
    + exfalso. exact (Hnever _ _ _ _ _ Ho).
    + unfold bind, lift. apply Hhandler.
  - destruct (status =? 404).
    + unfold bind.
      destruct (_rotate_url _) as [[[]|e] w2]; [discriminate | apply Hhandler].
    + destruct ((status =? 429) || (status =? 503)); discriminate.
Qed.

Lemma for_each_no_result {C A} (body : C -> M (option A)) (cs : list C) :
  (forall c w r w', body c w = (r, w') -> no_result r) ->
  forall w r w', for_each body cs w = (r, w') -> no_result r.
Proof.
  intros Hb. induction cs as [|c cs IH]; intros w r w' Hrun a Hr; subst r.
  - discriminate.
  - simpl in Hrun. unfold bind in Hrun.
    destruct (body c w) as [[[x|]|e] w1] eqn:Hc.
    + exact (Hb _ _ _ _ Hc x eq_refl).
    + exact (IH _ _ _ Hrun a eq_refl).
    + discriminate.
Qed.

Lemma make_request_never_200 (E : env) (method endpoint : string)
    (params : list (string * json)) (w w' : world) (r : Res json) :
  never_200 E ->
  _make_request E method endpoint params w = (r, w') ->
  r = Ok JNull \/ exists e, r = Raise e.
Proof.
  intros Hnever. unfold _make_request, bind at 1, get_world. unfold bind.
  destruct (for_each _ _ w) as [[[j|]|e] w1] eqn:Hloop;
    intros H; injection H as <- _; eauto.
  exfalso.
  refine (for_each_no_result _ _ _ _ _ _ Hloop j eq_refl).
  intros c w2 r2 w2'. apply attempt_body_never_200. exact Hnever.
Qed.

Lemma exhausted_all {C} (body : C -> M (option json)) (cs : list C) :
  (forall c w r w', body c w = (r, w') -> no_result r) ->
  forall w, exhausted body cs w = true.
Proof.
  intros Hb. induction cs as [|c cs IH]; intros w; simpl; [reflexivity|].
  destruct (body c w) as [[[v|]|e] w1] eqn:Hc; [|apply IH|apply IH].
  exfalso. exact (Hb _ _ _ _ Hc v eq_refl).
Qed.

(** A candidate body of the shape all four operations have: a request, then
    a continuation that is only run on a true response. *)
Lemma candidate_never_200 (E : env) (endpoint : string)
    (params : list (string * json)) (k : json -> M (option json))
    (w w' : world) (r : Res (option json)) :
  never_200 E ->
  (let* response := _make_request E "GET" endpoint params in
   if truthy response then k response else ret None) w = (r, w') ->
  no_result r.
Proof.
  intros Hnever Hrun a Hr. subst r. unfold bind in Hrun.
  destruct (_make_request E "GET" endpoint params w) as [rq w1] eqn:Hrq.
  destruct (make_request_never_200 E _ _ _ _ _ _ Hnever Hrq) as [-> | [e ->]];
    simpl in Hrun; discriminate.
Qed.

(** With such a network every operation gives its unresolved value. *)
Lemma resolver_unresolved_never_200 (E : env) (w : world) :
  never_200 E ->
  (forall query limit, fst (search_series E query limit w) = Ok (JList [])) /\
  (forall series_id, fst (get_series_details E series_id w) = Ok JNull) /\
  (forall series_id limit, fst (get_episodes E series_id limit w) = Ok (JList [])) /\
  (forall episode_id quality, fst (get_stream_url E episode_id quality w) = Ok JNull).
Proof.
  intros Hnever.
  split; [|split; [|split]]; intros.
  - apply (proj2 (resolve_soft_failure (search_candidate E) _ (JList []) w)).
    apply exhausted_all. intros c w1 r w1'. apply candidate_never_200, Hnever.
  - apply (proj2 (resolve_soft_failure (details_candidate E) _ JNull w)).
    apply exhausted_all. intros c w1 r w1'. apply candidate_never_200, Hnever.
  - apply (proj2 (resolve_soft_failure (episodes_candidate E limit) _ (JList []) w)).
    apply exhausted_all. intros c w1 r w1'. apply candidate_never_200, Hnever.
  - apply (proj2 (resolve_soft_failure (stream_candidate E quality) _ JNull w)).
    apply exhausted_all. intros c w1 r w1'. apply candidate_never_200, Hnever.
Qed.

(** * Further properties of the API handler *)

(** ** The registry cursor *)

(** The cursor [_get_base_url] settles on. *)
Lemma get_base_url_run (w : world) :
  let i := if (length (base_urls (api w)) <=? current_url_index (api w))%nat
           then 0%nat else current_url_index (api w) in
  _get_base_url w =
  (match base_urls (api w) !! i with
   | Some u => Ok u
   | None => Raise IndexError
   end, set_index i w).
Proof.
  intros i. unfold _get_base_url. fold i.
  destruct (base_urls (api w) !! i); reflexivity.
Qed.

(** X1. [_get_base_url] is idempotent: a second call returns the same host
    (or raises the same IndexError) and changes nothing more. When it
    returns a host, the cursor it leaves is inside the registry and
    designates that host; a cursor found past the end designates the first
    host afterwards. *)
Theorem get_base_url_idempotent (w : world) :
  let r := _get_base_url w in
  _get_base_url (snd r) = r /\
  (forall u, fst r = Ok u ->
     (current_url_index (api (snd r)) < length (base_urls (api w)))%nat /\
     base_urls (api w) !! current_url_index (api (snd r)) = Some u) /\
  ((length (base_urls (api w)) <= current_url_index (api w))%nat ->
   current_url_index (api (snd r)) = 0%nat /\
   fst r = match base_urls (api w) with
           | u :: _ => Ok u
           | [] => Raise IndexError
           end).
Proof.
  intros r. subst r. rewrite (get_base_url_run w).
  set (i := if (length (base_urls (api w)) <=? current_url_index (api w))%nat
            then 0%nat else current_url_index (api w)).
  cbn [fst snd].
  split; [|split].
  - rewrite (get_base_url_run (set_index i w)). cbn [api set_index set_api base_urls
      current_url_index].
    assert (Hi : (if (length (base_urls (api w)) <=? i)%nat then 0%nat else i) = i).
    { unfold i.
      destruct (Nat.leb_spec (length (base_urls (api w))) (current_url_index (api w)))
        as [Hle|Hlt].
      - destruct (length (base_urls (api w)) <=? 0)%nat; reflexivity.
      - destruct (Nat.leb_spec (length (base_urls (api w)))
                    (current_url_index (api w))); [lia | reflexivity]. }
    rewrite Hi. reflexivity.
  - intros u. destruct (base_urls (api w) !! i) as [u'|] eqn:Hu; [|discriminate].
    intros H. injection H as <-. cbn. split; [|exact Hu].
    apply lookup_lt_Some in Hu. exact Hu.
  - intros Hle. assert (Hi : i = 0%nat).
    { unfold i. destruct (Nat.leb_spec (length (base_urls (api w)))
                            (current_url_index (api w))); [reflexivity | lia]. }
    rewrite Hi. destruct (base_urls (api w)) as [|u rest]; cbn; auto.
Qed.

Lemma rotate_n_zero_or_index (k : nat) (w : world) :
  base_urls (api w) <> [] ->
  (current_url_index (api w) < length (base_urls (api w)))%nat ->
  rotate_n k w =
    (Ok tt, set_index ((current_url_index (api w) + k)
                         mod length (base_urls (api w))) w).
Proof.
  intros Hne Hlt. destruct k as [|k].
  - rewrite Nat.add_0_r, Nat.mod_small by assumption.
    rewrite set_index_same. reflexivity.
  - apply rotate_n_index. assumption.
Qed.

(** X2. Rotation is round-robin. From a cursor [i] inside a registry of [n]
    hosts, after [k] rotations the current host is host [(i + k) mod n];
    so every host [j] becomes the current one after [(j + n - i) mod n]
    rotations, fewer than [n]. *)
Theorem rotation_round_robin (w : world) (k j : nat) :
  let urls := base_urls (api w) in
  let i := current_url_index (api w) in
  (i < length urls)%nat ->
  (j < length urls)%nat ->
  (exists u, host_after urls i k = Some u /\
             (rotate_n k ;; _get_base_url) w
             = (Ok u, set_index ((i + k) mod length urls) w)) /\
  ((j + length urls - i) mod length urls < length urls)%nat /\
  host_after urls i ((j + length urls - i) mod length urls) = urls !! j.
Proof.
  intros urls i Hi Hj.
  assert (Hne : urls <> []) by (intros H; unfold urls in *; rewrite H in Hi; simpl in Hi; lia).
  assert (Hn : length urls <> 0%nat) by lia.
  split; [|split].
  - assert (Hlt : ((i + k) mod length urls < length urls)%nat)
      by (apply Nat.mod_upper_bound; exact Hn).
    destruct (lookup_lt_is_Some_2 _ _ Hlt) as [u Hu].
    exists u. split; [exact Hu|].
    rewrite (bind_ok _ _ _ _ _ (rotate_n_zero_or_index k w Hne Hi)).
    fold urls i.
    destruct (get_base_url_in_range (set_index ((i + k) mod length urls) w))
      as (u' & Hu' & Hrun); [exact Hlt|].
    simpl in Hu'. fold urls in Hu'. rewrite Hu in Hu'. injection Hu' as <-.
    exact Hrun.
  - apply Nat.mod_upper_bound. exact Hn.
  - unfold host_after. f_equal.
    rewrite Nat.Div0.add_mod_idemp_r.
    replace (i + (j + length urls - i))%nat with (j + 1 * length urls)%nat by lia.
    rewrite Nat.Div0.mod_add. apply Nat.mod_small. exact Hj.
Qed.

Lemma rotation_round_robin_witness :
  (rotate_n 6 ;; _get_base_url) world0
  = (Ok "https://api-cdn.pocketfm.com", set_index 2 world0).
Proof.
  destruct (proj1 (rotation_round_robin world0 6 3 ltac:(simpl; lia) ltac:(simpl; lia)))
    as (u & Hu & Hrun).
  vm_compute in Hu. injection Hu as <-. exact Hrun.
Defined.

(** ** Request budgets *)

Lemma count_app (p : call -> bool) (l1 l2 : list call) :
  count p (l1 ++ l2) = (count p l1 + count p l2)%nat.
Proof.
  unfold count. induction l1 as [|c l1 IH]; simpl; [reflexivity|].
  destruct (p c); simpl; rewrite IH; reflexivity.
Qed.

Section Budget.
Variable p : call -> bool.
Variable N : nat.

Lemma budget_quiet {A} (m : M A) :
  (forall w r w', m w = (r, w') ->
     retry_attempts (api w') = retry_attempts (api w) /\ trace w' = trace w) ->
  adds_at_most p N 0 m.
Proof.
  intros Hm w r w' HN Hrun. destruct (Hm _ _ _ Hrun) as [Hra Htr].
  split; [congruence|]. exists []. rewrite app_nil_r. split; [exact Htr|].
  unfold count. simpl. lia.
Qed.

Lemma budget_ret {A} (a : A) : adds_at_most p N 0 (ret a).
Proof. apply budget_quiet. intros w r w' H. injection H as _ <-. auto. Qed.

Lemma budget_raise {A} (e : exn) : adds_at_most p N 0 (@raise A e).
Proof. apply budget_quiet. intros w r w' H. injection H as _ <-. auto. Qed.

Lemma budget_lift {A} (x : Res A) : adds_at_most p N 0 (lift x).
Proof. apply budget_quiet. intros w r w' H. injection H as _ <-. auto. Qed.

Lemma budget_get_world : adds_at_most p N 0 get_world.
Proof. apply budget_quiet. intros w r w' H. injection H as _ <-. auto. Qed.

Lemma budget_weaken {A} (n n' : nat) (m : M A) :
  (n <= n')%nat -> adds_at_most p N n m -> adds_at_most p N n' m.
Proof.
  intros Hle Hm w r w' HN Hrun. destruct (Hm _ _ _ HN Hrun) as [Hra (l & Hl & Hc)].
  split; [exact Hra|]. exists l. split; [exact Hl | lia].
Qed.

Lemma budget_bind {A B} (n1 n2 : nat) (m : M A) (k : A -> M B) :
  adds_at_most p N n1 m -> (forall a, adds_at_most p N n2 (k a)) ->
  adds_at_most p N (n1 + n2) (bind m k).
Proof.
  intros Hm Hk w r w' HN Hrun. unfold bind in Hrun.
  destruct (m w) as [[a|e] w1] eqn:Hmw.
  - destruct (Hm _ _ _ HN Hmw) as [Hra1 (l1 & Hl1 & Hc1)].
    destruct (Hk a _ _ _ Hra1 Hrun) as [Hra2 (l2 & Hl2 & Hc2)].
    split; [exact Hra2|]. exists (l1 ++ l2)%list.
    rewrite Hl2, Hl1, app_assoc, count_app. split; [reflexivity | lia].
  - injection Hrun as _ <-.
    destruct (Hm _ _ _ HN Hmw) as [Hra1 (l1 & Hl1 & Hc1)].
    split; [exact Hra1|]. exists l1. split; [exact Hl1 | lia].
Qed.

Lemma budget_try_except {A} (n1 n2 : nat) (m : M A) (h : exn -> M A) :
  adds_at_most p N n1 m -> (forall e, adds_at_most p N n2 (h e)) ->
  adds_at_most p N (n1 + n2) (try_except m h).
Proof.
  intros Hm Hh w r w' HN Hrun. unfold try_except in Hrun.
  destruct (m w) as [[a|e] w1] eqn:Hmw.
  - injection Hrun as _ <-.
    destruct (Hm _ _ _ HN Hmw) as [Hra1 (l1 & Hl1 & Hc1)].
    split; [exact Hra1|]. exists l1. split; [exact Hl1 | lia].
  - destruct (Hm _ _ _ HN Hmw) as [Hra1 (l1 & Hl1 & Hc1)].
    destruct (Hh e _ _ _ Hra1 Hrun) as [Hra2 (l2 & Hl2 & Hc2)].
    split; [exact Hra2|]. exists (l1 ++ l2)%list.
    rewrite Hl2, Hl1, app_assoc, count_app. split; [reflexivity | lia].
Qed.

Lemma budget_for_each {C A} (n : nat) (body : C -> M (option A)) (cs : list C) :
  (forall c, adds_at_most p N n (body c)) ->
  adds_at_most p N (length cs * n) (for_each body cs).
Proof.
  intros Hb. induction cs as [|c cs IH]; simpl.
  - apply budget_ret.
  - apply budget_bind; [apply Hb|].
    intros [a|]; [|exact IH].
    eapply budget_weaken; [|apply budget_ret]. lia.
Qed.

Lemma budget_if {A} (n : nat) (b : bool) (m1 m2 : M A) :
  adds_at_most p N n m1 -> adds_at_most p N n m2 ->
  adds_at_most p N n (if b then m1 else m2).
Proof. destruct b; auto. Qed.

Lemma budget_get_base_url : adds_at_most p N 0 _get_base_url.
Proof.
  apply budget_quiet. intros w r w' H. rewrite get_base_url_run in H.
  injection H as _ <-. auto.
Qed.

Lemma budget_rotate_url : adds_at_most p N 0 _rotate_url.
Proof.
  intros w r w' HN H. unfold _rotate_url in H.
  destruct (length (base_urls (api w))).
  - revert H. apply budget_raise. exact HN.
  - assert (Hr : adds_at_most p N (0 + 0) (let* _ := _get_base_url in ret tt)).
    { apply budget_bind; [apply budget_get_base_url | intros; apply budget_ret]. }
    destruct (Hr (set_index ((current_url_index (api w) + 1) mod S n) w) r w'
                 HN H) as [Hra Hl].
    split; [exact Hra | exact Hl].
Qed.

End Budget.

Lemma budget_sleep (N : nat) (secs : Z) : adds_at_most is_request N 0 (sleep secs).
Proof.
  intros w r w' HN H. injection H as _ <-. split; [exact HN|].
  exists [Sleep secs]. split; [reflexivity|]. unfold count. simpl. lia.
Qed.

Lemma budget_session_request (N : nat) (E : env) (method url : string)
    (params : list (string * json)) :
  adds_at_most is_request N 1 (session_request E method url params).
Proof.
  intros w r w' HN H. unfold session_request in H.
  destruct (on_request E _ _ _ _); injection H as _ <-;
    (split; [exact HN|]; eexists; split; [reflexivity|]; unfold count; simpl; lia).
Qed.

Lemma budget_attempt_body (N : nat) (E : env) (method endpoint : string)
    (params : list (string * json)) (attempt : nat) :
  adds_at_most is_request N 1 (attempt_body E method endpoint params attempt).
Proof.
  unfold attempt_body.
  change 1%nat with ((0 + (1 + 0)) + 0)%nat.
  apply budget_try_except.
  - apply budget_bind; [apply budget_get_base_url | intros base_url].
    apply budget_bind; [apply budget_session_request | intros [status body]].
    repeat apply budget_if.
    + change 0%nat with (0 + 0)%nat.
      apply budget_bind; [apply budget_lift | intros; apply budget_ret].
    + change 0%nat with (0 + 0)%nat.
      apply budget_bind; [apply budget_rotate_url | intros; apply budget_ret].
    + change 0%nat with (0 + (0 + 0))%nat.
      apply budget_bind; [apply budget_get_world | intros w0].
      apply budget_bind; [apply budget_sleep | intros; apply budget_ret].
    + apply budget_ret.
  - intros e.
    assert (Hrot : adds_at_most is_request N 0 (_rotate_url ;; ret (@None json))).
    { change 0%nat with (0 + 0)%nat.
      apply budget_bind; [apply budget_rotate_url | intros; apply budget_ret]. }
    destruct e; try exact Hrot.
    change 0%nat with (0 + (0 + 0))%nat.
    apply budget_bind; [apply budget_get_world | intros w0].
    apply budget_bind; [apply budget_sleep | intros; apply budget_ret].
Qed.

Lemma budget_make_request (N : nat) (E : env) (method endpoint : string)
    (params : list (string * json)) :
  adds_at_most is_request N N (_make_request E method endpoint params).
Proof.
  intros w r w' HN Hrun. unfold _make_request in Hrun.
  unfold bind at 1, get_world in Hrun. rewrite HN in Hrun.
  assert (Hloop : adds_at_most is_request N (length (seq 0 N) * 1 + 0)
            (let* r := for_each (attempt_body E method endpoint params) (seq 0 N) in
             ret (from_option id JNull r))).
  { apply budget_bind; [| intros; apply budget_ret].
    apply budget_for_each. intros c. apply budget_attempt_body. }
  rewrite length_seq in Hloop.
  destruct (Hloop _ _ _ HN Hrun) as [Hra (l & Hl & Hc)].
  split; [exact Hra|]. exists l. split; [exact Hl | lia].
Qed.

(** X3. Whatever the network does, one call of [_make_request] sends at
    most [retry_attempts] requests; it only sends requests and sleeps, and
    it leaves the file system as it was. *)
Theorem make_request_bounded (E : env) (method endpoint : string)
    (params : list (string * json)) (w w' : world) (r : Res json) :
  _make_request E method endpoint params w = (r, w') ->
  fs w' = fs w /\
  exists l, trace w' = (trace w ++ l)%list /\
            Forall client_call l /\
            (count is_request l <= retry_attempts (api w))%nat.
Proof.
  intros Hrun.
  destruct (client_make_request E method endpoint params w r w' Hrun)
    as [Hfs (l & Hl & Hcl)].
  destruct (budget_make_request _ E method endpoint params w r w' eq_refl Hrun)
    as [_ (l' & Hl' & Hc)].
  split; [auto|]. exists l. split; [exact Hl|]. split; [exact Hcl|].
  rewrite Hl in Hl'. apply app_inv_head in Hl'. subst l'. exact Hc.
Qed.

Lemma make_request_bounded_witness :
  let E := fixed_env (HttpResponse 404 (Raise ValueError)) no_download in
  let run := _make_request E "GET" "/x" [] world0 in
  fs (snd run) = fs world0 /\
  exists l, trace (snd run) = (trace world0 ++ l)%list /\
            Forall client_call l /\ (count is_request l <= 3)%nat.
Proof.
  intros E run.
  apply (make_request_bounded E "GET" "/x" [] world0 (snd run) (fst run)).
  vm_compute. reflexivity.
Defined.

(** ** The resolver: budgets and results *)

Lemma budget_py_or (N : nat) (a : json) (b : M json) :
  adds_at_most is_request N 0 b -> adds_at_most is_request N 0 (py_or a b).
Proof. intros Hb. unfold py_or. apply budget_if; [apply budget_ret | exact Hb]. Qed.

(** A candidate of the shape all four operations have. *)
Lemma budget_candidate (N : nat) (E : env) (endpoint : string)
    (params : list (string * json)) (k : json -> M (option json)) :
  (forall response, adds_at_most is_request N 0 (k response)) ->
  adds_at_most is_request N N
    (let* response := _make_request E "GET" endpoint params in
     if truthy response then k response else ret None).
Proof.
  intros Hk. apply (budget_weaken is_request N (N + 0)); [lia|].
  apply budget_bind; [apply budget_make_request | intros response].
  apply budget_if; [apply Hk | apply budget_ret].
Qed.

Lemma budget_resolve {C} (N : nat) (body : C -> M (option json)) (cs : list C)
    (unresolved : json) (w : world) :
  retry_attempts (api w) = N ->
  (forall c, adds_at_most is_request N N (body c)) ->
  requests_within (length cs * N) w
    ((let* r := try_candidates body cs in ret (from_option id unresolved r)) w).
Proof.
  intros HN Hb.
  assert (H : adds_at_most is_request N (length cs * (N + 0) + 0)
            (let* r := try_candidates body cs in ret (from_option id unresolved r))).
  { apply budget_bind; [| intros; apply budget_ret].
    apply budget_for_each. intros c.
    apply budget_try_except; [apply Hb | intros; apply budget_ret]. }
  destruct ((let* r := try_candidates body cs in ret (from_option id unresolved r)) w)
    as [r w'] eqn:Hrun.
  destruct (H _ _ _ HN Hrun) as [_ (l & Hl & Hc)].
  exists l. split; [exact Hl|]. rewrite Nat.add_0_r in Hc. lia.
Qed.

Lemma budget_extract_step (N : nat) {A} (x : Res json) (k : json -> M A) :
  (forall v, adds_at_most is_request N 0 (k v)) ->
  adds_at_most is_request N 0 (let* v := lift x in k v).
Proof.
  intros Hk. change 0%nat with (0 + 0)%nat.
  apply budget_bind; [apply budget_lift | exact Hk].
Qed.

Lemma budget_finish (N : nat) (m : M json) :
  adds_at_most is_request N 0 m ->
  adds_at_most is_request N 0
    (let* v := m in if truthy v then ret (Some v) else ret None).
Proof.
  intros Hm. change 0%nat with (0 + 0)%nat.
  apply budget_bind; [exact Hm | intros v; apply budget_if; apply budget_ret].
Qed.

Lemma budget_finish_sized (N : nat) (m : M json) :
  adds_at_most is_request N 0 m ->
  adds_at_most is_request N 0
    (let* v := m in
     if truthy v then lift (py_len_check v) ;; ret (Some v) else ret None).
Proof.
  intros Hm. change 0%nat with (0 + 0)%nat.
  apply budget_bind; [exact Hm | intros v].
  apply budget_if; [| apply budget_ret].
  change 0%nat with (0 + 0)%nat.
  apply budget_bind; [apply budget_lift | intros _; apply budget_ret].
Qed.

(** X7. The number of requests of a resolver operation is bounded by its
    number of candidate paths times [retry_attempts]: 4 paths for
    [search_series] and [get_stream_url], 3 for [get_series_details] and
    [get_episodes]. *)
Theorem resolver_request_budget (E : env) (w : world) :
  let N := retry_attempts (api w) in
  (forall query limit,
     requests_within (4 * N) w (search_series E query limit w)) /\
  (forall series_id,
     requests_within (3 * N) w (get_series_details E series_id w)) /\
  (forall series_id limit,
     requests_within (3 * N) w (get_episodes E series_id limit w)) /\
  (forall episode_id quality,
     requests_within (4 * N) w (get_stream_url E episode_id quality w)).
Proof.
  intros N. split; [|split; [|split]]; intros.
  - apply (budget_resolve N (search_candidate E) (search_endpoints query limit)
             (JList []) w eq_refl).
    intros c. apply budget_candidate. intros response.
    apply budget_finish_sized. unfold search_extract.
    apply budget_extract_step. intros r1. apply budget_py_or.
    apply budget_extract_step. intros d.
    apply budget_extract_step. intros r2. apply budget_py_or.
    apply budget_extract_step. intros r3. apply budget_py_or, budget_lift.
  - apply (budget_resolve N (details_candidate E) (details_endpoints series_id)
             JNull w eq_refl).
    intros c. apply budget_candidate. intros response. apply budget_ret.
  - apply (budget_resolve N (episodes_candidate E limit) (episodes_endpoints series_id)
             (JList []) w eq_refl).
    intros c. apply budget_candidate. intros response.
    apply budget_finish_sized. unfold episodes_extract.
    apply budget_extract_step. intros r1. apply budget_py_or.
    apply budget_extract_step. intros r2. apply budget_py_or, budget_lift.
  - apply (budget_resolve N (stream_candidate E quality) (stream_endpoints E episode_id)
             JNull w eq_refl).
    intros c. apply budget_candidate. intros response.
    apply budget_finish. unfold stream_extract.
    apply budget_extract_step. intros r1. apply budget_py_or, budget_lift.
Qed.

Lemma try_candidates_result {C} (P : json -> Prop) (body : C -> M (option json))
    (cs : list C) :
  (forall c w v w', body c w = (Ok (Some v), w') -> P v) ->
  forall w v w', try_candidates body cs w = (Ok (Some v), w') -> P v.
Proof.
  intros Hb. unfold try_candidates.
  induction cs as [|c cs IH]; intros w v w' Hrun; simpl in Hrun.
  - discriminate.
  - unfold bind, try_except in Hrun.
    destruct (body c w) as [[[x|]|e] w1] eqn:Hc; simpl in Hrun.
    + injection Hrun as <- _. exact (Hb _ _ _ _ Hc).
    + exact (IH _ _ _ Hrun).
    + exact (IH _ _ _ Hrun).
Qed.

Lemma resolve_falsy_iff_unresolved {C} (body : C -> M (option json)) (cs : list C)
    (unresolved : json) (w : world) :
  truthy unresolved = false ->
  (forall c w v w', body c w = (Ok (Some v), w') -> truthy v = true) ->
  falsy_iff_unresolved unresolved
    ((let* r := try_candidates body cs in ret (from_option id unresolved r)) w).
Proof.
  intros Hun Hb.
  destruct (try_candidates_total body cs w) as (r & w' & Hrun).
  rewrite (bind_ok _ _ _ _ _ Hrun). unfold ret. cbn [fst].
  destruct r as [v|]; simpl.
  - exists v. split; [reflexivity|].
    pose proof (try_candidates_result (fun v => truthy v = true) body cs Hb
                  _ _ _ Hrun) as Hv.
    split; [congruence|]. intros ->. congruence.
  - exists unresolved. split; [reflexivity|]. tauto.
Qed.

(** A candidate that ends in a truth test only returns true values. *)
Lemma candidate_returns_truthy (E : env) (endpoint : string)
    (params : list (string * json)) (extract : json -> M json)
    (w w' : world) (v : json) :
  (let* response := _make_request E "GET" endpoint params in
   if truthy response then
     let* x := extract response in
     if truthy x then ret (Some x) else ret None
   else ret None) w = (Ok (Some v), w') ->
  truthy v = true.
Proof.
  unfold bind.
  destruct (_make_request E "GET" endpoint params w) as [[response|e] w1];
    [|discriminate].
  destruct (truthy response); [|discriminate].
  destruct (extract response w1) as [[x|e] w2]; [|discriminate].
  destruct (truthy x) eqn:Hx; [|discriminate].
  intros H. injection H as <- _. exact Hx.
Qed.

(** A candidate that also takes the length of what it returns: only
    true values that have a length come out of it. *)
Lemma candidate_returns_sized (E : env) (endpoint : string)
    (params : list (string * json)) (extract : json -> M json)
    (w w' : world) (v : json) :
  (let* response := _make_request E "GET" endpoint params in
   if truthy response then
     let* x := extract response in
     if truthy x then lift (py_len_check x) ;; ret (Some x) else ret None
   else ret None) w = (Ok (Some v), w') ->
  truthy v = true /\ py_len_check v = Ok tt.
Proof.
  unfold bind, lift, ret.
  destruct (_make_request E "GET" endpoint params w) as [[response|e] w1];
    [|discriminate].
  destruct (truthy response); [|discriminate].
  destruct (extract response w1) as [[x|e] w2]; [|discriminate].
  destruct (truthy x) eqn:Hx; [|discriminate].
  destruct (py_len_check x) as [[]|e] eqn:Hlen; [|discriminate].
  intros H. injection H as <- _. auto.
Qed.

Lemma resolve_has_length {C} (body : C -> M (option json)) (cs : list C) (w : world) :
  (forall c w v w', body c w = (Ok (Some v), w') -> py_len_check v = Ok tt) ->
  has_length ((let* r := try_candidates body cs in ret (from_option id (JList []) r)) w).
Proof.
  intros Hb.
  destruct (try_candidates_total body cs w) as (r & w' & Hrun).
  rewrite (bind_ok _ _ _ _ _ Hrun). unfold ret. cbn [fst].
  destruct r as [v|]; simpl.
  - exists v. split; [reflexivity|].
    exact (try_candidates_result (fun v => py_len_check v = Ok tt) body cs Hb _ _ _ Hrun).
  - exists (JList []). split; reflexivity.
Qed.

(** X6. The result of a resolver operation is false in Python's sense
    exactly when it is the unresolved value: [search_series] and
    [get_episodes] never return an empty dict, string or zero in place of
    [[]], and [get_series_details] and [get_stream_url] never return one in
    place of [None]. A caller's [if not result] tests exactly for
    "unresolved". What [search_series] and [get_episodes] return moreover
    has a length: a number or [True] found under a result key makes
    [len()] raise in the log line, and the path is given up like a failed
    one. *)
Theorem resolver_falsy_iff_unresolved (E : env) (w : world) :
  (forall query limit,
     falsy_iff_unresolved (JList []) (search_series E query limit w) /\
     has_length (search_series E query limit w)) /\
  (forall series_id,
     falsy_iff_unresolved JNull (get_series_details E series_id w)) /\
  (forall series_id limit,
     falsy_iff_unresolved (JList []) (get_episodes E series_id limit w) /\
     has_length (get_episodes E series_id limit w)) /\
  (forall episode_id quality,
     falsy_iff_unresolved JNull (get_stream_url E episode_id quality w)).
Proof.
  split; [|split; [|split]]; intros.
  - split.
    + apply (resolve_falsy_iff_unresolved (search_candidate E)); [reflexivity|].
      intros c w1 v w1' Hc. exact (proj1 (candidate_returns_sized _ _ _ _ _ _ _ Hc)).
    + apply (resolve_has_length (search_candidate E)).
      intros c w1 v w1' Hc. exact (proj2 (candidate_returns_sized _ _ _ _ _ _ _ Hc)).
  - apply (resolve_falsy_iff_unresolved (details_candidate E)); [reflexivity|].
    intros c w1 v w1'. unfold details_candidate, bind.
    destruct (_make_request E "GET" c [] w1) as [[response|e] w2]; [|discriminate].
    destruct (truthy response) eqn:Hr; [|discriminate].
    intros H. injection H as <- _. exact Hr.
  - split.
    + apply (resolve_falsy_iff_unresolved (episodes_candidate E limit)); [reflexivity|].
      intros c w1 v w1' Hc. exact (proj1 (candidate_returns_sized _ _ _ _ _ _ _ Hc)).
    + apply (resolve_has_length (episodes_candidate E limit)).
      intros c w1 v w1' Hc. exact (proj2 (candidate_returns_sized _ _ _ _ _ _ _ Hc)).
  - apply (resolve_falsy_iff_unresolved (stream_candidate E quality)); [reflexivity|].
    intros c w1 v w1'. apply candidate_returns_truthy.
Qed.

(** ** Whole runs of the retry loop *)

(** One attempt from a cursor inside the registry, by the outcome of its
    request. *)
Lemma attempt_body_run (E : env) (method endpoint : string)
    (params : list (string * json)) (attempt : nat) (w : world) (u : string) :
  (current_url_index (api w) < length (base_urls (api w)))%nat ->
  base_urls (api w) !! current_url_index (api w) = Some u ->
  let w2 := log (HttpRequest method (u ++ endpoint) params) w in
  let d := retry_delay (api w) in
  attempt_body E method endpoint params attempt w =
  match on_request E (length (trace w)) method (u ++ endpoint) params with
  | HttpResponse status body =>
      if status =? 200 then
        match body with
        | Ok j => (Ok (Some j), w2)
        | Raise TimeoutError => (Ok None, log (Sleep d) w2)
        | Raise _ => (Ok None, rotated w2)
        end
      else if status =? 404 then (Ok None, rotated w2)
      else if (status =? 429) || (status =? 503)
           then (Ok None, log (Sleep (d * (Z.of_nat attempt + 1))) w2)
           else (Ok None, w2)
  | HttpRaise TimeoutError => (Ok None, log (Sleep d) w2)
  | HttpRaise _ => (Ok None, rotated w2)
  end.
Proof.
  intros Hlt Hu w2 d.
  destruct (get_base_url_in_range w Hlt) as (u' & Hu' & Hurl).
  rewrite Hu in Hu'. injection Hu' as <-.
  assert (Hne2 : base_urls (api w2) <> []).
  { simpl. intros Hnil. rewrite Hnil in Hu. discriminate. }
  pose proof (rotate_url_nonempty w2 Hne2) as Hrot. fold (rotated w2) in Hrot.
  unfold attempt_body, try_except. rewrite (bind_ok _ _ _ _ _ Hurl).
  unfold bind at 1, session_request. fold w2.
  destruct (on_request E (length (trace w)) method (u ++ endpoint) params)
    as [status body|e].
  - destruct (status =? 200).
    + destruct body as [j|e]; [reflexivity|].
      unfold bind at 1, lift.
      destruct e; try (rewrite (bind_ok _ _ _ _ _ Hrot); reflexivity).
      reflexivity.
    + destruct (status =? 404).
      * rewrite (bind_ok _ _ _ _ _ Hrot). reflexivity.
      * destruct ((status =? 429) || (status =? 503)); reflexivity.
  - destruct e; try (rewrite (bind_ok _ _ _ _ _ Hrot); reflexivity).
    reflexivity.
Qed.

Lemma host_after_shift (urls : list string) (i k : nat) :
  host_after urls ((i + 1) mod length urls) k = host_after urls i (S k).
Proof.
  unfold host_after. f_equal.
  rewrite Nat.Div0.add_mod_idemp_l. f_equal. lia.
Qed.

Lemma host_after_zero (urls : list string) (i : nat) :
  (i < length urls)%nat -> host_after urls i 0 = urls !! i.
Proof.
  intros Hi. unfold host_after. rewrite Nat.add_0_r, Nat.mod_small by exact Hi.
  reflexivity.
Qed.

(** The loop over the attempts, when the first [K] requests are answered
    404 and the next one 200 with a body that parses. *)
Lemma attempts_until_live_host (E : env) (method endpoint : string)
    (params : list (string * json)) (j : json) (K : nat) :
  forall (a m : nat) (w : world),
    let urls := base_urls (api w) in
    let i := current_url_index (api w) in
    (i < length urls)%nat ->
    (forall k u, (k < K)%nat -> host_after urls i k = Some u ->
       exists body, on_request E (length (trace w) + k) method (u ++ endpoint) params
                    = HttpResponse 404 body) ->
    (forall u, host_after urls i K = Some u ->
       on_request E (length (trace w) + K) method (u ++ endpoint) params
       = HttpResponse 200 (Ok j)) ->
    exists w',
      for_each (attempt_body E method endpoint params) (seq a (K + S m)) w
        = (Ok (Some j), w') /\
      base_urls (api w') = urls /\
      current_url_index (api w') = ((i + K) mod length urls)%nat /\
      fs w' = fs w /\
      trace w' = (trace w ++ map (request_after urls i method endpoint params)
                               (seq 0 (S K)))%list.
Proof.
  induction K as [|K IH]; intros a m w urls i Hi H404 H200.
  - destruct (lookup_lt_is_Some_2 _ _ Hi) as [u Hu].
    assert (Hh : host_after urls i 0 = Some u)
      by (rewrite host_after_zero by exact Hi; exact Hu).
    simpl seq. cbn [for_each]. unfold bind.
    rewrite (attempt_body_run E method endpoint params a w u Hi Hu).
    specialize (H200 u Hh). rewrite Nat.add_0_r in H200. rewrite H200.
    change (200 =? 200) with true. cbv iota.
    eexists. split; [reflexivity|]. simpl.
    fold urls i. rewrite Nat.add_0_r, Nat.mod_small by exact Hi.
    repeat split. unfold request_after. rewrite Hh. reflexivity.
  - destruct (lookup_lt_is_Some_2 _ _ Hi) as [u Hu].
    assert (Hh : host_after urls i 0 = Some u)
      by (rewrite host_after_zero by exact Hi; exact Hu).
    change (seq a (S K + S m)) with (a :: seq (S a) (K + S m)).
    cbn [for_each]. unfold bind at 1.
    rewrite (attempt_body_run E method endpoint params a w u Hi Hu).
    destruct (H404 0%nat u ltac:(lia) Hh) as [body Ho].
    rewrite Nat.add_0_r in Ho. rewrite Ho.
    change (404 =? 200) with false. change (404 =? 404) with true. cbv iota.
    set (w2 := rotated (log (HttpRequest method (u ++ endpoint) params) w)).
    assert (Hn : length urls <> 0%nat) by lia.
    destruct (IH (S a) m w2) as (w' & Hrun & Hurls & Hcur & Hfs & Htr).
    + simpl. fold urls. apply Nat.mod_upper_bound. exact Hn.
    + intros k u' Hk Hu'. simpl in Hu'. fold urls i in Hu'.
      rewrite host_after_shift in Hu'.
      destruct (H404 (S k) u' ltac:(lia) Hu') as [body' Ho'].
      exists body'. simpl. rewrite length_app. simpl.
      rewrite <- Ho'. f_equal. lia.
    + intros u' Hu'. simpl in Hu'. fold urls i in Hu'.
      rewrite host_after_shift in Hu'.
      simpl. rewrite length_app. simpl.
      rewrite <- (H200 u' Hu'). f_equal. lia.
    + exists w'. split; [exact Hrun|].
      change (base_urls (api w2)) with urls in Hurls, Hcur, Htr.
      change (current_url_index (api w2)) with ((i + 1) mod length urls)%nat
        in Hcur, Htr.
      change (trace w2)
        with (trace w ++ [HttpRequest method (u ++ endpoint) params])%list in Htr.
      change (fs w2) with (fs w) in Hfs.
      split; [exact Hurls|]. split.
      * rewrite Hcur, Nat.Div0.add_mod_idemp_l. f_equal. lia.
      * split; [exact Hfs|]. rewrite Htr, <- app_assoc. f_equal.
        change (seq 0 (S (S K))) with (0%nat :: seq 1 (S K)).
        rewrite <- seq_shift. cbn [map app]. rewrite map_map.
        f_equal.
        -- unfold request_after. rewrite Hh. reflexivity.
        -- apply map_ext. intros k. unfold request_after.
           rewrite host_after_shift. reflexivity.
Qed.

(** X4. When the hosts met from the cursor on answer 404 for the first [K]
    requests and the next host answers 200 with a body that parses, and
    [K] is less than [retry_attempts], [_make_request] returns that body
    after exactly [K + 1] requests, one per host in registry order, without
    any sleep, and leaves the cursor on the host that answered. *)
Theorem make_request_finds_live_host (E : env) (method endpoint : string)
    (params : list (string * json)) (w : world) (K : nat) (j : json) :
  let urls := base_urls (api w) in
  let i := current_url_index (api w) in
  (i < length urls)%nat ->
  (K < retry_attempts (api w))%nat ->
  (forall k u, (k < K)%nat -> host_after urls i k = Some u ->
     exists body, on_request E (length (trace w) + k) method (u ++ endpoint) params
                  = HttpResponse 404 body) ->
  (forall u, host_after urls i K = Some u ->
     on_request E (length (trace w) + K) method (u ++ endpoint) params
     = HttpResponse 200 (Ok j)) ->
  exists w',
    _make_request E method endpoint params w = (Ok j, w') /\
    current_url_index (api w') = ((i + K) mod length urls)%nat /\
    fs w' = fs w /\
    trace w' = (trace w ++ map (request_after urls i method endpoint params)
                             (seq 0 (S K)))%list.
Proof.
  intros urls i Hi HK H404 H200.
  unfold _make_request, bind at 1, get_world.
  replace (retry_attempts (api w))
    with (K + S (retry_attempts (api w) - S K))%nat by lia.
  destruct (attempts_until_live_host E method endpoint params j K 0
              (retry_attempts (api w) - S K) w Hi H404 H200)
    as (w' & Hrun & _ & Hcur & Hfs & Htr).
  exists w'. rewrite (bind_ok _ _ _ _ _ Hrun). auto.
Qed.

Lemma make_request_finds_live_host_witness :
  exists w',
    _make_request two_dead_hosts_env "GET" "/x" [] world0
      = (Ok (JDict [("url", JStr "http://cdn/ep_1.mp3")]), w') /\
    current_url_index (api w') = 2%nat /\
    fs w' = fs world0 /\
    trace w' = [ HttpRequest "GET" "https://api.pocketfm.in/x" [];
                 HttpRequest "GET" "https://api.pocketfm.com/x" [];
                 HttpRequest "GET" "https://api-cdn.pocketfm.com/x" [] ].
Proof.
  refine (make_request_finds_live_host two_dead_hosts_env "GET" "/x" [] world0 2
            (JDict [("url", JStr "http://cdn/ep_1.mp3")]) _ _ _ _).
  - simpl. lia.
  - cbv. lia.
  - intros k u Hk Hu. destruct k as [|[|k]]; [| |lia];
      vm_compute in Hu; injection Hu as <-; eexists; reflexivity.
  - intros u Hu. vm_compute in Hu. injection Hu as <-. reflexivity.
Defined.

(** The loop over the attempts against a host that answers 429 or 503 to
    every request. *)
Lemma attempts_throttled (E : env) (method endpoint : string)
    (params : list (string * json)) (u : string) (m : nat) :
  forall (a : nat) (w : world),
    (current_url_index (api w) < length (base_urls (api w)))%nat ->
    base_urls (api w) !! current_url_index (api w) = Some u ->
    (forall k, (k < m)%nat ->
       exists status body,
         on_request E (length (trace w) + 2 * k) method (u ++ endpoint) params
         = HttpResponse status body /\ (status = 429 \/ status = 503)) ->
    exists w',
      for_each (attempt_body E method endpoint params) (seq a m) w = (Ok None, w') /\
      api w' = api w /\ fs w' = fs w /\
      trace w' =
        (trace w ++
         flat_map (fun k => [HttpRequest method (u ++ endpoint) params;
                             Sleep (retry_delay (api w) * (Z.of_nat k + 1))])
                  (seq a m))%list.
Proof.
  induction m as [|m IH]; intros a w Hi Hu Hthr.
  - exists w. simpl. rewrite app_nil_r. auto.
  - change (seq a (S m)) with (a :: seq (S a) m).
    cbn [for_each flat_map]. unfold bind at 1.
    rewrite (attempt_body_run E method endpoint params a w u Hi Hu).
    destruct (Hthr 0%nat ltac:(lia)) as (status & body & Ho & Hs).
    rewrite Nat.mul_0_r, Nat.add_0_r in Ho. rewrite Ho.
    set (w2 := log (Sleep (retry_delay (api w) * (Z.of_nat a + 1)))
                   (log (HttpRequest method (u ++ endpoint) params) w)).
    assert (Hstep : (if status =? 200 then
               match body with
               | Ok j => (Ok (Some j), log (HttpRequest method (u ++ endpoint) params) w)
               | Raise TimeoutError =>
                   (Ok None, log (Sleep (retry_delay (api w)))
                               (log (HttpRequest method (u ++ endpoint) params) w))
               | Raise _ =>
                   (Ok None, rotated (log (HttpRequest method (u ++ endpoint) params) w))
               end
             else if status =? 404
                  then (Ok None,
                        rotated (log (HttpRequest method (u ++ endpoint) params) w))
                  else if (status =? 429) || (status =? 503)
                       then (Ok None, w2)
                       else (Ok None,
                             log (HttpRequest method (u ++ endpoint) params) w))
            = (Ok None, w2)).
    { destruct Hs as [-> | ->]; reflexivity. }
    rewrite Hstep.
    destruct (IH (S a) w2) as (w' & Hrun & Hapi & Hfs & Htr).
    + exact Hi.
    + exact Hu.
    + intros k Hk. destruct (Hthr (S k) ltac:(lia)) as (st & bd & Ho' & Hs').
      exists st, bd. split; [|exact Hs'].
      rewrite <- Ho'. f_equal. simpl. rewrite !length_app. simpl. lia.
    + exists w'. split; [exact Hrun|].
      change (api w2) with (api w) in Hapi, Htr.
      change (fs w2) with (fs w) in Hfs.
      split; [exact Hapi|]. split; [exact Hfs|].
      rewrite Htr. unfold w2. simpl. rewrite <- !app_assoc. reflexivity.
Qed.

(** X5. When a host answers 429 or 503 to every request, [_make_request]
    asks that same host [retry_attempts] times, sleeping [retry_delay],
    twice [retry_delay], three times and so on after the requests, never
    rotates the cursor, and returns [None]. *)
Theorem make_request_linear_backoff (E : env) (method endpoint : string)
    (params : list (string * json)) (w : world) (u : string) :
  (current_url_index (api w) < length (base_urls (api w)))%nat ->
  base_urls (api w) !! current_url_index (api w) = Some u ->
  (forall k, (k < retry_attempts (api w))%nat ->
     exists status body,
       on_request E (length (trace w) + 2 * k) method (u ++ endpoint) params
       = HttpResponse status body /\ (status = 429 \/ status = 503)) ->
  exists w',
    _make_request E method endpoint params w = (Ok JNull, w') /\
    api w' = api w /\ fs w' = fs w /\
    trace w' = (trace w ++ backoff_trace (HttpRequest method (u ++ endpoint) params)
                             (retry_delay (api w)) (retry_attempts (api w)))%list.
Proof.
  intros Hi Hu Hthr.
  destruct (attempts_throttled E method endpoint params u (retry_attempts (api w))
              0 w Hi Hu Hthr) as (w' & Hrun & Hapi & Hfs & Htr).
  exists w'. unfold _make_request, bind at 1, get_world.
  rewrite (bind_ok _ _ _ _ _ Hrun). auto.
Qed.

Lemma make_request_linear_backoff_witness :
  exists w',
    _make_request (fixed_env (HttpResponse 429 (Raise ValueError)) no_download)
                  "GET" "/x" [] world0 = (Ok JNull, w') /\
    api w' = api world0 /\ fs w' = fs world0 /\
    trace w' = [ HttpRequest "GET" "https://api.pocketfm.in/x" []; Sleep 2;
                 HttpRequest "GET" "https://api.pocketfm.in/x" []; Sleep 4;
                 HttpRequest "GET" "https://api.pocketfm.in/x" []; Sleep 6 ].
Proof.
  refine (make_request_linear_backoff
            (fixed_env (HttpResponse 429 (Raise ValueError)) no_download)
            "GET" "/x" [] world0 "https://api.pocketfm.in" _ eq_refl _).
  - simpl. lia.
  - intros k _. exists 429, (Raise ValueError). auto.
Defined.

(** ** A stream URL at the first try *)

(** X8. When the host under the cursor answers the first candidate path of
    [get_stream_url] with a 200 whose body is a dict holding a true "url",
    or else a true "stream_url", the operation returns that value after a
    single request: no other path, host or attempt is tried. *)
Theorem get_stream_url_first_try (E : env) (episode_id : json) (quality : string)
    (w : world) (u : string) (kv : list (string * json)) :
  let endpoint := "/api/v1/episodes/" ++ py_str E episode_id ++ "/stream" in
  let request := HttpRequest "GET" (u ++ endpoint) [("quality", JStr quality)] in
  (current_url_index (api w) < length (base_urls (api w)))%nat ->
  base_urls (api w) !! current_url_index (api w) = Some u ->
  (0 < retry_attempts (api w))%nat ->
  on_request E (length (trace w)) "GET" (u ++ endpoint) [("quality", JStr quality)]
    = HttpResponse 200 (Ok (JDict kv)) ->
  kv <> [] ->
  truthy (stream_pick kv) = true ->
  get_stream_url E episode_id quality w = (Ok (stream_pick kv), log request w).
Proof.
  intros endpoint request Hi Hu Hra Ho Hkv Hpick.
  assert (Hreq : _make_request E "GET" endpoint [("quality", JStr quality)] w
                 = (Ok (JDict kv), log request w)).
  { unfold _make_request. unfold bind at 1, get_world.
    destruct (retry_attempts (api w)) as [|n]; [lia|].
    change (seq 0 (S n)) with (0%nat :: seq 1 n). cbn [for_each].
    unfold bind.
    rewrite (attempt_body_run E "GET" endpoint _ 0 w u Hi Hu), Ho.
    reflexivity. }
  unfold get_stream_url, stream_endpoints, try_candidates. cbn [for_each].
  fold endpoint.
  unfold bind at 1. unfold bind at 1. unfold try_except at 1.
  unfold stream_candidate at 1. rewrite (bind_ok _ _ _ _ _ Hreq).
  assert (Htrue : truthy (JDict kv) = true) by (destruct kv; [congruence | reflexivity]).
  rewrite Htrue.
  assert (Hex : stream_extract (JDict kv) (log request w)
                = (Ok (stream_pick kv), log request w)).
  { unfold stream_extract, stream_pick, bind, lift, py_or, py_get.
    destruct (truthy (from_option id JNull (dict_lookup kv "url"))); reflexivity. }
  rewrite (bind_ok _ _ _ _ _ Hex), Hpick. reflexivity.
Qed.

Lemma get_stream_url_first_try_witness :
  get_stream_url upload_fails_env (JStr "ep_1") "high" world0
  = (Ok (JStr "http://cdn/ep_1.mp3"),
     log (HttpRequest "GET" "https://api.pocketfm.in/api/v1/episodes/ep_1/stream"
                      [("quality", JStr "high")]) world0).
Proof.
  refine (get_stream_url_first_try upload_fails_env (JStr "ep_1") "high" world0
            "https://api.pocketfm.in" [("url", JStr "http://cdn/ep_1.mp3")]
            _ eq_refl _ eq_refl _ eq_refl).
  - simpl. lia.
  - cbv. lia.
  - discriminate.
Defined.

(** * Further properties of the transfer engine *)

Lemma file_write_fs (E : env) (filepath : string) (chunk : list Byte.byte)
    (w w' : world) (r : Res unit) :
  file_write E filepath chunk w = (r, w') ->
  (r = Ok tt /\
   fs w' = <[filepath := (from_option id [] (fs w !! filepath) ++ chunk)%list]> (fs w))
  \/ ((exists e, r = Raise e) /\ fs w' = fs w).
Proof.
  unfold file_write, bind, external, modify.
  destruct (on_call E _ _); intros H; injection H as <- <-; [right | left]; eauto.
Qed.

Lemma callback_step_keeps_files (cb : option callback) (total_size : Z)
    (progress : Q) (downloaded : Z) :
  callback_keeps_files cb ->
  keeps_files
    (match cb with
     | Some f =>
         if total_size >? 0 then
           modify (log (Progress progress downloaded total_size)) ;;
           f progress downloaded total_size
         else ret tt
     | None => ret tt
     end).
Proof.
  intros Hcb. unfold keeps_files.
  destruct cb as [f|]; [|intros w r w' H; injection H as _ <-; reflexivity].
  destruct (total_size >? 0); [|intros w r w' H; injection H as _ <-; reflexivity].
  intros w r w' H. unfold bind, modify in H.
  exact (Hcb f eq_refl _ _ _ _ _ _ H).
Qed.

(** The chunk loop appends whole chunks to the destination: after any run
    the file holds what it held plus the first [k] chunks, all of them when
    the loop completes. *)
Lemma write_chunks_file (E : env) (filepath : string) (cb : option callback)
    (total_size : Z) (chunks : list (Q * list Byte.byte)) :
  callback_keeps_files cb ->
  forall (downloaded : Z) (w w' : world) (r : Res unit) (data : list Byte.byte),
    fs w !! filepath = Some data ->
    write_chunks E filepath cb total_size chunks downloaded w = (r, w') ->
    exists k, (k <= length chunks)%nat /\
              fs w' = <[filepath := (data ++ body_of k chunks)%list]> (fs w) /\
              (r = Ok tt -> k = length chunks).
Proof.
  intros Hcb. induction chunks as [|[t chunk] rest IH];
    intros downloaded w w' r data Hdata Hrun.
  - injection Hrun as <- <-. exists 0%nat. split; [lia|]. split; [|reflexivity].
    unfold body_of. simpl. rewrite app_nil_r. symmetry. apply insert_id. exact Hdata.
  - cbn [write_chunks] in Hrun. unfold bind at 1, modify at 1 in Hrun.
    unfold bind at 1 in Hrun.
    destruct (file_write E filepath chunk (set_loop_time t w)) as [rw w2] eqn:Hw.
    destruct (file_write_fs _ _ _ _ _ _ Hw) as [[-> Hfs2] | [[e ->] Hfs2]];
      simpl in Hfs2.
    + rewrite Hdata in Hfs2. simpl in Hfs2.
      unfold bind at 1 in Hrun.
      match type of Hrun with
      | context [match ?c w2 with _ => _ end] =>
          destruct (c w2) as [rc w3] eqn:Hc;
          pose proof (callback_step_keeps_files cb total_size _ _ Hcb _ _ _ Hc) as Hfs3
      end.
      simpl in Hfs3.
      destruct rc as [[]|e].
      * assert (Hdata3 : fs w3 !! filepath = Some (data ++ chunk)%list)
          by (rewrite Hfs3, Hfs2; apply lookup_insert_eq).
        destruct (IH _ w3 w' r (data ++ chunk)%list Hdata3 Hrun)
          as (k & Hk & Hfs & Hall).
        exists (S k). split; [simpl; lia|]. split.
        -- rewrite Hfs, Hfs3, Hfs2, insert_insert_eq. f_equal.
           unfold body_of. simpl. rewrite <- app_assoc. reflexivity.
        -- intros Hr. simpl. f_equal. exact (Hall Hr).
      * injection Hrun as <- <-. exists 1%nat. split; [simpl; lia|]. split.
        -- rewrite Hfs3, Hfs2. f_equal. unfold body_of. simpl.
           destruct rest; simpl; rewrite app_nil_r; reflexivity.
        -- discriminate.
    + injection Hrun as <- <-. exists 0%nat. split; [lia|]. split; [|discriminate].
      rewrite Hfs2. unfold body_of. simpl. rewrite app_nil_r.
      symmetry. apply insert_id. exact Hdata.
Qed.

Lemma file_open_fs (E : env) (filepath : string) (w w' : world) :
  file_open E filepath w = (Ok tt, w') ->
  fs w' = <[filepath := []]> (fs w).
Proof.
  unfold file_open, bind, external, modify.
  destruct (on_call E _ _); intros H; [discriminate|]. injection H as <-. reflexivity.
Qed.

Lemma session_get_inv (E : env) (url : json) (w w' : world) (r : Res get_response) :
  session_get E url w = (r, w') ->
  w' = log (HttpGet url) w /\
  match r with
  | Ok resp => on_get E (length (trace w)) url = GetResponse resp
  | Raise e => on_get E (length (trace w)) url = GetRaise e
  end.
Proof.
  unfold session_get. destruct (on_get E _ _); intros H; injection H as <- <-; auto.
Qed.

Lemma download_complete (E : env) (url : json) (filepath : string)
    (cb : option callback) (w w' : world) :
  callback_keeps_files cb ->
  download_file E url filepath cb w = (Ok true, w') ->
  exists r,
    on_get E (length (trace w)) url = GetResponse r /\
    (dl_status r = 200 \/ dl_status r = 206) /\
    dl_stream_error r = None /\
    fs w' = <[filepath := body_of (length (dl_chunks r)) (dl_chunks r)]> (fs w).
Proof.
  intros Hcb Hrun. unfold download_file, try_except in Hrun.
  unfold bind at 1 in Hrun.
  destruct (session_get E url w) as [[r|e] w1] eqn:Hget; [|discriminate].
  destruct (session_get_inv _ _ _ _ _ Hget) as [-> Hon].
  exists r. split; [exact Hon|].
  destruct ((dl_status r =? 200) || (dl_status r =? 206)) eqn:Hst; [|discriminate].
  split.
  { apply orb_true_iff in Hst. destruct Hst as [H|H]; apply Z.eqb_eq in H; auto. }
  unfold bind at 1, lift in Hrun.
  destruct (content_length (dl_content_length r)) as [total_size|e]; [|discriminate].
  unfold bind at 1 in Hrun.
  destruct (file_open E filepath (log (HttpGet url) w)) as [[[]|e] w2] eqn:Hopen;
    [|discriminate].
  pose proof (file_open_fs _ _ _ _ Hopen) as Hfs2. simpl in Hfs2.
  unfold bind at 1 in Hrun.
  destruct (write_chunks E filepath cb total_size (dl_chunks r) 0 w2)
    as [[[]|e] w3] eqn:Hwc; [|discriminate].
  destruct (write_chunks_file E filepath cb total_size (dl_chunks r) Hcb 0 w2 w3
              (Ok tt) [] ltac:(rewrite Hfs2; apply lookup_insert_eq) Hwc)
    as (k & _ & Hfs3 & Hall).
  rewrite (Hall eq_refl) in Hfs3.
  destruct (dl_stream_error r); [discriminate|].
  injection Hrun as <-. split; [reflexivity|].
  rewrite Hfs3, Hfs2, insert_insert_eq. reflexivity.
Qed.

(** X9. [download_file] returns [True] only after the whole body went to the
    destination: the response had status 200 or 206, its stream ended
    without error, and the destination holds exactly the chunks received,
    in order; every file call made on the way names the destination. *)
Theorem download_true_means_complete (E : env) (url : json) (filepath : string)
    (cb : option callback) (w w' : world) :
  callback_keeps_files cb ->
  callback_calls_on filepath cb ->
  download_file E url filepath cb w = (Ok true, w') ->
  exists r,
    on_get E (length (trace w)) url = GetResponse r /\
    (dl_status r = 200 \/ dl_status r = 206) /\
    dl_stream_error r = None /\
    fs w' !! filepath = Some (body_of (length (dl_chunks r)) (dl_chunks r)) /\
    Forall (file_call_on filepath) (new_calls w w').
Proof.
  intros Hkeep Hcalls Hrun.
  destruct (download_complete E url filepath cb w w' Hkeep Hrun)
    as (r & Hget & Hst & Herr & Hfs).
  exists r. repeat split; try assumption.
  - rewrite Hfs. apply lookup_insert_eq.
  - destruct (calls_download_file E filepath (file_call_on filepath)
                (fun c _ Hc => Hc) url cb Hcalls _ _ _ Hrun) as [_ [l [Hl Hall]]].
    rewrite (new_calls_app _ _ _ Hl). exact Hall.
Qed.

Lemma download_progress_keeps_files (E : env) (title : json) :
  callback_keeps_files (Some (download_progress E title)).
Proof.
  intros f Hf. injection Hf as <-. intros p d t w r w' H.
  rewrite download_progress_run in H. injection H as _ <-.
  destruct (Qgtb _ 2); reflexivity.
Qed.

Lemma download_progress_calls_on (E : env) (path : string) (title : json) :
  callback_calls_on path (Some (download_progress E title)).
Proof.
  intros f Hf. injection Hf as <-. intros p d t.
  apply (calls_download_progress E path). intros c _ Hc. exact Hc.
Qed.

Lemma download_progress_never_raises (E : env) (title : json) :
  callback_never_raises (Some (download_progress E title)).
Proof.
  intros f Hf. injection Hf as <-. intros p d t w.
  rewrite download_progress_run. eauto.
Qed.

Lemma download_true_means_complete_witness :
  let E := upload_fails_env in
  let run := download_file E (JStr "http://cdn/ep_1.mp3") "downloads/ep_1.mp3"
               (Some (download_progress E (JStr "Test"))) world0 in
  fst run = Ok true /\
  exists r,
    on_get E (length (trace world0)) (JStr "http://cdn/ep_1.mp3") = GetResponse r /\
    (dl_status r = 200 \/ dl_status r = 206) /\
    dl_stream_error r = None /\
    fs (snd run) !! "downloads/ep_1.mp3"
    = Some (body_of (length (dl_chunks r)) (dl_chunks r)) /\
    Forall (file_call_on "downloads/ep_1.mp3") (new_calls world0 (snd run)).
Proof.
  intros E run. split; [vm_compute; reflexivity|].
  apply (download_true_means_complete E (JStr "http://cdn/ep_1.mp3")
           "downloads/ep_1.mp3" (Some (download_progress E (JStr "Test")))
           world0 (snd run) (download_progress_keeps_files E (JStr "Test"))
           (download_progress_calls_on E "downloads/ep_1.mp3" (JStr "Test"))).
  vm_compute. reflexivity.
Defined.

(** X10. When the request of [download_file] raises, or the response
    carries a content-length that [int()] cannot read, the function returns
    [False] having made the request only: no file is opened, whatever the
    status was. *)
Theorem download_unreadable_size (E : env) (url : json) (filepath : string)
    (cb : option callback) (w : world) :
  (exists e, on_get E (length (trace w)) url = GetRaise e) \/
  (exists r, on_get E (length (trace w)) url = GetResponse r /\
             dl_content_length r = Malformed) ->
  download_file E url filepath cb w = (Ok false, log (HttpGet url) w).
Proof.
  intros [[e Hget] | (r & Hget & Hbad)];
    unfold download_file, try_except, bind, session_get; rewrite Hget.
  - reflexivity.
  - destruct ((dl_status r =? 200) || (dl_status r =? 206)); [|reflexivity].
    unfold lift. rewrite Hbad. reflexivity.
Qed.

Lemma download_unreadable_size_witness :
  download_file (fixed_env (HttpRaise TimeoutError) (GetResponse bad_header))
                (JStr "http://cdn/a.mp3") "downloads/a.mp3" None world0
  = (Ok false, log (HttpGet (JStr "http://cdn/a.mp3")) world0).
Proof.
  apply download_unreadable_size. right. exists bad_header. split; reflexivity.
Defined.

(** X11. [download_file] never removes what it wrote. Once the destination
    has been opened, the function returns (it does not raise) and the
    destination exists afterwards, holding the first [k] chunks of the
    stream for some [k]: all of them when the result is [True], possibly
    fewer, down to an empty file, when it is [False]. No call removes a
    file, and every file call names the destination. *)
Theorem download_leaves_partial_file (E : env) (url : json) (filepath : string)
    (cb : option callback) (w : world) (r : get_response) (total_size : Z) :
  callback_keeps_files cb ->
  callback_calls_on filepath cb ->
  on_get E (length (trace w)) url = GetResponse r ->
  dl_status r = 200 \/ dl_status r = 206 ->
  content_length (dl_content_length r) = Ok total_size ->
  on_call E (S (length (trace w))) (FileOpen filepath) = None ->
  let run := download_file E url filepath cb w in
  exists b k,
    fst run = Ok b /\
    (k <= length (dl_chunks r))%nat /\
    fs (snd run) !! filepath = Some (body_of k (dl_chunks r)) /\
    (b = true -> k = length (dl_chunks r)) /\
    Forall (file_call_on filepath) (new_calls w (snd run)).
Proof.
  intros Hcb Hcalls Hget Hst Hlen Hopen run.
  assert (Hfiles : Forall (file_call_on filepath) (new_calls w (snd run))).
  { subst run. destruct (download_file E url filepath cb w) as [b w'] eqn:Hrun.
    destruct (calls_download_file E filepath (file_call_on filepath)
                (fun c _ Hc => Hc) url cb Hcalls _ _ _ Hrun) as [_ [l [Hl Hall]]].
    cbn [snd]. rewrite (new_calls_app _ _ _ Hl). exact Hall. }
  revert Hfiles. unfold run.
  rewrite (download_file_unfold E url filepath cb w r total_size Hget Hlen).
  assert (Hok : (dl_status r =? 200) || (dl_status r =? 206) = true).
  { apply orb_true_iff. destruct Hst as [H|H]; rewrite H; auto. }
  rewrite Hok.
  assert (Hfo : file_open E filepath (log (HttpGet url) w)
                = (Ok tt, set_fs (<[filepath := []]> (fs w))
                                 (log (FileOpen filepath) (log (HttpGet url) w)))).
  { unfold file_open, bind, external, modify. simpl.
    rewrite length_app. simpl. rewrite Nat.add_1_r, Hopen. reflexivity. }
  rewrite Hfo.
  set (w2 := set_fs _ _).
  destruct (write_chunks E filepath cb total_size (dl_chunks r) 0 w2)
    as [rw w3] eqn:Hwc.
  destruct (write_chunks_file E filepath cb total_size (dl_chunks r) Hcb 0 w2 w3 rw []
              ltac:(simpl; apply lookup_insert_eq) Hwc) as (k & Hk & Hfs3 & Hall).
  simpl in Hfs3. rewrite insert_insert_eq in Hfs3.
  assert (Hat : fs w3 !! filepath = Some (body_of k (dl_chunks r)))
    by (rewrite Hfs3; apply lookup_insert_eq).
  destruct rw as [[]|e]; simpl; intros Hfiles.
  - exists (match dl_stream_error r with Some _ => false | None => true end), k.
    destruct (dl_stream_error r); repeat split; auto.
  - exists false, k. repeat split; auto. discriminate.
Qed.

Lemma download_leaves_partial_file_witness :
  let E := fixed_env (HttpRaise TimeoutError) (GetResponse broken_stream) in
  let run := download_file E (JStr "http://cdn/a.mp3") "downloads/a.mp3" None world0 in
  fst run = Ok false /\
  fs (snd run) !! "downloads/a.mp3" = Some [Byte.x01; Byte.x02] /\
  exists b k,
    fst run = Ok b /\
    (k <= length (dl_chunks broken_stream))%nat /\
    fs (snd run) !! "downloads/a.mp3" = Some (body_of k (dl_chunks broken_stream)) /\
    (b = true -> k = length (dl_chunks broken_stream)) /\
    Forall (file_call_on "downloads/a.mp3") (new_calls world0 (snd run)).
Proof.
  intros E run. split; [vm_compute; reflexivity|]. split; [vm_compute; reflexivity|].
  refine (download_leaves_partial_file E (JStr "http://cdn/a.mp3") "downloads/a.mp3"
            None world0 broken_stream 4 _ _ eq_refl _ eq_refl eq_refl).
  - intros f Hf. discriminate.
  - intros f Hf. discriminate.
  - left. reflexivity.
Defined.

(** With a destination that can be written and a callback that returns, the
    chunk loop completes. *)
Lemma write_chunks_completes (E : env) (filepath : string) (cb : option callback)
    (total_size : Z) (chunks : list (Q * list Byte.byte)) :
  writable E filepath -> callback_never_raises cb ->
  forall downloaded w,
    exists w', write_chunks E filepath cb total_size chunks downloaded w = (Ok tt, w').
Proof.
  intros [_ Hwrite] Hcb. induction chunks as [|[t chunk] rest IH]; intros downloaded w.
  - exists w. reflexivity.
  - cbn [write_chunks]. unfold bind at 1, modify at 1. unfold bind at 1.
    assert (Hw : exists w2, file_write E filepath chunk (set_loop_time t w) = (Ok tt, w2)).
    { unfold file_write, bind, external, modify. rewrite Hwrite. eauto. }
    destruct Hw as [w2 ->]. unfold bind at 1.
    assert (Hc : exists w3,
               match cb with
               | Some f =>
                   if total_size >? 0 then
                     modify (log (Progress
                                    (percent_of (downloaded + Z.of_nat (length chunk))
                                                total_size)
                                    (downloaded + Z.of_nat (length chunk)) total_size)) ;;
                     f (percent_of (downloaded + Z.of_nat (length chunk)) total_size)
                       (downloaded + Z.of_nat (length chunk)) total_size
                   else ret tt
               | None => ret tt
               end w2 = (Ok tt, w3)).
    { destruct cb as [f|]; [|unfold ret; eauto].
      destruct (total_size >? 0); [|unfold ret; eauto].
      unfold bind, modify. apply (Hcb f eq_refl). }
    destruct Hc as [w3 ->]. apply IH.
Qed.

Lemma download_succeeds (E : env) (url : json) (filepath : string)
    (title : json) (w : world) (r : get_response) :
  on_get E (length (trace w)) url = GetResponse r ->
  good_response r ->
  writable E filepath ->
  fst (download_file E url filepath (Some (download_progress E title)) w) = Ok true.
Proof.
  intros Hget (Hst & Hlen & Herr) Hwr.
  assert (Hparse : exists total_size,
             content_length (dl_content_length r) = Ok total_size).
  { destruct (dl_content_length r); [eexists; reflexivity | congruence
                                     | eexists; reflexivity]. }
  destruct Hparse as [total_size Hparse].
  rewrite (download_file_unfold E url filepath _ w r total_size Hget Hparse).
  assert (Hok : (dl_status r =? 200) || (dl_status r =? 206) = true).
  { apply orb_true_iff. destruct Hst as [H|H]; rewrite H; auto. }
  rewrite Hok.
  assert (Hfo : exists w2, file_open E filepath (log (HttpGet url) w) = (Ok tt, w2)).
  { unfold file_open, bind, external, modify. rewrite (proj1 Hwr). eauto. }
  destruct Hfo as [w2 ->].
  destruct (write_chunks_completes E filepath (Some (download_progress E title))
              total_size (dl_chunks r) Hwr (download_progress_never_raises E title)
              0 w2) as [w3 ->].
  rewrite Herr. reflexivity.
Qed.

(** X12. A download driven by the dispatcher's callback does not depend on
    Telegram: when the response is acceptable and the destination can be
    written, [download_file] returns [True] whether or not the status edits
    made by the callback fail. *)
Theorem download_ignores_edit_failures (E : env) (url : json) (filepath : string)
    (title : json) (w : world) (r : get_response) :
  on_get E (length (trace w)) url = GetResponse r ->
  good_response r ->
  writable E filepath ->
  fst (download_file E url filepath (Some (download_progress E title)) w) = Ok true.
Proof. apply download_succeeds. Qed.

Lemma download_ignores_edit_failures_witness :
  fst (download_file telegram_down_env (JStr "http://cdn/ep_1.mp3")
         "downloads/ep_1.mp3"
         (Some (download_progress telegram_down_env (JStr "Test"))) world0)
  = Ok true.
Proof.
  refine (download_ignores_edit_failures telegram_down_env (JStr "http://cdn/ep_1.mp3")
            "downloads/ep_1.mp3" (JStr "Test") world0 served eq_refl _ _).
  - split; [left; reflexivity|]. split; [discriminate | reflexivity].
  - split; intros; reflexivity.
Defined.

(** * Further properties of the dispatcher *)

(** X13. When the first status message cannot be sent, [_process_item]
    gives the item up at once and silently: it returns normally after that
    single call, without any request to the API and without touching a
    file. *)
Theorem process_item_unreachable_requester (E : env) (item : work_item) (w : world)
    (episode_id episode_title : json) (e : exn) :
  py_get (episode item) "id" (JStr "unknown") = Ok episode_id ->
  py_get (episode item) "title" (JStr "Unknown Episode") = Ok episode_title ->
  on_call E (length (trace w)) (SendMessage (user_id item) (TxtGettingUrl episode_title))
    = Some e ->
  _process_item E item w
  = (Ok tt, log (SendMessage (user_id item) (TxtGettingUrl episode_title)) w).
Proof.
  intros Hid Htitle Hfail. unfold _process_item.
  unfold bind at 1, lift. rewrite Hid. unfold bind at 1. rewrite Htitle.
  unfold bind at 1, try_except at 1. unfold bind at 1, external at 1.
  rewrite Hfail. reflexivity.
Qed.

Lemma process_item_unreachable_requester_witness :
  _process_item telegram_down_env item_1 world0
  = (Ok tt, log (SendMessage 7 (TxtGettingUrl (JStr "Test"))) world0).
Proof.
  exact (process_item_unreachable_requester telegram_down_env item_1 world0
           (JStr "ep_1") (JStr "Test") (OtherError "FloodWait")
           eq_refl eq_refl eq_refl).
Defined.

(** ** The only file an item touches *)

(** X14. Processing an item opens, writes, uploads and removes one file
    only, the destination computed from the episode id: whatever the API,
    Telegram and the file calls do, and however the item ends, every call
    made on a file names that path. *)
Theorem process_item_touches_only_its_file (E : env) (item : work_item)
    (w w' : world) (r : Res unit) (episode_id : json) :
  py_get (episode item) "id" (JStr "unknown") = Ok episode_id ->
  _process_item E item w = (r, w') ->
  Forall (file_call_on (item_path E episode_id)) (new_calls w w').
Proof.
  intros Hid Hrun.
  destruct (process_item_calls E (file_call_on (item_path E episode_id)) item w w' r)
    as [l [Hl Hall]]; [| exact Hrun |].
  - intros episode_id' Hid' c _ Hc. rewrite Hid in Hid'. injection Hid' as <-. exact Hc.
  - rewrite (new_calls_app _ _ _ Hl). apply Forall_app. split; [| exact Hall].
    unfold announcement.
    destruct (py_get (episode item) "title" (JStr "Unknown Episode"));
      repeat constructor.
Qed.

Lemma process_item_touches_only_its_file_witness :
  Forall (file_call_on "downloads/ep_1.mp3")
         (new_calls world0 (snd (_process_item upload_fails_env item_1 world0))).
Proof.
  apply (process_item_touches_only_its_file upload_fails_env item_1 world0 _
           (fst (_process_item upload_fails_env item_1 world0)) (JStr "ep_1") eq_refl).
  vm_compute. reflexivity.
Defined.

(** ** How an item ends *)

Lemma external_quiet (E : env) (c : call) (w : world) :
  (forall n c', on_call E n c' = None) -> external E c w = (Ok tt, log c w).
Proof. intros Hq. unfold external. rewrite Hq. reflexivity. Qed.

(** The preamble and the first status message of [_process_item], when
    both go through. *)
Lemma process_item_enters_steps (E : env) (item : work_item) (w w1 : world)
    (episode_id episode_title : json) :
  py_get (episode item) "id" (JStr "unknown") = Ok episode_id ->
  py_get (episode item) "title" (JStr "Unknown Episode") = Ok episode_title ->
  external E (SendMessage (user_id item) (TxtGettingUrl episode_title)) w = (Ok tt, w1) ->
  _process_item E item w =
  try_except (process_steps E (user_id item) (episode item) episode_id episode_title)
             (fun e => try_except (external E (EditText (TxtError e)))
                                  (fun _ => ret tt)) w1.
Proof.
  intros Hid Htitle Hsend. unfold _process_item.
  unfold bind at 1, lift. rewrite Hid. unfold bind at 1. rewrite Htitle.
  unfold bind at 1, try_except at 1. rewrite (bind_ok _ _ _ _ _ Hsend).
  reflexivity.
Qed.

(** The steps of an item up to the download, when the stream URL resolves
    and the directory call goes through. *)
Lemma process_steps_reach_download (E : env) (user : Z)
    (ep episode_id episode_title url : json) (w1 w2 w2a : world) :
  get_stream_url E episode_id "high" w1 = (Ok url, w2) ->
  truthy url = true ->
  external E (Mkdir (download_path E)) w2 = (Ok tt, w2a) ->
  process_steps E user ep episode_id episode_title w1 =
  (let* success := download_file E url (item_path E episode_id)
                     (Some (download_progress E episode_title)) in
   if negb success
   then external E (EditText (TxtDownloadFailed episode_title))
   else upload_step E user ep episode_title (item_path E episode_id))
    (set_last_update 0 w2a).
Proof.
  intros Hurl Htrue Hmkdir. unfold process_steps.
  rewrite (bind_ok _ _ _ _ _ Hurl), Htrue. cbn [negb].
  rewrite (bind_ok _ _ _ _ _ Hmkdir). reflexivity.
Qed.

(** X15. When nothing fails (the stream URL resolves, the response of the
    download is acceptable, no Telegram or file call raises),
    [_process_item] downloads to the item's path, then makes exactly these
    calls: the "Uploading" edit, [send_audio] with that path, the deletion
    of the status message, one "Download Complete" message, and the removal
    of the file, which is gone afterwards. *)
Theorem process_item_success (E : env) (item : work_item) (w w2 : world)
    (episode_id episode_title url : json) (r : get_response) :
  let user := user_id item in
  let filepath := item_path E episode_id in
  py_get (episode item) "id" (JStr "unknown") = Ok episode_id ->
  py_get (episode item) "title" (JStr "Unknown Episode") = Ok episode_title ->
  (forall n c, on_call E n c = None) ->
  get_stream_url E episode_id "high"
    (log (SendMessage user (TxtGettingUrl episode_title)) w) = (Ok url, w2) ->
  truthy url = true ->
  on_get E (S (length (trace w2))) url = GetResponse r ->
  good_response r ->
  exists w3 w' duration,
    download_file E url filepath (Some (download_progress E episode_title))
      (set_last_update 0 (log (Mkdir (download_path E)) w2)) = (Ok true, w3) /\
    _process_item E item w = (Ok tt, w') /\
    trace w' = (trace w3 ++ [ EditText (TxtUploading episode_title);
                              SendAudio user filepath episode_title duration;
                              DeleteMessage;
                              SendMessage user (TxtComplete episode_title);
                              Remove filepath ])%list /\
    fs w' !! filepath = None.
Proof.
  intros user filepath Hid Htitle Hq Hurl Htrue Hget Hgood. subst user.
  set (cb := Some (download_progress E episode_title)).
  set (w2b := set_last_update 0 (log (Mkdir (download_path E)) w2)).
  assert (Hget' : on_get E (length (trace w2b)) url = GetResponse r).
  { unfold w2b. simpl. rewrite length_app. simpl. rewrite Nat.add_1_r. exact Hget. }
  assert (Hwr : writable E filepath) by (split; intros; apply Hq).
  destruct (download_file E url filepath cb w2b) as [b w3] eqn:Hdl.
  pose proof (download_succeeds E url filepath episode_title w2b r Hget' Hgood Hwr)
    as Hb.
  fold cb in Hb. rewrite Hdl in Hb. cbn [fst] in Hb. subst b.
  destruct (download_complete E url filepath cb w2b w3
              (download_progress_keeps_files E episode_title) Hdl)
    as (r' & _ & _ & _ & Hfs3).
  assert (Hdict : exists kv, episode item = JDict kv).
  { destruct (episode item); simpl in Hid; try discriminate. eauto. }
  destruct Hdict as [kv Hep].
  set (duration := from_option id (JNum 0) (dict_lookup kv "duration")).
  set (tail := [ EditText (TxtUploading episode_title);
                 SendAudio (user_id item) filepath episode_title duration;
                 DeleteMessage; SendMessage (user_id item) (TxtComplete episode_title) ]).
  set (w4 := mkWorld (api w3) (fs w3) (loop_time w3) (last_update w3)
                     (trace w3 ++ tail)).
  exists w3, (set_fs (delete filepath (fs w4)) (log (Remove filepath) w4)), duration.
  split; [reflexivity|]. split; [|split].
  - rewrite (process_item_enters_steps E item w _ episode_id episode_title Hid Htitle
               (external_quiet E _ w Hq)).
    unfold try_except at 1.
    rewrite (process_steps_reach_download E (user_id item) (episode item) episode_id
               episode_title url _ w2 _ Hurl Htrue (external_quiet E _ w2 Hq)).
    fold filepath cb w2b. rewrite (bind_ok _ _ _ _ _ Hdl). cbn [negb].
    unfold upload_step. rewrite (bind_ok _ _ _ _ _ (external_quiet E _ w3 Hq)).
    unfold try_finally, try_except. rewrite Hep. unfold bind at 1, lift, py_get.
    fold duration.
    rewrite (bind_ok _ _ _ _ _ (external_quiet E _ _ Hq)).
    rewrite (bind_ok _ _ _ _ _ (external_quiet E _ _ Hq)).
    rewrite (external_quiet E _ _ Hq).
    unfold cleanup, os_path_exists. unfold bind at 1. unfold bind at 1, get_world.
    unfold ret at 1. cbn [fs log].
    rewrite Hfs3, lookup_insert_eq.
    unfold try_except, os_remove. rewrite (bind_ok _ _ _ _ _ (external_quiet E _ _ Hq)).
    unfold modify. f_equal. unfold w4, tail, log, set_fs. simpl.
    rewrite <- !app_assoc. simpl. rewrite Hfs3. reflexivity.
  - simpl. unfold tail. rewrite <- app_assoc. reflexivity.
  - simpl. apply lookup_delete_eq.
Qed.

Lemma process_item_success_witness :
  let E := serving_env served in
  let w1 := log (SendMessage 7 (TxtGettingUrl (JStr "Test"))) world0 in
  let w2 := snd (get_stream_url E (JStr "ep_1") "high" w1) in
  exists w3 w' duration,
    download_file E (JStr "http://cdn/ep_1.mp3") "downloads/ep_1.mp3"
      (Some (download_progress E (JStr "Test")))
      (set_last_update 0 (log (Mkdir "downloads") w2)) = (Ok true, w3) /\
    _process_item E item_1 world0 = (Ok tt, w') /\
    trace w' = (trace w3 ++ [ EditText (TxtUploading (JStr "Test"));
                              SendAudio 7 "downloads/ep_1.mp3" (JStr "Test") duration;
                              DeleteMessage;
                              SendMessage 7 (TxtComplete (JStr "Test"));
                              Remove "downloads/ep_1.mp3" ])%list /\
    fs w' !! "downloads/ep_1.mp3" = None.
Proof.
  intros E w1 w2.
  refine (process_item_success E item_1 world0 w2 (JStr "ep_1") (JStr "Test")
            (JStr "http://cdn/ep_1.mp3") served eq_refl eq_refl _ _ eq_refl _ _).
  - intros n c. reflexivity.
  - vm_compute. reflexivity.
  - vm_compute. reflexivity.
  - split; [left; reflexivity|]. split; [discriminate | reflexivity].
Defined.

(** X16. When [download_file] returns [False], [_process_item] edits the
    status message to "Download Failed" and stops: nothing is uploaded and
    nothing is removed, so whatever the failed download left at the
    destination stays on disk. If the edit raises, one more edit with the
    error is tried. *)
Theorem process_item_download_failure (E : env) (item : work_item)
    (w w1 w2 w2a w3 : world) (episode_id episode_title url : json) :
  py_get (episode item) "id" (JStr "unknown") = Ok episode_id ->
  py_get (episode item) "title" (JStr "Unknown Episode") = Ok episode_title ->
  external E (SendMessage (user_id item) (TxtGettingUrl episode_title)) w = (Ok tt, w1) ->
  get_stream_url E episode_id "high" w1 = (Ok url, w2) ->
  truthy url = true ->
  external E (Mkdir (download_path E)) w2 = (Ok tt, w2a) ->
  download_file E url (item_path E episode_id)
    (Some (download_progress E episode_title)) (set_last_update 0 w2a) = (Ok false, w3) ->
  exists w' rest,
    _process_item E item w = (Ok tt, w') /\
    trace w' = (trace w3 ++ EditText (TxtDownloadFailed episode_title) :: rest)%list /\
    (rest = [] \/ exists e, rest = [EditText (TxtError e)]) /\
    fs w' = fs w3.
Proof.
  intros Hid Htitle Hsend Hurl Htrue Hmkdir Hdl.
  rewrite (process_item_enters_steps E item w w1 _ _ Hid Htitle Hsend).
  unfold try_except at 1.
  rewrite (process_steps_reach_download E _ _ _ _ url w1 w2 w2a Hurl Htrue Hmkdir).
  rewrite (bind_ok _ _ _ _ _ Hdl). cbn [negb].
  destruct (external E (EditText (TxtDownloadFailed episode_title)) w3)
    as [[[]|e] w4] eqn:Hedit; pose proof (external_inv _ _ _ _ _ Hedit) as ->.
  - exists (log (EditText (TxtDownloadFailed episode_title)) w3), [].
    repeat split. left. reflexivity.
  - unfold try_except.
    destruct (external E (EditText (TxtError e)) _) as [[[]|e'] w5] eqn:Herr;
      pose proof (external_inv _ _ _ _ _ Herr) as ->;
      (eexists; exists [EditText (TxtError e)]; split; [reflexivity|]; simpl;
       split; [rewrite <- app_assoc; reflexivity|];
       split; [right; eexists; reflexivity | reflexivity]).
Qed.

Lemma process_item_download_failure_witness :
  let E := serving_env broken_stream in
  exists w',
    _process_item E item_1 world0 = (Ok tt, w') /\
    last (trace w') = Some (EditText (TxtDownloadFailed (JStr "Test"))) /\
    fs w' !! "downloads/ep_1.mp3" = Some [Byte.x01; Byte.x02].
Proof.
  intros E.
  set (w1 := log (SendMessage 7 (TxtGettingUrl (JStr "Test"))) world0).
  set (w2 := snd (get_stream_url E (JStr "ep_1") "high" w1)).
  set (w2a := log (Mkdir "downloads") w2).
  set (w3 := snd (download_file E (JStr "http://cdn/ep_1.mp3") "downloads/ep_1.mp3"
                    (Some (download_progress E (JStr "Test")))
                    (set_last_update 0 w2a))).
  destruct (process_item_download_failure E item_1 world0 w1 w2 w2a w3
              (JStr "ep_1") (JStr "Test") (JStr "http://cdn/ep_1.mp3"))
    as (w' & rest & Hrun & Htr & Hrest & Hfs);
    try (vm_compute; reflexivity).
  exists w'. split; [exact Hrun|].
  assert (Hw' : w' = snd (_process_item E item_1 world0)) by (rewrite Hrun; reflexivity).
  rewrite Hw'. split; vm_compute; reflexivity.
Defined.

(** * Further properties of the handlers and the queue *)

Import Handlers.
Local Open Scope bot_scope.

Lemma callback_data_delivered (eid : string) :
  delivers ("series_" ++ eid) CbSeries eid /\
  delivers ("episodes_" ++ eid) CbEpisodes eid /\
  delivers ("ep_" ++ eid) CbEpisodeDownload eid /\
  delivers ("download_all_" ++ eid) CbDownloadAll eid.
Proof.
  unfold delivers, parsed_id, route.
  repeat split; cbn; destruct eid; reflexivity.
Qed.

(** X17. The callback data the keyboards are built with comes back to the
    handler it is meant for, which reads the id it was built from, whatever
    the id is (underscores included): "series_<id>" goes to
    [callback_series], "episodes_<id>" to [callback_episodes], "ep_<id>" to
    [callback_episode_download] and "download_all_<id>" to
    [callback_download_all]. *)
Theorem callback_data_round_trip (eid : string) :
  delivers ("series_" ++ eid) CbSeries eid /\
  delivers ("episodes_" ++ eid) CbEpisodes eid /\
  delivers ("ep_" ++ eid) CbEpisodeDownload eid /\
  delivers ("download_all_" ++ eid) CbDownloadAll eid.
Proof.
  exact (callback_data_delivered eid).
Qed.

Lemma py_eq_str_true (v : json) (s : string) :
  py_eq_str v s = true <-> v = JStr s.
Proof.
  destruct v; simpl; try (split; [discriminate | intros Hv; discriminate Hv]).
  rewrite String.eqb_eq. split; [intros ->; reflexivity | intros Hv; injection Hv; auto].
Qed.

Lemma py_eq_str_false (v : json) (s : string) :
  v <> JStr s -> py_eq_str v s = false.
Proof.
  intros Hv. destruct (py_eq_str v s) eqn:Heq; [|reflexivity].
  apply py_eq_str_true in Heq. contradiction.
Qed.

Lemma find_episode_found (eid : string) (eps : list json) (ep : json) :
  find_episode eid eps = Ok (Some ep) ->
  In ep eps /\ py_get ep "id" JNull = Ok (JStr eid).
Proof.
  induction eps as [|e rest IH]; simpl; [discriminate|].
  destruct (py_get e "id" JNull) as [v|x] eqn:Hg; [|discriminate].
  destruct (py_eq_str v eid) eqn:Heq.
  - intros Hf. injection Hf as <-. apply py_eq_str_true in Heq. subst v. auto.
  - intros Hf. destruct (IH Hf) as [Hin Hid]. auto.
Qed.

Lemma find_episode_first (eid : string) (pre post : list json) (ep : json) :
  Forall (other_id eid) pre ->
  py_get ep "id" JNull = Ok (JStr eid) ->
  find_episode eid (pre ++ ep :: post) = Ok (Some ep).
Proof.
  intros Hpre Hep. induction Hpre as [|e pre [v [Hg Hv]] _ IH]; simpl.
  - rewrite Hep. simpl. rewrite String.eqb_refl. reflexivity.
  - rewrite Hg, (py_eq_str_false _ _ Hv). exact IH.
Qed.

Lemma find_episode_none (eid : string) (eps : list json) :
  Forall non_string_id eps -> find_episode eid eps = Ok None.
Proof.
  intros Hall. induction Hall as [|e eps [v [Hg Hv]] _ IH]; simpl; [reflexivity|].
  rewrite Hg, (py_eq_str_false _ _ (Hv eid)). exact IH.
Qed.

Lemma has_id_truthy (ep v : json) :
  py_get ep "id" JNull = Ok v -> v <> JNull ->
  truthy ep = true /\ is_dict ep = true.
Proof.
  destruct ep; simpl; try discriminate.
  destruct kv; simpl; [|auto].
  intros Hv. injection Hv as <-. intros Hn. contradiction.
Qed.

Lemma ui_do_run (BE : bot_env) (c : ui_call) (b : bot) :
  exists r, ui_do BE c b = (r, log_ui c b).
Proof.
  unfold ui_do. destruct (on_ui BE (length (ui b)) c); eauto.
Qed.

Lemma add_to_queue_run (user : Z) (ep : json) (b : bot) :
  exists r, Handlers.add_to_queue user ep b
            = (r, set_queue (queue b ++ [DownloadManager.add_to_queue user ep]) b) /\
            (is_dict ep = true -> r = Ok tt) /\
            (is_dict ep = false -> r = Raise AttributeError).
Proof.
  unfold Handlers.add_to_queue, hbind, hmodify, hlift, hret.
  destruct ep; simpl; eexists; (split; [reflexivity|]); split; intros; congruence.
Qed.

Lemma episode_download_run (BE : bot_env) (data eid : string) (user : Z) (b : bot)
    (eps : list json) (found : option json) :
  py_index (py_split underscore 1 data) 1 = Ok eid ->
  py_iter BE (stored_episodes b user) = Ok eps ->
  find_episode eid eps = Ok found ->
  callback_episode_download BE data user b
  = htry_except
      (if negb (truthy (from_option (fun x => x) JNull found)) then
         ui_do BE (Answer UiEpisodeNotFound true)
       else
         Handlers.add_to_queue user (from_option (fun x => x) JNull found) ;;
         ui_do BE (Answer UiAddedToQueue false))
      (fun _ => ui_do BE (Answer UiError true)) b.
Proof.
  intros Hparse Hiter Hfind.
  unfold callback_episode_download, htry_except, hbind, hlift, hget.
  unfold stored_episodes in Hiter. rewrite Hparse, Hiter, Hfind. reflexivity.
Qed.

Lemma ep_data (eid : string) :
  route ("ep_" ++ eid) = Some CbEpisodeDownload /\
  py_index (py_split underscore 1 ("ep_" ++ eid)) 1 = Ok eid.
Proof.
  split; [unfold route; cbn; destruct eid; reflexivity | reflexivity].
Qed.

Lemma episode_download_first_match (BE : bot_env) (eid : string) (user : Z)
    (b : bot) (pre post : list json) (ep : json) :
  stored_episodes b user = JList (pre ++ ep :: post) ->
  Forall (other_id eid) pre ->
  py_get ep "id" JNull = Ok (JStr eid) ->
  let run := dispatch_callback BE ("ep_" ++ eid) user b in
  queue (snd run) = (queue b ++ [mkItem user ep "queued"])%list /\
  exists rest, ui (snd run) = (ui b ++ Answer UiAddedToQueue false :: rest)%list.
Proof.
  intros Hst Hpre Hep.
  destruct (ep_data eid) as [Hroute Hparse].
  destruct (has_id_truthy _ _ Hep) as [Htr Hd]; [discriminate|].
  unfold dispatch_callback. rewrite Hroute.
  rewrite (episode_download_run BE _ eid user b (pre ++ ep :: post) (Some ep) Hparse);
    [| rewrite Hst; reflexivity | apply find_episode_first; assumption].
  simpl from_option. rewrite Htr. unfold negb. cbv iota.
  unfold htry_except, hbind.
  destruct (add_to_queue_run user ep b) as [r [Hrun [Hok _]]].
  rewrite Hrun, (Hok Hd).
  destruct (ui_do_run BE (Answer UiAddedToQueue false)
              (set_queue (queue b ++ [DownloadManager.add_to_queue user ep]) b))
    as [r2 Hui].
  rewrite Hui. destruct r2 as [[]|e].
  - simpl. split; [reflexivity|]. exists []. reflexivity.
  - destruct (ui_do_run BE (Answer UiError true)
                (log_ui (Answer UiAddedToQueue false)
                   (set_queue (queue b ++ [DownloadManager.add_to_queue user ep]) b)))
      as [r3 Hui3].
    rewrite Hui3. simpl. split; [reflexivity|].
    exists [Answer UiError true]. rewrite <- app_assoc. reflexivity.
Qed.

(** X18. Pressing the button of an episode queues exactly that episode for
    the user who pressed it: of the episodes stored for the user, the first
    one whose "id" is the string of the callback data is put at the end of
    the queue, and the callback is answered "Added to download queue". *)
Theorem episode_download_queues_first_match (BE : bot_env) (eid : string) (user : Z)
    (b : bot) (pre post : list json) (ep : json) :
  stored_episodes b user = JList (pre ++ ep :: post) ->
  Forall (other_id eid) pre ->
  py_get ep "id" JNull = Ok (JStr eid) ->
  let run := dispatch_callback BE ("ep_" ++ eid) user b in
  queue (snd run) = (queue b ++ [mkItem user ep "queued"])%list /\
  exists rest, ui (snd run) = (ui b ++ Answer UiAddedToQueue false :: rest)%list.
Proof.
  exact (episode_download_first_match BE eid user b pre post ep).
Qed.

Lemma episode_download_queues_first_match_witness :
  queue (snd (dispatch_callback (quiet_ui (fixed_env (HttpRaise TimeoutError) no_download))
                "ep_ep_2" 7 (shown [ep_1; ep_2])))
  = [mkItem 7 ep_2 "queued"].
Proof.
  refine (proj1 (episode_download_queues_first_match
                   (quiet_ui (fixed_env (HttpRaise TimeoutError) no_download))
                   "ep_2" 7 (shown [ep_1; ep_2]) [ep_1] [] ep_2 _ _ _)).
  - vm_compute. reflexivity.
  - repeat constructor. exists (JStr "ep_1"). split; [reflexivity | discriminate].
  - reflexivity.
Defined.

Lemma htry_bind_ok {A B} (m : Handler A) (k : A -> Handler B) (h : exn -> Handler B)
    (b b' : bot) (a : A) :
  m b = (Ok a, b') ->
  htry_except (hbind m k) h b = htry_except (k a) h b'.
Proof.
  intros Hm. unfold htry_except, hbind. rewrite Hm. reflexivity.
Qed.

Lemma htry_bind_raise {A B} (m : Handler A) (k : A -> Handler B) (h : exn -> Handler B)
    (b b' : bot) (e : exn) :
  m b = (Raise e, b') ->
  htry_except (hbind m k) h b = h e b'.
Proof.
  intros Hm. unfold htry_except, hbind. rewrite Hm. reflexivity.
Qed.

Ltac ui_step :=
  match goal with
  | |- context [ui_do ?BE ?c ?b] =>
      let r := fresh "r" in
      let Hr := fresh "Hr" in
      destruct (ui_do_run BE c b) as [r Hr]; rewrite Hr; clear Hr;
      destruct r as [[]|?]
  end.

(** X19. The download callback touches nothing but the queue, and the only
    thing it ever puts there is one episode it finds among those stored for
    the user, with the id of the callback data; it makes no request and
    leaves the stored data alone. *)
Theorem episode_download_only_queues_stored (BE : bot_env) (data : string)
    (user : Z) (b : bot) :
  let run := callback_episode_download BE data user b in
  user_data (snd run) = user_data b /\ core (snd run) = core b /\
  (queue (snd run) = queue b \/
   exists ep eid eps,
     queue (snd run) = (queue b ++ [mkItem user ep "queued"])%list /\
     py_index (py_split underscore 1 data) 1 = Ok eid /\
     py_iter BE (stored_episodes b user) = Ok eps /\
     In ep eps /\ py_get ep "id" JNull = Ok (JStr eid)).
Proof.
  intros run. subst run.
  unfold callback_episode_download, htry_except, hbind, hlift, hget.
  destruct (py_index (py_split underscore 1 data) 1) as [eid|x] eqn:Hparse;
    [|ui_step; simpl; auto].
  fold (stored_episodes b user).
  destruct (py_iter BE (stored_episodes b user)) as [eps|x] eqn:Hiter;
    [|ui_step; simpl; auto].
  destruct (find_episode eid eps) as [found|x] eqn:Hfind;
    [|ui_step; simpl; auto].
  destruct found as [ep|].
  - change (from_option id JNull (Some ep)) with ep.
    destruct (find_episode_found _ _ _ Hfind) as [Hin Hid].
    destruct (truthy ep); unfold negb; cbv iota;
      [|ui_step; try ui_step; simpl; auto].
    destruct (add_to_queue_run user ep b) as [r [Hrun _]].
    unfold Handlers.add_to_queue, hbind, hlift, hmodify, hret in Hrun.
    unfold Handlers.add_to_queue, hbind, hlift, hmodify, hret.
    rewrite Hrun. clear Hrun.
    assert (Hq : exists ep0 id0 eps0,
               (queue b ++ [DownloadManager.add_to_queue user ep])%list
               = (queue b ++ [mkItem user ep0 "queued"])%list /\
               Ok eid = Ok id0 /\ Ok eps = Ok eps0 /\
               In ep0 eps0 /\ py_get ep0 "id" JNull = Ok (JStr id0))
      by (exists ep, eid, eps; auto).
    destruct r as [[]|x]; repeat ui_step; simpl; auto.
  - change (from_option id JNull None) with JNull.
    simpl. ui_step; try ui_step; simpl; auto.
Qed.

(** X20. An episode whose "id" is not a string can never be downloaded
    from its button: when none of the stored episodes has a string id, the
    download callback answers "Episode not found" whatever the id in the
    callback data, and the queue stays as it is. *)
Theorem episode_download_needs_string_ids (BE : bot_env) (eid : string) (user : Z)
    (b : bot) (l : list json) :
  stored_episodes b user = JList l ->
  Forall non_string_id l ->
  let run := dispatch_callback BE ("ep_" ++ eid) user b in
  queue (snd run) = queue b /\
  exists rest, ui (snd run) = (ui b ++ Answer UiEpisodeNotFound true :: rest)%list.
Proof.
  intros Hst Hall.
  destruct (ep_data eid) as [Hroute Hparse].
  unfold dispatch_callback. rewrite Hroute.
  rewrite (episode_download_run BE _ eid user b l None Hparse);
    [| rewrite Hst; reflexivity | apply find_episode_none; assumption].
  simpl. unfold htry_except.
  ui_step; [simpl; split; [reflexivity | exists []; reflexivity]|].
  ui_step; simpl; (split; [reflexivity|]);
    exists [Answer UiError true]; rewrite <- app_assoc; reflexivity.
Qed.

Lemma episode_download_needs_string_ids_witness :
  queue (snd (dispatch_callback (quiet_ui (answering JNull)) "ep_5" 7 (shown [ep_num])))
  = [].
Proof.
  refine (proj1 (episode_download_needs_string_ids
                   (quiet_ui (answering JNull)) "5" 7 (shown [ep_num]) [ep_num] _ _)).
  - vm_compute. reflexivity.
  - repeat constructor. exists (JNum 5). split; [reflexivity | discriminate].
Defined.

Lemma queue_loop_run (user : Z) (eps : list json) (b : bot) :
  hfor eps (Handlers.add_to_queue user) b
  = (if forallb is_dict eps then Ok tt else Raise AttributeError,
     set_queue (queue b ++ queued user (accepted eps)) b).
Proof.
  revert b. induction eps as [|e rest IH]; intros b.
  - destruct b. unfold set_queue. simpl. rewrite app_nil_r. reflexivity.
  - cbn [hfor]. unfold hbind.
    destruct (add_to_queue_run user e b) as [r [Hrun [Hok Hbad]]].
    rewrite Hrun. cbn [forallb accepted].
    destruct (is_dict e).
    + rewrite (Hok eq_refl), IH. cbn [andb]. unfold set_queue, queued. simpl.
      rewrite <- app_assoc. reflexivity.
    + rewrite (Hbad eq_refl). reflexivity.
Qed.

Lemma accepted_length (eps : list json) : (length (accepted eps) <= length eps)%nat.
Proof.
  induction eps as [|e rest IH]; simpl; [lia|].
  destruct (is_dict e); simpl; lia.
Qed.

Lemma accepted_strings (l : list string) : (length (accepted (map JStr l)) <= 1)%nat.
Proof.
  destruct l; simpl; lia.
Qed.

Lemma accepted_dicts (eps : list json) :
  Forall (fun e => is_dict e = true) eps ->
  accepted eps = eps /\ forallb is_dict eps = true.
Proof.
  intros Hall. induction Hall as [|e rest He _ [IH1 IH2]]; simpl; [auto|].
  rewrite He, IH1, IH2. auto.
Qed.

Lemma accepted_stops (pre post : list json) (e : json) :
  Forall (fun e => is_dict e = true) pre -> is_dict e = false ->
  accepted (pre ++ e :: post) = (pre ++ [e])%list /\
  forallb is_dict (pre ++ e :: post) = false.
Proof.
  intros Hall He. induction Hall as [|x rest Hx _ [IH1 IH2]]; simpl.
  - rewrite He. auto.
  - rewrite Hx, IH1, IH2. auto.
Qed.

Lemma download_all_data (sid : string) :
  route ("download_all_" ++ sid) = Some CbDownloadAll /\
  py_index (py_split underscore 2 ("download_all_" ++ sid)) 2 = Ok sid.
Proof.
  split; [unfold route; cbn; destruct sid; reflexivity | reflexivity].
Qed.

Lemma download_all_run (BE : bot_env) (sid : string) (user : Z) (b : bot)
    (e0 : json) (l : list json) (w' : world) :
  on_ui BE (length (ui b)) (EditMessage UiLoadingAll []) = None ->
  get_episodes (core_env BE) sid 500 (core b) = (Ok (JList (e0 :: l)), w') ->
  dispatch_callback BE ("download_all_" ++ sid) user b
  = htry_except
      (hfor (take 50 (e0 :: l)) (Handlers.add_to_queue user) ;;
       ui_do BE (EditMessage (UiQueuedAll (length (take 50 (e0 :: l)))) []))
      (fun _ => ui_do BE (Answer UiError true))
      (set_core w' (log_ui (EditMessage UiLoadingAll []) b)).
Proof.
  intros Hui Hget.
  destruct (download_all_data sid) as [Hroute Hparse].
  unfold dispatch_callback. rewrite Hroute.
  unfold callback_download_all, htry_except, hbind, hlift, in_core, ui_do.
  rewrite Hparse, Hui. cbn [core log_ui]. rewrite Hget.
  reflexivity.
Qed.

Lemma download_all_first_50 (BE : bot_env) (sid : string) (user : Z) (b : bot)
    (e0 : json) (l : list json) (w' : world) :
  on_ui BE (length (ui b)) (EditMessage UiLoadingAll []) = None ->
  get_episodes (core_env BE) sid 500 (core b) = (Ok (JList (e0 :: l)), w') ->
  Forall (fun e => is_dict e = true) (take 50 (e0 :: l)) ->
  let run := dispatch_callback BE ("download_all_" ++ sid) user b in
  queue (snd run) = (queue b ++ queued user (take 50 (e0 :: l)))%list /\
  core (snd run) = w' /\
  exists rest,
    ui (snd run)
    = (ui b ++ EditMessage UiLoadingAll []
            :: EditMessage (UiQueuedAll (Nat.min 50 (length (e0 :: l)))) [] :: rest)%list.
Proof.
  intros Hui Hget Hall run. subst run.
  rewrite (download_all_run BE sid user b e0 l w' Hui Hget).
  destruct (accepted_dicts _ Hall) as [Hacc Hfor].
  unfold htry_except, hbind. rewrite queue_loop_run, Hfor, Hacc.
  rewrite length_take.
  ui_step.
  - simpl. repeat split. exists []. rewrite <- app_assoc. reflexivity.
  - ui_step; simpl; repeat split; exists [Answer UiError true];
      rewrite <- !app_assoc; reflexivity.
Qed.

(** X21. "Download all" queues the first fifty episodes of the series, in
    the order the server lists them, for the user who asked: when the
    listing is a list whose first fifty entries are dicts, those are put
    at the end of the queue and the message tells how many were queued. *)
Theorem download_all_queues_first_50 (BE : bot_env) (sid : string) (user : Z) (b : bot)
    (e0 : json) (l : list json) (w' : world) :
  on_ui BE (length (ui b)) (EditMessage UiLoadingAll []) = None ->
  get_episodes (core_env BE) sid 500 (core b) = (Ok (JList (e0 :: l)), w') ->
  Forall (fun e => is_dict e = true) (take 50 (e0 :: l)) ->
  let run := dispatch_callback BE ("download_all_" ++ sid) user b in
  queue (snd run) = (queue b ++ queued user (take 50 (e0 :: l)))%list /\
  core (snd run) = w' /\
  exists rest,
    ui (snd run)
    = (ui b ++ EditMessage UiLoadingAll []
            :: EditMessage (UiQueuedAll (Nat.min 50 (length (e0 :: l)))) [] :: rest)%list.
Proof.
  exact (download_all_first_50 BE sid user b e0 l w').
Qed.

Lemma download_all_queues_first_50_witness :
  queue (snd (dispatch_callback
                (quiet_ui (answering (JDict [("episodes", JList [ep_1; ep_2])])))
                "download_all_s1" 7 bot0))
  = [mkItem 7 ep_1 "queued"; mkItem 7 ep_2 "queued"].
Proof.
  refine (proj1 (download_all_queues_first_50
                   (quiet_ui (answering (JDict [("episodes", JList [ep_1; ep_2])])))
                   "s1" 7 bot0 ep_1 [ep_2] _ eq_refl _ _)).
  - vm_compute. reflexivity.
  - repeat constructor.
Defined.

(** X22. [add_to_queue] puts the item on the queue before the log line that
    can fail, so "download all" over a listing with an entry that is no
    dict queues every entry up to and including that one, then stops and
    answers with an error: the malformed entry is on the queue, the
    entries after it are not. *)
Theorem download_all_stops_at_malformed (BE : bot_env) (sid : string) (user : Z)
    (b : bot) (pre post : list json) (e e0 : json) (l : list json) (w' : world) :
  on_ui BE (length (ui b)) (EditMessage UiLoadingAll []) = None ->
  get_episodes (core_env BE) sid 500 (core b) = (Ok (JList (e0 :: l)), w') ->
  take 50 (e0 :: l) = (pre ++ e :: post)%list ->
  Forall (fun x => is_dict x = true) pre ->
  is_dict e = false ->
  let run := dispatch_callback BE ("download_all_" ++ sid) user b in
  queue (snd run) = (queue b ++ queued user (pre ++ [e]))%list /\
  ui (snd run) = (ui b ++ [EditMessage UiLoadingAll []; Answer UiError true])%list.
Proof.
  intros Hui Hget Htake Hpre He run. subst run.
  rewrite (download_all_run BE sid user b e0 l w' Hui Hget).
  rewrite Htake.
  destruct (accepted_stops pre post e Hpre He) as [Hacc Hfor].
  unfold htry_except, hbind. rewrite queue_loop_run, Hfor, Hacc.
  ui_step; simpl; rewrite <- app_assoc; split; reflexivity.
Qed.

Lemma download_all_stops_at_malformed_witness :
  queue (snd (dispatch_callback (quiet_ui (answering listing_with_gap))
                "download_all_s1" 7 bot0))
  = [mkItem 7 ep_1 "queued"; mkItem 7 (JStr "soon") "queued"].
Proof.
  refine (proj1 (download_all_stops_at_malformed
                   (quiet_ui (answering listing_with_gap))
                   "s1" 7 bot0 [ep_1] [ep_2] (JStr "soon") ep_1 [JStr "soon"; ep_2]
                   _ eq_refl _ eq_refl _ eq_refl)).
  - vm_compute. reflexivity.
  - repeat constructor.
Defined.

(** X23. Whatever the server answers and whatever the callback data,
    "download all" only adds to the end of the queue, at most fifty items,
    all of them for the user who asked; it leaves the stored data alone. *)
Theorem download_all_cap (BE : bot_env) (data : string) (user : Z) (b : bot) :
  let run := callback_download_all BE data user b in
  user_data (snd run) = user_data b /\
  exists added,
    queue (snd run) = (queue b ++ queued user added)%list /\
    (length added <= 50)%nat.
Proof.
  intros run. subst run.
  assert (Hnone : exists added,
             queue b = (queue b ++ queued user added)%list /\ (length added <= 50)%nat)
    by (exists []; simpl; rewrite app_nil_r; split; [reflexivity | lia]).
  assert (Hloop : forall eps b1,
             user_data b1 = user_data b -> queue b1 = queue b ->
             (length (accepted eps) <= 50)%nat ->
             forall (k : Handler unit),
               (forall b2, user_data (snd (k b2)) = user_data b2 /\
                           queue (snd (k b2)) = queue b2) ->
               let run := htry_except
                            (hfor eps (Handlers.add_to_queue user) ;; k)
                            (fun _ => ui_do BE (Answer UiError true)) b1 in
               user_data (snd run) = user_data b /\
               exists added,
                 queue (snd run) = (queue b ++ queued user added)%list /\
                 (length added <= 50)%nat).
  { intros eps b1 Hud Hq Hlen k Hk run. subst run.
    unfold htry_except, hbind. rewrite queue_loop_run.
    destruct (forallb is_dict eps).
    - destruct (Hk (set_queue (queue b1 ++ queued user (accepted eps)) b1)) as [Hk1 Hk2].
      destruct (k (set_queue (queue b1 ++ queued user (accepted eps)) b1))
        as [[[]|x] b2]; simpl in *.
      + rewrite Hk1, Hk2, Hud, Hq. split; [reflexivity|]. eauto.
      + ui_step; simpl; rewrite Hk1, Hk2, Hud, Hq; (split; [reflexivity|]); eauto.
    - ui_step; simpl; rewrite Hud, Hq; (split; [reflexivity|]); eauto. }
  unfold callback_download_all.
  destruct (py_index (py_split underscore 2 data) 2) as [sid|x] eqn:Hparse;
    [rewrite (htry_bind_ok _ _ _ b b sid) by reflexivity
    |rewrite (htry_bind_raise _ _ _ b b x) by reflexivity; ui_step; simpl; auto].
  destruct (ui_do_run BE (EditMessage UiLoadingAll []) b) as [r Hr].
  set (b0 := log_ui (EditMessage UiLoadingAll []) b) in *.
  destruct r as [[]|x];
    [rewrite (htry_bind_ok _ _ _ b b0 tt) by exact Hr
    |rewrite (htry_bind_raise _ _ _ b b0 x) by exact Hr; ui_step; simpl; auto].
  destruct (get_episodes (core_env BE) sid 500 (core b0)) as [r w'] eqn:Hget.
  set (b1 := set_core w' b0).
  assert (Hcore : in_core (get_episodes (core_env BE) sid 500) b0 = (r, b1))
    by (unfold in_core; rewrite Hget; reflexivity).
  destruct r as [episodes|x];
    [rewrite (htry_bind_ok _ _ _ b0 b1 episodes) by exact Hcore
    |rewrite (htry_bind_raise _ _ _ b0 b1 x) by exact Hcore; ui_step; simpl; auto].
  destruct (truthy episodes); unfold negb; cbv iota;
    [|unfold htry_except; ui_step; [|ui_step]; simpl; auto].
  assert (Htail : forall sliced eps,
             (length (accepted eps) <= 50)%nat ->
             let run := htry_except
                          (hfor eps (Handlers.add_to_queue user) ;;
                           let* n := hlift (py_len BE sliced) in
                           ui_do BE (EditMessage (UiQueuedAll n) []))
                          (fun _ => ui_do BE (Answer UiError true)) b1 in
             user_data (snd run) = user_data b /\
             exists added,
               queue (snd run) = (queue b ++ queued user added)%list /\
               (length added <= 50)%nat).
  { intros sliced eps Hlen. apply Hloop; [reflexivity | reflexivity | exact Hlen |].
    intros b2. unfold hbind, hlift.
    destruct (py_len BE sliced); [ui_step|]; simpl; auto. }
  destruct (py_slice BE 50 episodes) as [sliced|x] eqn:Hslice;
    [rewrite (htry_bind_ok _ _ _ b1 b1 sliced) by reflexivity
    |rewrite (htry_bind_raise _ _ _ b1 b1 x) by reflexivity;
     ui_step; simpl; auto].
  destruct (py_iter BE sliced) as [eps|x] eqn:Hiter;
    [rewrite (htry_bind_ok _ _ _ b1 b1 eps) by reflexivity
    |rewrite (htry_bind_raise _ _ _ b1 b1 x) by reflexivity;
     ui_step; simpl; auto].
  apply Htail.
  destruct episodes as [|?|?|s|l|kv]; try discriminate Hslice;
    injection Hslice as <-; injection Hiter as <-.
  - etransitivity; [apply accepted_strings | lia].
  - etransitivity; [apply accepted_length|]. rewrite length_take. lia.
Qed.

(** X24. A user the bot holds no data for (nothing searched or opened since
    it started) is never shown an episode list: [callback_episodes] fails
    on storing the episodes, so the only calls it makes are the "Loading"
    edit, then "No episodes found" or the error answer; nothing is stored
    or queued. *)
Theorem episodes_unknown_user (BE : bot_env) (data : string) (user : Z) (b : bot) :
  user_data b !! user = None ->
  let run := callback_episodes BE data user b in
  user_data (snd run) = user_data b /\ queue (snd run) = queue b /\
  exists l, ui (snd run) = (ui b ++ l)%list /\
            Forall (fun c => ~ shows_episode_list c) l.
Proof.
  intros Hnone run. subst run.
  unfold callback_episodes.
  destruct (py_index (py_split underscore 1 data) 1) as [sid|x] eqn:Hparse;
    [rewrite (htry_bind_ok _ _ _ b b sid) by reflexivity
    |rewrite (htry_bind_raise _ _ _ b b x) by reflexivity; ui_step; simpl;
     (repeat split; exists [Answer UiError true]; split; [reflexivity|];
      repeat constructor; simpl; tauto)].
  destruct (ui_do_run BE (EditMessage UiLoadingEpisodes []) b) as [r Hr].
  set (b0 := log_ui (EditMessage UiLoadingEpisodes []) b) in *.
  destruct r as [[]|x];
    [rewrite (htry_bind_ok _ _ _ b b0 tt) by exact Hr
    |rewrite (htry_bind_raise _ _ _ b b0 x) by exact Hr; ui_step; simpl;
     (repeat split; eexists; rewrite <- app_assoc; split; [reflexivity|];
      repeat constructor; simpl; tauto)].
  destruct (get_episodes (core_env BE) sid 100 (core b0)) as [r w'] eqn:Hget.
  set (b1 := set_core w' b0).
  assert (Hcore : in_core (get_episodes (core_env BE) sid 100) b0 = (r, b1))
    by (unfold in_core; rewrite Hget; reflexivity).
  destruct r as [episodes|x];
    [rewrite (htry_bind_ok _ _ _ b0 b1 episodes) by exact Hcore
    |rewrite (htry_bind_raise _ _ _ b0 b1 x) by exact Hcore; ui_step; simpl;
     (repeat split; eexists; rewrite <- app_assoc; split; [reflexivity|];
      repeat constructor; simpl; tauto)].
  destruct (truthy episodes); unfold negb; cbv iota.
  - rewrite (htry_bind_raise _ _ _ b1 b1 KeyError)
      by (unfold store; subst b1 b0; simpl; rewrite Hnone; reflexivity).
    ui_step; simpl;
      (repeat split; eexists; rewrite <- app_assoc; split; [reflexivity|];
       repeat constructor; simpl; tauto).
  - unfold htry_except. ui_step; [|ui_step]; simpl;
      (repeat split; eexists; rewrite <- !app_assoc; split; [reflexivity|];
       repeat constructor; simpl; tauto).
Qed.

Lemma episodes_unknown_user_witness :
  user_data (snd (callback_episodes
                    (quiet_ui (answering (JDict [("episodes", JList [ep_1; ep_2])])))
                    "episodes_s1" 7 bot0))
  = user_data bot0.
Proof.
  refine (proj1 (episodes_unknown_user
                   (quiet_ui (answering (JDict [("episodes", JList [ep_1; ep_2])])))
                   "episodes_s1" 7 bot0 _)).
  reflexivity.
Defined.

Lemma comprehension_ok {A B} (f : A -> Res B) (xs : list A) :
  Forall (fun x => exists y, f x = Ok y) xs ->
  exists ys, comprehension f xs = Ok ys /\
             forall i x, xs !! i = Some x -> exists y, ys !! i = Some y /\ f x = Ok y.
Proof.
  intros Hall. induction Hall as [|x rest [y Hy] _ [ys [Hys Hlook]]]; simpl.
  - exists []. split; [reflexivity|]. intros i x Hx. discriminate Hx.
  - rewrite Hy, Hys. exists (y :: ys). split; [reflexivity|].
    intros [|i] x0 Hx0; simpl in *.
    + injection Hx0 as <-. eauto.
    + apply Hlook. exact Hx0.
Qed.

Lemma ui_do_quiet (BE : bot_env) (c : ui_call) (b : bot) :
  ui_never_fails BE -> ui_do BE c b = (Ok tt, log_ui c b).
Proof.
  intros Hq. unfold ui_do. rewrite Hq. reflexivity.
Qed.

Lemma episodes_data (sid : string) :
  route ("episodes_" ++ sid) = Some CbEpisodes /\
  py_index (py_split underscore 1 ("episodes_" ++ sid)) 1 = Ok sid.
Proof.
  split; [unfold route; cbn; destruct sid; reflexivity | reflexivity].
Qed.

Lemma episodes_run (BE : bot_env) (sid : string) (user : Z) (b : bot)
    (d : gmap string json) (e0 : json) (l : list json) (w' : world) (rows : list button) :
  ui_never_fails BE ->
  user_data b !! user = Some d ->
  get_episodes (core_env BE) sid 100 (core b) = (Ok (JList (e0 :: l)), w') ->
  comprehension (episode_button BE) (take 10 (e0 :: l)) = Ok rows ->
  dispatch_callback BE ("episodes_" ++ sid) user b
  = (Ok tt,
     log_ui (EditMessage (UiEpisodeList (length (e0 :: l)))
               (rows ++ [mkButton LblBack ("series_" ++ sid)]))
       (set_user_data (<[user := <["episodes" := JList (e0 :: l)]> d]> (user_data b))
          (set_core w' (log_ui (EditMessage UiLoadingEpisodes []) b)))).
Proof.
  intros Hq Hd Hget Hrows.
  destruct (episodes_data sid) as [Hroute Hparse].
  unfold dispatch_callback. rewrite Hroute.
  unfold callback_episodes.
  rewrite (htry_bind_ok _ _ _ b b sid) by (unfold hlift; rewrite Hparse; reflexivity).
  rewrite (htry_bind_ok _ _ _ b _ tt) by (apply ui_do_quiet; exact Hq).
  rewrite (htry_bind_ok _ _ _ _ (set_core w' (log_ui (EditMessage UiLoadingEpisodes []) b))
             (JList (e0 :: l)))
    by (unfold in_core; cbn [core log_ui]; rewrite Hget; reflexivity).
  cbn [truthy negb].
  unfold htry_except, hbind, store, hlift.
  cbn [user_data set_core log_ui py_slice py_iter py_len].
  rewrite Hd, Hrows.
  rewrite ui_do_quiet by exact Hq.
  reflexivity.
Qed.

Lemma episode_button_data (BE : bot_env) (ep : json) (eid : string) (btn : button) :
  py_get ep "id" JNull = Ok (JStr eid) ->
  episode_button BE ep = Ok btn ->
  callback_data btn = "ep_" ++ py_str (core_env BE) (JStr eid).
Proof.
  destruct ep as [| | | | |kv]; simpl; try discriminate.
  intros Hid. unfold episode_button. simpl.
  destruct (py_slice_check _); [|discriminate].
  destruct (dict_lookup kv "id") as [v|]; simpl in *; [|discriminate].
  injection Hid as ->. intros Hb. injection Hb as <-. reflexivity.
Qed.

(** X25. The episode list and the download callback fit together: after
    [callback_episodes] has shown the episodes of a series to a known user,
    the button in row [i] carries the data that makes
    [callback_episode_download] queue the episode of row [i], provided the
    episode's id is a string and no earlier episode of the listing has the
    same id. *)
Theorem listed_episode_can_be_queued (BE : bot_env) (sid : string) (user : Z) (b : bot)
    (d : gmap string json) (l : list json) (w' : world)
    (i : nat) (ep : json) (eid : string) :
  ui_never_fails BE ->
  str_is_identity BE ->
  user_data b !! user = Some d ->
  get_episodes (core_env BE) sid 100 (core b) = (Ok (JList l), w') ->
  Forall (listable BE) (take 10 l) ->
  (i < 10)%nat ->
  l !! i = Some ep ->
  py_get ep "id" JNull = Ok (JStr eid) ->
  Forall (other_id eid) (take i l) ->
  let listed := snd (dispatch_callback BE ("episodes_" ++ sid) user b) in
  exists kb btn,
    last (ui listed) = Some (EditMessage (UiEpisodeList (length l)) kb) /\
    kb !! i = Some btn /\
    queue (snd (dispatch_callback BE (callback_data btn) user listed))
    = (queue b ++ [mkItem user ep "queued"])%list.
Proof.
  intros Hq Hstr Hd Hget Hlist Hi Hep Hid Hpre listed.
  destruct l as [|e0 l0]; [discriminate Hep|].
  destruct (comprehension_ok _ _ Hlist) as [rows [Hrows Hlook]].
  assert (Hrun := episodes_run BE sid user b d e0 l0 w' rows Hq Hd Hget Hrows).
  subst listed. rewrite Hrun. cbn [snd].
  destruct (Hlook i ep) as [btn [Hbtn Hmk]];
    [rewrite lookup_take_lt by exact Hi; exact Hep|].
  exists (rows ++ [mkButton LblBack ("series_" ++ sid)])%list, btn.
  split; [cbn [ui log_ui]; apply last_snoc|].
  split; [apply lookup_app_l_Some; exact Hbtn|].
  rewrite (episode_button_data BE ep eid btn Hid Hmk), Hstr.
  match goal with
  | |- queue (snd (dispatch_callback _ _ _ ?b1)) = _ =>
      destruct (episode_download_first_match BE eid user b1
                  (take i (e0 :: l0)) (drop (S i) (e0 :: l0)) ep) as [Hqueue _]
  end.
  - unfold stored_episodes, user_value. cbn [user_data set_user_data log_ui].
    rewrite lookup_insert_eq. cbn [from_option id]. rewrite lookup_insert_eq.
    cbn [from_option id]. rewrite (take_drop_middle _ _ _ Hep). reflexivity.
  - exact Hpre.
  - exact Hid.
  - exact Hqueue.
Qed.

Lemma listed_episode_can_be_queued_witness :
  let BE := quiet_ui (answering (JDict [("episodes", JList [ep_1; ep_2])])) in
  let listed := snd (dispatch_callback BE "episodes_s1" 7 (shown [])) in
  exists kb btn,
    last (ui listed) = Some (EditMessage (UiEpisodeList 2) kb) /\
    kb !! 1%nat = Some btn /\
    queue (snd (dispatch_callback BE (callback_data btn) 7 listed))
    = [mkItem 7 ep_2 "queued"].
Proof.
  refine (listed_episode_can_be_queued
            (quiet_ui (answering (JDict [("episodes", JList [ep_1; ep_2])])))
            "s1" 7 (shown []) {[ "episodes" := JList [] ]} [ep_1; ep_2] _ 1 ep_2 "ep_2"
            _ _ _ _ _ _ eq_refl eq_refl _).
  - intros n c. reflexivity.
  - intros s. reflexivity.
  - apply lookup_singleton_eq.
  - vm_compute. reflexivity.
  - repeat constructor; eexists; reflexivity.
  - lia.
  - repeat constructor. exists (JStr "ep_1"). split; [reflexivity | discriminate].
Defined.

Lemma queue_drain (BE : bot_env) (n : nat) (b : bot) :
  (length (queue b) <= n)%nat ->
  exists b' l,
    queue_turns BE n b = (Ok tt, b') /\
    queue b' = [] /\ user_data b' = user_data b /\ ui b' = ui b /\
    trace (core b') = (trace (core b) ++ l)%list /\
    select is_announcement l = flat_map announcement (queue b).
Proof.
  revert b. induction n as [|n IH]; intros b Hlen.
  - destruct (queue b) eqn:Hq; [|simpl in Hlen; lia].
    exists b, []. simpl. rewrite app_nil_r. unfold hret. repeat split; auto.
  - cbn [queue_turns]. unfold hbind, queue_turn.
    destruct (queue b) as [|item rest] eqn:Hq.
    + change (process_queue_turn (core_env BE) QTimeout (core b)) with (Ok tt, core b).
      destruct (IH (set_core (core b) b)) as [b' [l H]]; [simpl; rewrite Hq; simpl; lia|].
      simpl in H. rewrite Hq in H. exists b', l. exact H.
    + destruct (turn_announces (core_env BE) item (core b)) as [w' [l1 [Hturn [Htr Hsel]]]].
      rewrite Hturn.
      destruct (IH (set_core w' (set_queue rest b))) as [b' [l2 H]];
        [simpl in *; lia|].
      simpl in H. destruct H as [Hrun [Hq' [Hud [Hui [Htr' Hsel']]]]].
      exists b', (l1 ++ l2)%list. rewrite Hrun.
      repeat split; try assumption.
      * rewrite Htr', Htr, <- app_assoc. reflexivity.
      * simpl. rewrite select_app, Hsel, Hsel'. reflexivity.
Qed.

(** X26. The dispatcher serves the queue first in, first out: run for at
    least as many turns as there are items, with nobody adding to it, the
    loop empties the queue without raising and sends the first status
    message of every item whose episode is a dict, each once and in the
    order the items were queued, whatever the API and Telegram do; turns
    on the empty queue time out silently. It leaves the stored data
    alone. *)
Theorem queue_drains_in_order (BE : bot_env) (n : nat) (b : bot) :
  (length (queue b) <= n)%nat ->
  let run := queue_turns BE n b in
  fst run = Ok tt /\
  queue (snd run) = [] /\
  user_data (snd run) = user_data b /\
  select is_announcement (new_calls (core b) (core (snd run)))
  = flat_map announcement (queue b).
Proof.
  intros Hlen run. subst run.
  destruct (queue_drain BE n b Hlen) as [b' [l [Hrun [Hq [Hud [_ [Htr Hsel]]]]]]].
  rewrite Hrun. cbn [fst snd].
  rewrite (new_calls_app _ _ _ Htr). auto.
Qed.

Lemma queue_drains_in_order_witness :
  select is_announcement
    (new_calls world0
       (core (snd (queue_turns (quiet_ui (answering JNull)) 4
                     (loaded [ep_1; JStr "soon"; ep_2])))))
  = [SendMessage 7 (TxtGettingUrl (JStr "Test"));
     SendMessage 7 (TxtGettingUrl (JStr "Second"))].
Proof.
  refine (proj2 (proj2 (proj2 (queue_drains_in_order
                                 (quiet_ui (answering JNull)) 4
                                 (loaded [ep_1; JStr "soon"; ep_2]) _)))).
  simpl. lia.
Defined.

Lemma store_ok (user : Z) (key : string) (v : json) (b : bot) (d : gmap string json) :
  user_data b !! user = Some d ->
  store user key v b
  = (Ok tt, set_user_data (<[user := <[key := v]> d]> (user_data b)) b).
Proof.
  intros Hd. unfold store. rewrite Hd. reflexivity.
Qed.

Lemma series_run_calls (BE : bot_env) (data : string) (user : Z) (b : bot) :
  exists l, ui (snd (callback_series BE data user b)) = (ui b ++ l)%list /\
            Forall (card_for data) l.
Proof.
  assert (Hother : forall c, (forall t n d kb, c <> EditMessage (UiSeriesCard t n d) kb) ->
                             card_for data c).
  { intros c Hc t n d kb Heq. destruct (Hc _ _ _ _ Heq). }
  assert (Herr : card_for data (Answer UiError true)) by (apply Hother; discriminate).
  assert (Hload : card_for data (EditMessage UiLoadingSeries []))
    by (apply Hother; discriminate).
  assert (Hfail : card_for data (EditMessage UiSeriesFailed []))
    by (apply Hother; discriminate).
  unfold callback_series.
  destruct (py_index (py_split underscore 1 data) 1) as [sid|x] eqn:Hparse;
    [rewrite (htry_bind_ok _ _ _ b b sid) by reflexivity
    |rewrite (htry_bind_raise _ _ _ b b x) by reflexivity; ui_step; simpl;
     (eexists; split; [reflexivity | repeat constructor; assumption])].
  destruct (ui_do_run BE (EditMessage UiLoadingSeries []) b) as [r Hr].
  set (b0 := log_ui (EditMessage UiLoadingSeries []) b) in *.
  destruct r as [[]|x];
    [rewrite (htry_bind_ok _ _ _ b b0 tt) by exact Hr
    |rewrite (htry_bind_raise _ _ _ b b0 x) by exact Hr; ui_step; simpl;
     (eexists; rewrite <- app_assoc; split; [reflexivity | repeat constructor; assumption])].
  destruct (get_series_details (core_env BE) sid (core b0)) as [r w'] eqn:Hget.
  set (b1 := set_core w' b0).
  assert (Hcore : in_core (get_series_details (core_env BE) sid) b0 = (r, b1))
    by (unfold in_core; rewrite Hget; reflexivity).
  destruct r as [details|x];
    [rewrite (htry_bind_ok _ _ _ b0 b1 details) by exact Hcore
    |rewrite (htry_bind_raise _ _ _ b0 b1 x) by exact Hcore; ui_step; simpl;
     (eexists; rewrite <- app_assoc; split; [reflexivity | repeat constructor; assumption])].
  destruct (truthy details); unfold negb; cbv iota;
    [|unfold htry_except; ui_step; [|ui_step]; simpl;
      (eexists; rewrite <- !app_assoc; split; [reflexivity | repeat constructor; assumption])].
  set (b2 := match user_data b1 !! user with
             | Some _ => b1
             | None => set_user_data (<[user := ∅]> (user_data b1)) b1
             end).
  assert (Hb2 : exists d, user_data b2 !! user = Some d /\ ui b2 = (ui b ++ [EditMessage UiLoadingSeries []])%list).
  { subst b2. destruct (user_data b1 !! user) as [d|] eqn:Hd.
    - exists d. split; [exact Hd | reflexivity].
    - exists ∅. split; [simpl; apply lookup_insert_eq | reflexivity]. }
  destruct Hb2 as [d [Hd Hui2]].
  rewrite (htry_bind_ok _ _ _ b1 b2 tt) by reflexivity.
  rewrite (htry_bind_ok _ _ _ b2 _ tt) by (apply (store_ok _ _ _ _ d); exact Hd).
  rewrite (htry_bind_ok _ _ _ _ _ tt)
    by (apply (store_ok _ _ _ _ (<["current_series" := details]> d));
        simpl; apply lookup_insert_eq).
  match goal with
  | |- context [htry_except _ _ ?b3] => set (b3' := b3)
  end.
  assert (Hui3 : ui b3' = (ui b ++ [EditMessage UiLoadingSeries []])%list) by exact Hui2.
  clearbody b3'.
  unfold htry_except, hbind, hlift.
  destruct details as [| | | | |kv]; cbn [py_get];
    try (ui_step; simpl; rewrite Hui3, <- app_assoc;
         (eexists; split; [reflexivity | repeat constructor; assumption])).
  destruct (py_slice_check _);
    [|ui_step; simpl; rewrite Hui3, <- app_assoc;
      (eexists; split; [reflexivity | repeat constructor; assumption])].
  assert (Hcard : forall t n dsc,
             card_for data
               (EditMessage (UiSeriesCard t n dsc)
                  [mkButton LblViewEpisodes ("episodes_" ++ sid);
                   mkButton LblDownloadAll ("download_all_" ++ sid);
                   mkButton LblBack "back_search"])).
  { intros t n dsc t' n' dsc' kb Heq. injection Heq as _ _ _ <-.
    destruct (callback_data_delivered sid) as [_ [Heps [_ Hall]]].
    exists sid, (mkButton LblViewEpisodes ("episodes_" ++ sid)),
      (mkButton LblDownloadAll ("download_all_" ++ sid)),
      (mkButton LblBack "back_search").
    repeat split; try assumption; try apply Heps; try apply Hall. }
  ui_step; [|ui_step]; simpl; rewrite Hui3, <- !app_assoc;
    (eexists; split; [reflexivity | repeat constructor; try assumption; apply Hcard]).
Qed.

(** X27. Whenever [callback_series] shows the card of a series, the card
    has three buttons: "View Episodes" and "Download All" carry data that
    reaches [callback_episodes] and [callback_download_all] with the id of
    that series, and the data of "Back" reaches no handler at all. *)
Theorem series_card_buttons (BE : bot_env) (data : string) (user : Z) (b : bot)
    (title n desc : json) (kb : list button) :
  In (EditMessage (UiSeriesCard title n desc) kb)
     (drop (length (ui b)) (ui (snd (callback_series BE data user b)))) ->
  exists sid x1 x2 x3,
    parsed_id CbSeries data = Ok sid /\
    kb = [x1; x2; x3] /\
    delivers (callback_data x1) CbEpisodes sid /\
    delivers (callback_data x2) CbDownloadAll sid /\
    route (callback_data x3) = None.
Proof.
  intros Hin.
  destruct (series_run_calls BE data user b) as [l [Hl Hall]].
  rewrite Hl, drop_app_length in Hin.
  rewrite List.Forall_forall in Hall.
  exact (Hall _ Hin title n desc kb eq_refl).
Qed.

Lemma series_card_buttons_witness :
  exists sid x1 x2 x3,
    parsed_id CbSeries "series_s1" = Ok sid /\
    [mkButton LblViewEpisodes "episodes_s1";
     mkButton LblDownloadAll "download_all_s1";
     mkButton LblBack "back_search"] = [x1; x2; x3] /\
    delivers (callback_data x1) CbEpisodes sid /\
    delivers (callback_data x2) CbDownloadAll sid /\
    route (callback_data x3) = None.
Proof.
  refine (series_card_buttons (quiet_ui (answering series_1)) "series_s1" 7 bot0
            (JStr "Saving Nora") (JNum 2) (JStr "No description") _ _).
  vm_compute. right. left. reflexivity.
Defined.

(** X28. A search replaces everything stored for the user: once
    [cmd_search] has found results, only they are stored, so the buttons of
    an episode list shown before the search no longer queue anything. *)
Theorem search_forgets_episodes (BE : bot_env) (cmd query : string) (rest : list string)
    (user : Z) (b : bot) (results : json) (w' : world) (eid : string) :
  on_ui BE (length (ui b)) (ReplyText (UiSearching query)) = None ->
  search_series (core_env BE) query 10 (core b) = (Ok results, w') ->
  truthy results = true ->
  let searched := snd (cmd_search BE (cmd :: query :: rest) user b) in
  user_data searched !! user = Some {[ "search_results" := results ]} /\
  queue (snd (dispatch_callback BE ("ep_" ++ eid) user searched)) = queue b.
Proof.
  intros Hui Hsearch Htruthy searched.
  assert (Hs : user_data searched !! user = Some {[ "search_results" := results ]} /\
               queue searched = queue b).
  { subst searched. unfold cmd_search.
    rewrite (htry_bind_ok _ _ _ b (log_ui (ReplyText (UiSearching query)) b) tt)
      by (unfold ui_do; rewrite Hui; reflexivity).
    rewrite (htry_bind_ok _ _ _ _
               (set_core w' (log_ui (ReplyText (UiSearching query)) b)) results)
      by (unfold in_core; cbn [core log_ui]; rewrite Hsearch; reflexivity).
    rewrite Htruthy. unfold negb. cbv iota.
    rewrite (htry_bind_ok _ _ _ _ _ tt) by reflexivity.
    unfold htry_except, hbind, hlift.
    destruct (py_slice BE 10 results) as [first|x]; [|ui_step; simpl; split;
      solve [apply lookup_insert_eq | reflexivity]].
    destruct (py_iter BE first) as [rs|x]; [|ui_step; simpl; split;
      solve [apply lookup_insert_eq | reflexivity]].
    destruct (comprehension (series_button BE) rs) as [keyboard|x]; [|ui_step; simpl; split;
      solve [apply lookup_insert_eq | reflexivity]].
    destruct (py_len BE results) as [n|x]; [|ui_step; simpl; split;
      solve [apply lookup_insert_eq | reflexivity]].
    ui_step; [|ui_step]; simpl; split; solve [apply lookup_insert_eq | reflexivity]. }
  destruct Hs as [Hud Hq]. split; [exact Hud|].
  destruct (ep_data eid) as [Hroute Hparse].
  unfold dispatch_callback. rewrite Hroute.
  rewrite (episode_download_run BE _ eid user searched [] None Hparse);
    [| | reflexivity].
  - simpl. unfold htry_except. ui_step; [|ui_step]; simpl; exact Hq.
  - unfold stored_episodes, user_value. rewrite Hud. cbn [from_option id].
    rewrite lookup_singleton_ne by discriminate. reflexivity.
Qed.

Lemma search_forgets_episodes_witness :
  queue (snd (dispatch_callback (quiet_ui (answering found_one)) "ep_ep_1" 7
                (snd (cmd_search (quiet_ui (answering found_one)) ["/search"; "nora"] 7
                        (shown [ep_1])))))
  = [].
Proof.
  refine (proj2 (search_forgets_episodes (quiet_ui (answering found_one))
                   "/search" "nora" [] 7 (shown [ep_1]) _ _ "ep_1" eq_refl _ _)).
  - vm_compute. reflexivity.
  - reflexivity.
Defined.

(** X29. From the button to the status messages: after "download all" on
    an empty queue, the dispatcher announces the first fifty episodes of
    the listing to the user who asked, one status message each, in the
    order of the listing. *)
Theorem download_all_served_in_order (BE : bot_env) (sid : string) (user : Z) (b : bot)
    (e0 : json) (l : list json) (w' : world) (n : nat) :
  queue b = [] ->
  on_ui BE (length (ui b)) (EditMessage UiLoadingAll []) = None ->
  get_episodes (core_env BE) sid 500 (core b) = (Ok (JList (e0 :: l)), w') ->
  Forall (fun e => is_dict e = true) (take 50 (e0 :: l)) ->
  (50 <= n)%nat ->
  let asked := snd (dispatch_callback BE ("download_all_" ++ sid) user b) in
  let run := queue_turns BE n asked in
  fst run = Ok tt /\
  queue (snd run) = [] /\
  select is_announcement (new_calls w' (core (snd run)))
  = flat_map announcement (queued user (take 50 (e0 :: l))).
Proof.
  intros Hempty Hui Hget Hall Hn asked run.
  destruct (download_all_first_50 BE sid user b e0 l w' Hui Hget Hall)
    as [Hq [Hcore _]].
  fold asked in Hq, Hcore. rewrite Hempty in Hq. cbn [app] in Hq.
  destruct (queue_drain BE n asked) as [b' [l' [Hrun [Hq' [_ [_ [Htr Hsel]]]]]]].
  { rewrite Hq. unfold queued. rewrite length_map, length_take. lia. }
  subst run. rewrite Hrun. cbn [fst snd].
  rewrite Hcore in Htr. rewrite (new_calls_app _ _ _ Htr), Hsel, Hq. auto.
Qed.

Lemma download_all_served_in_order_witness :
  select is_announcement
    (new_calls
       (snd (get_episodes (answering (JDict [("episodes", JList [ep_1; ep_2])]))
               "s1" 500 world0))
       (core (snd (queue_turns
                     (quiet_ui (answering (JDict [("episodes", JList [ep_1; ep_2])]))) 50
                     (snd (dispatch_callback
                             (quiet_ui (answering (JDict [("episodes", JList [ep_1; ep_2])])))
                             "download_all_s1" 7 bot0))))))
  = [SendMessage 7 (TxtGettingUrl (JStr "Test"));
     SendMessage 7 (TxtGettingUrl (JStr "Second"))].
Proof.
  refine (proj2 (proj2 (download_all_served_in_order
                          (quiet_ui (answering (JDict [("episodes", JList [ep_1; ep_2])])))
                          "s1" 7 bot0 ep_1 [ep_2] _ 50 eq_refl eq_refl _ _ _))).
  - vm_compute. reflexivity.
  - repeat constructor.
  - lia.
Defined.
